(** * mcp-server-dataverse: metadata cache, natural-language parser and
      interactive query assistant

    A shallow embedding of three services of the repository,

    - [MetadataExplorerService] (src/services/metadataExplorerService.ts),
    - [NLQueryService]          (src/services/nlQueryService.ts),
    - [QueryAssistantService]   (src/services/queryAssistantService.ts),

    together with the part of the JavaScript runtime they rely on.

    Conventions of the embedding.

    - A JavaScript string is the list of its UTF-16 code units ([list N]).
      Case mapping and Unicode normalisation are exact on Basic Latin and
      Latin-1 Supplement code units (U+0000..U+00FF) and leave other code
      units alone; every literal of the three services lies in that range.
    - A JavaScript number holding an integer is a [Z]; [parseInt] keeps the
      exact integer (JavaScript rounds beyond 2^53).
    - An object literal used as a lookup table is the association list of its
      own properties, read with [tbl_get], which also answers for the names
      inherited from [Object.prototype].
    - An object built at run time ([filters]) is the list of its own
      properties in the order [Object.entries] enumerates them.
    - [throw] and [try]/[catch] are modelled with the [Outcome] error monad;
      a call of the CRM connector ([dynamicsService]) is an answer of the
      connector, passed in as a function, and a line in a call log.
    - Logging is a diagnostic side channel and is left out. *)

From Stdlib Require Import ZArith NArith List String Ascii Bool Lia.
From stdpp Require Import gmap.
Import ListNotations.

Abbreviation jsstring := (list N).

(* ===================================================================== *)
(** * The JavaScript runtime used by the services *)
(* ===================================================================== *)

Module Js.

(** ** String literals *)

(** Source literals are written as Rocq strings, which hold the UTF-8 bytes
    of the text; [utf8_units] decodes one-, two- and three-byte sequences
    into code units. *)
Fixpoint utf8_units (bs : list N) : jsstring :=
  match bs with
  | [] => []
  | b :: r =>
      if (b <? 128)%N then b :: utf8_units r
      else if (b <? 224)%N then
        match r with
        | c :: r' => ((b - 192) * 64 + (c - 128))%N :: utf8_units r'
        | [] => []
        end
      else
        match r with
        | c :: d :: r' =>
            ((b - 224) * 4096 + (c - 128) * 64 + (d - 128))%N :: utf8_units r'
        | _ => []
        end
  end.

Definition js (s : string) : jsstring :=
  utf8_units (map N_of_ascii (list_ascii_of_string s)).

(** A literal in which the two characters [\n] stand for a line feed, as
    in the template literals of the source. *)
Fixpoint unescape (s : jsstring) : jsstring :=
  match s with
  | 92%N :: 110%N :: s' => 10%N :: unescape s'
  | c :: s' => c :: unescape s'
  | [] => []
  end.

Definition jsn (s : string) : jsstring := unescape (js s).

(** The double quote and the line feed, which a Rocq literal cannot hold
    conveniently. *)
Definition dq : jsstring := [34%N].
Definition nl : jsstring := [10%N].

(** ** Code-unit classes *)

Definition in_range (lo hi c : N) : bool := ((lo <=? c) && (c <=? hi))%N.

(** ECMAScript LineTerminator. *)
Definition is_line_terminator (c : N) : bool :=
  existsb (N.eqb c) [10; 13; 8232; 8233]%N.

(** ECMAScript WhiteSpace (TAB, VT, FF, ZWNBSP and the Zs category). *)
Definition is_white_space (c : N) : bool :=
  existsb (N.eqb c) [9; 11; 12; 32; 160; 5760; 8239; 8287; 12288; 65279]%N
  || in_range 8192 8202 c.

(** What [\s], [trim] and [parseInt] skip. *)
Definition is_space (c : N) : bool := is_white_space c || is_line_terminator c.

Definition is_digit (c : N) : bool := in_range 48 57 c.
Definition is_upper_ascii (c : N) : bool := in_range 65 90 c.
Definition is_lower_ascii (c : N) : bool := in_range 97 122 c.

(** [\w] without the [u] flag. *)
Definition is_word (c : N) : bool :=
  is_digit c || is_upper_ascii c || is_lower_ascii c || (c =? 95)%N.

(** [.] without the [s] flag. *)
Definition is_dot (c : N) : bool := negb (is_line_terminator c).

(** ** Case mapping *)

(** Upper-case letters of Latin-1 Supplement: U+00C0..U+00DE but the
    multiplication sign U+00D7. *)
Definition is_upper_latin1 (c : N) : bool :=
  in_range 192 222 c && negb (c =? 215)%N.

Definition lower_unit (c : N) : N :=
  if is_upper_ascii c || is_upper_latin1 c then (c + 32)%N else c.

(** [String.prototype.toLowerCase] on the code units up to U+00FF, where it
    maps unit by unit.  A code unit above U+00FF is left as it is, which is
    not what the language does for the letters there: the model is exact on
    texts of Basic Latin and Latin-1 only. *)
Definition toLowerCase (s : jsstring) : jsstring := map lower_unit s.

(** Lower-case letters of Latin-1 Supplement with an upper case in the same
    block: U+00E0..U+00FE but the division sign U+00F7. *)
Definition is_lower_latin1 (c : N) : bool :=
  in_range 224 254 c && negb (c =? 247)%N.

(** Canonicalize of the regular-expression semantics (flag [i], no flag
    [u]) on the code units that the patterns of the services spell out. *)
Definition canonicalize (c : N) : N :=
  if is_lower_ascii c || is_lower_latin1 c then (c - 32)%N else c.

(** ** String.prototype helpers *)

Definition eqb (a b : jsstring) : bool := bool_decide (a = b).

(** [Array.prototype.includes] on an array of strings. *)
Definition includes (l : list jsstring) (x : jsstring) : bool :=
  existsb (eqb x) l.

(** A string is truthy when it is not empty. *)
Definition truthy (s : jsstring) : bool :=
  match s with [] => false | _ => true end.

Fixpoint trimStart (s : jsstring) : jsstring :=
  match s with
  | c :: s' => if is_space c then trimStart s' else s
  | [] => []
  end.

Definition trimEnd (s : jsstring) : jsstring := rev (trimStart (rev s)).

Definition trim (s : jsstring) : jsstring := trimEnd (trimStart s).

Fixpoint startsWith (s p : jsstring) : bool :=
  match p, s with
  | [], _ => true
  | a :: p', b :: s' => (a =? b)%N && startsWith s' p'
  | _ :: _, [] => false
  end.

Definition endsWith (s p : jsstring) : bool := startsWith (rev s) (rev p).

(** [s.includes(t)] on strings: [t] occurs in [s]. *)
Fixpoint includes_text (s t : jsstring) : bool :=
  startsWith s t
  || match s with
     | [] => false
     | _ :: s' => includes_text s' t
     end.

(** [s.slice(0, -1)]: all but the last code unit. *)
Definition slice_0_m1 (s : jsstring) : jsstring := removelast s.

(** [s.substring(1, s.length - 1)]; [substring] swaps its bounds when the
    first exceeds the second, so a string of one code unit is returned
    whole. *)
Definition substring_1_m1 (s : jsstring) : jsstring :=
  match s with
  | [] => []
  | [c] => [c]
  | _ :: s' => removelast s'
  end.

(** [Array.prototype.join]. *)
Fixpoint join (sep : jsstring) (l : list jsstring) : jsstring :=
  match l with
  | [] => []
  | [x] => x
  | x :: l' => x ++ sep ++ join sep l'
  end.

(** ** Numbers *)

Definition digit_unit (d : Z) : N := (48 + Z.to_N d)%N.

(** Decimal digits of a non-negative integer, most significant first;
    [fuel] bounds the number of digits. *)
Fixpoint digits_of (fuel : nat) (n : Z) (acc : jsstring) : jsstring :=
  match fuel with
  | O => acc
  | S f =>
      if (n <? 10)%Z then digit_unit n :: acc
      else digits_of f (n / 10)%Z (digit_unit (n mod 10)%Z :: acc)
  end.

(** [String(n)] for an integer (below 10^21 in absolute value). *)
Definition number_to_string (n : Z) : jsstring :=
  if (n <? 0)%Z then 45%N :: digits_of 22 (- n)%Z []
  else digits_of 22 n [].

Definition hex_value (c : N) : option Z :=
  if is_digit c then Some (Z.of_N c - 48)%Z
  else if in_range 97 102 c then Some (Z.of_N c - 87)%Z
  else if in_range 65 70 c then Some (Z.of_N c - 55)%Z
  else None.

Definition dec_value (c : N) : option Z :=
  if is_digit c then Some (Z.of_N c - 48)%Z else None.

(** The longest prefix of digits in the given radix, as a number; [None]
    when the first code unit is not a digit. *)
Fixpoint read_digits (value : N -> option Z) (radix : Z) (s : jsstring)
    (acc : option Z) : option Z :=
  match s with
  | [] => acc
  | c :: s' =>
      match value c with
      | Some d =>
          read_digits value radix s'
            (Some (match acc with Some a => a * radix + d | None => d end)%Z)
      | None => acc
      end
  end.

(** [parseInt(s)] with no radix argument: leading white space is skipped,
    a sign is read, [0x]/[0X] selects base sixteen, and the digits that
    follow are read up to the first code unit that is not one.  [None]
    stands for [NaN].  The value is the integer that the digits denote;
    the language rounds it to a double, so the model is exact up to
    2^53. *)
Definition parseInt (s : jsstring) : option Z :=
  let s1 := trimStart s in
  let '(neg, s2) :=
    match s1 with
    | 45%N :: r => (true, r)
    | 43%N :: r => (false, r)
    | _ => (false, s1)
    end in
  let r :=
    match s2 with
    | 48%N :: 120%N :: h | 48%N :: 88%N :: h => read_digits hex_value 16 h None
    | _ => read_digits dec_value 10 s2 None
    end in
  match r with
  | Some v => Some (if neg then (- v)%Z else v)
  | None => None
  end.

(** ** JSON.stringify on strings *)

Definition hex_digit (d : N) : N := if (d <? 10)%N then (48 + d)%N else (87 + d)%N.

(** [\uXXXX] with lower-case digits. *)
Definition unicode_escape (c : N) : jsstring :=
  [92; 117; hex_digit (c / 4096); hex_digit ((c / 256) mod 16);
   hex_digit ((c / 16) mod 16); hex_digit (c mod 16)]%N.

Definition is_lead_surrogate (c : N) : bool := in_range 55296 56319 c.
Definition is_trail_surrogate (c : N) : bool := in_range 56320 57343 c.

Definition json_escape_unit (c : N) : jsstring :=
  if (c =? 8)%N then [92; 98]%N
  else if (c =? 9)%N then [92; 116]%N
  else if (c =? 10)%N then [92; 110]%N
  else if (c =? 12)%N then [92; 102]%N
  else if (c =? 13)%N then [92; 114]%N
  else if (c =? 34)%N then [92; 34]%N
  else if (c =? 92)%N then [92; 92]%N
  else if (c <? 32)%N || is_lead_surrogate c || is_trail_surrogate c
  then unicode_escape c
  else [c].

(** The body of QuoteJSONString: a surrogate pair is kept, a lone surrogate
    is escaped. *)
Fixpoint json_escape (s : jsstring) : jsstring :=
  match s with
  | [] => []
  | c :: s' =>
      match s' with
      | d :: s'' =>
          if is_lead_surrogate c && is_trail_surrogate d
          then c :: d :: json_escape s''
          else json_escape_unit c ++ json_escape s'
      | [] => json_escape_unit c
      end
  end.

Definition json_quote (s : jsstring) : jsstring :=
  [34%N] ++ json_escape s ++ [34%N].

(** ** Regular expressions *)

(** The fragment of the ECMAScript pattern language that the services use:
    every quantifier applies to a one-character matcher and is greedy. *)
Inductive regex : Type :=
  | REmpty
  | RChar (p : N -> bool)
  | RSeq (r1 r2 : regex)
  | RAlt (r1 r2 : regex)
  | RStar (p : N -> bool)
  | RGroup (i : nat) (r : regex)
  | RBol
  | REol.

Definition captures := list (nat * jsstring).

(** The value of capture group [i]; the most recent binding wins. *)
Fixpoint capture (i : nat) (cs : captures) : jsstring :=
  match cs with
  | [] => []
  | (j, v) :: cs' => if Nat.eqb i j then v else capture i cs'
  end.

(** The text consumed between two positions, each given by the input that
    remains there. *)
Definition consumed (from to : jsstring) : jsstring :=
  take (length from - length to) from.

Section Matcher.
Context {A : Type}.

(** Greedy iteration with backtracking: the longest run first, then
    shorter ones. *)
Fixpoint rstar (p : N -> bool) (k : jsstring -> option A) (s : jsstring)
    : option A :=
  match s with
  | c :: s' =>
      if p c then
        match rstar p k s' with
        | Some r => Some r
        | None => k s
        end
      else k s
  | [] => k s
  end.

(** The backtracking matcher in continuation-passing style; [whole] is the
    complete input, [s] what remains at the current position. *)
Fixpoint rmatch (r : regex) (whole s : jsstring) (cs : captures)
    (k : jsstring -> captures -> option A) : option A :=
  match r with
  | REmpty => k s cs
  | RChar p =>
      match s with
      | c :: s' => if p c then k s' cs else None
      | [] => None
      end
  | RSeq r1 r2 =>
      rmatch r1 whole s cs (fun s' cs' => rmatch r2 whole s' cs' k)
  | RAlt r1 r2 =>
      match rmatch r1 whole s cs k with
      | Some x => Some x
      | None => rmatch r2 whole s cs k
      end
  | RStar p => rstar p (fun s' => k s' cs) s
  | RGroup i r1 =>
      rmatch r1 whole s cs (fun s' cs' => k s' ((i, consumed s s') :: cs'))
  | RBol => if Nat.eqb (length s) (length whole) then k s cs else None
  | REol => match s with [] => k s cs | _ => None end
  end.
End Matcher.

(** What a pattern can match, without the order in which the matcher tries:
    [matches whole r s s'] says that [r] matches a prefix of [s] and leaves
    [s']. *)
Inductive matches (whole : jsstring) : regex -> jsstring -> jsstring -> Prop :=
  | matches_empty s : matches whole REmpty s s
  | matches_char p c s : p c = true -> matches whole (RChar p) (c :: s) s
  | matches_seq r1 r2 s s1 s2 :
      matches whole r1 s s1 -> matches whole r2 s1 s2 ->
      matches whole (RSeq r1 r2) s s2
  | matches_alt_l r1 r2 s s' :
      matches whole r1 s s' -> matches whole (RAlt r1 r2) s s'
  | matches_alt_r r1 r2 s s' :
      matches whole r2 s s' -> matches whole (RAlt r1 r2) s s'
  | matches_star_nil p s : matches whole (RStar p) s s
  | matches_star_cons p c s s' :
      p c = true -> matches whole (RStar p) s s' ->
      matches whole (RStar p) (c :: s) s'
  | matches_group i r s s' :
      matches whole r s s' -> matches whole (RGroup i r) s s'
  | matches_bol s : length s = length whole -> matches whole RBol s s
  | matches_eol : matches whole REol [] [].

(** The same with the capture groups: [captured whole r s cs s' cs'] says
    that [r] matches a prefix of [s], leaves [s'] and turns the captures
    [cs] into [cs']. *)
Inductive captured (whole : jsstring)
    : regex -> jsstring -> captures -> jsstring -> captures -> Prop :=
  | captured_empty s cs : captured whole REmpty s cs s cs
  | captured_char p c s cs :
      p c = true -> captured whole (RChar p) (c :: s) cs s cs
  | captured_seq r1 r2 s cs s1 cs1 s2 cs2 :
      captured whole r1 s cs s1 cs1 -> captured whole r2 s1 cs1 s2 cs2 ->
      captured whole (RSeq r1 r2) s cs s2 cs2
  | captured_alt_l r1 r2 s cs s' cs' :
      captured whole r1 s cs s' cs' -> captured whole (RAlt r1 r2) s cs s' cs'
  | captured_alt_r r1 r2 s cs s' cs' :
      captured whole r2 s cs s' cs' -> captured whole (RAlt r1 r2) s cs s' cs'
  | captured_star_nil p s cs : captured whole (RStar p) s cs s cs
  | captured_star_cons p c s cs s' :
      p c = true -> captured whole (RStar p) s cs s' cs ->
      captured whole (RStar p) (c :: s) cs s' cs
  | captured_group i r s cs s' cs' :
      captured whole r s cs s' cs' ->
      captured whole (RGroup i r) s cs s' ((i, consumed s s') :: cs')
  | captured_bol s cs :
      length s = length whole -> captured whole RBol s cs s cs
  | captured_eol cs : captured whole REol [] cs [] cs.

(** The numbers of the capture groups of a pattern. *)
Fixpoint groups (r : regex) : list nat :=
  match r with
  | RSeq r1 r2 | RAlt r1 r2 => groups r1 ++ groups r2
  | RGroup i r1 => i :: groups r1
  | _ => []
  end.

(** A match attempt at one position: the input left after the match and
    the captures. *)
Definition match_here (r : regex) (whole s : jsstring)
    : option (jsstring * captures) :=
  rmatch r whole s [] (fun s' cs => Some (s', cs)).

(** The leftmost match, as [RegExp.prototype.exec] finds it for a pattern
    without the [g] and [y] flags. *)
Fixpoint search_from (r : regex) (whole s : jsstring)
    : option (jsstring * captures) :=
  match match_here r whole s with
  | Some x => Some x
  | None =>
      match s with
      | [] => None
      | _ :: s' => search_from r whole s'
      end
  end.

(** [s.match(r)]: the capture groups of the leftmost match. *)
Definition regex_match (r : regex) (s : jsstring) : option captures :=
  match search_from r s s with
  | Some (_, cs) => Some cs
  | None => None
  end.

(** [r.test(s)]. *)
Definition regex_test (r : regex) (s : jsstring) : bool :=
  match search_from r s s with Some _ => true | None => false end.

(** Pattern combinators. *)
Definition rplus (p : N -> bool) : regex := RSeq (RChar p) (RStar p).

(** A literal character under the [i] flag. *)
Definition rlit_i (c : N) : regex :=
  RChar (fun x => (canonicalize x =? canonicalize c)%N).

(** A character class [[ab]] under the [i] flag. *)
Definition rclass_i (l : list N) : regex :=
  RChar (fun x => existsb (fun c => (canonicalize x =? canonicalize c)%N) l).

Fixpoint rseq (l : list regex) : regex :=
  match l with
  | [] => REmpty
  | [r] => r
  | r :: l' => RSeq r (rseq l')
  end.

(** A literal word under the [i] flag. *)
Definition rword_i (s : string) : regex := rseq (map rlit_i (js s)).

(** [s.split(r)] without a limit, for a separator pattern without capture
    groups (the SplitMatcher loop of the language specification): [piece] is
    the text of the current piece read so far, in reverse, and [skip] the
    number of code units of an accepted separator still to pass over.  An
    empty match at the start of a piece is ignored; an empty match further on
    closes the piece. *)
Fixpoint split_loop (r : regex) (whole s : jsstring) (piece : jsstring)
    (skip : nat) : list jsstring :=
  match s with
  | [] => [rev piece]
  | c :: s' =>
      match skip with
      | S n => split_loop r whole s' piece n
      | O =>
          match match_here r whole s with
          | Some (rest, _) =>
              match (length s - length rest)%nat, piece with
              | O, [] => split_loop r whole s' [c] 0
              | O, _ :: _ => rev piece :: split_loop r whole s' [c] 0
              | S n, _ => rev piece :: split_loop r whole s' [] n
              end
          | None => split_loop r whole s' (c :: piece) 0
          end
      end
  end.

Definition split (r : regex) (s : jsstring) : list jsstring :=
  match s with
  | [] => match match_here r s s with Some _ => [] | None => [[]] end
  | _ => split_loop r s s [] 0
  end.

(** [s.replace(r, t)] for a pattern without the [g] flag and a replacement
    [t] that holds no [$]: the leftmost match gives way to [t]. *)
Fixpoint replace_from (r : regex) (t whole s : jsstring) : jsstring :=
  match match_here r whole s with
  | Some (rest, _) => t ++ rest
  | None =>
      match s with
      | [] => []
      | c :: s' => c :: replace_from r t whole s'
      end
  end.

Definition replace_first (r : regex) (t s : jsstring) : jsstring :=
  replace_from r t s s.

End Js.

Import Js.

(** ** Lookup tables *)

(** The own properties of an object literal. *)
Fixpoint own_get {V : Type} (t : list (jsstring * V)) (k : jsstring)
    : option V :=
  match t with
  | [] => None
  | (k', v) :: t' => if Js.eqb k k' then Some v else own_get t' k
  end.

(** The functions that an object literal inherits from [Object.prototype],
    but [constructor]. *)
Definition prototypeFunctions : list jsstring :=
  map js
    [ "__defineGetter__"; "__defineSetter__"; "hasOwnProperty";
      "__lookupGetter__"; "__lookupSetter__"; "isPrototypeOf";
      "propertyIsEnumerable"; "toString"; "valueOf"; "toLocaleString"
    ]%string.

(** A read of a name that an object literal inherits yields a function, or
    [Object.prototype] itself for [__proto__].  The services test such a
    value for truthiness, compare it with string literals and interpolate
    it; it is represented by the string it coerces to (as V8 prints it). *)
Definition inherited (k : jsstring) : option jsstring :=
  if Js.eqb k (js "__proto__") then Some (js "[object Object]")
  else if Js.eqb k (js "constructor")
  then Some (js "function Object() { [native code] }")
  else if includes prototypeFunctions k
  then Some (js "function " ++ k ++ js "() { [native code] }")
  else None.

(** [table[key]] on an object literal with string values: the own property,
    else the inherited member, else [None] for [undefined]. *)
Definition tbl_get (t : list (jsstring * jsstring)) (k : jsstring)
    : option jsstring :=
  match own_get t k with
  | Some v => Some v
  | None => inherited k
  end.

(** [table[key]] read in a condition or behind [||]: the value when it is
    truthy. *)
Definition tbl_truthy (t : list (jsstring * jsstring)) (k : jsstring)
    : option jsstring :=
  match tbl_get t k with
  | Some v => if truthy v then Some v else None
  | None => None
  end.

(** [s || undefined] *)
Definition truthy_or_undefined (s : jsstring) : option jsstring :=
  if truthy s then Some s else None.

(** [a || b] where [a] is a string or [undefined]. *)
Definition or_else (a : option jsstring) (b : jsstring) : jsstring :=
  match a with
  | Some s => if truthy s then s else b
  | None => b
  end.

(** Truthiness of a string that may be [null] or [undefined]. *)
Definition truthy_opt (o : option jsstring) : bool :=
  match o with
  | Some s => truthy s
  | None => false
  end.

(** Truthiness of an optional boolean ([undefined] is falsy). *)
Definition is_set (o : option bool) : bool :=
  match o with Some true => true | _ => false end.

(** ** Exceptions and effects *)

(** The result of running code that may throw; an exception is represented
    by its [message]. *)
Inductive Outcome (A : Type) : Type :=
  | Ok (a : A)
  | Throw (message : jsstring).
Arguments Ok {A} a.
Arguments Throw {A} message.

(** Computations over a state [S] that may throw; the state reached when an
    exception is raised is kept, as in JavaScript. *)
Definition Eff (S A : Type) : Type := S -> Outcome A * S.

#[global] Instance Eff_ret {S} : MRet (Eff S) :=
  fun A (a : A) s => (Ok a, s).

#[global] Instance Eff_bind {S} : MBind (Eff S) :=
  fun A B (f : A -> Eff S B) (m : Eff S A) s =>
    match m s with
    | (Ok a, s') => f a s'
    | (Throw e, s') => (Throw e, s')
    end.

Definition throw {S A} (e : jsstring) : Eff S A := fun s => (Throw e, s).

(** [try { m } catch (error) { h error.message }]. *)
Definition try_catch {S A} (m : Eff S A) (h : jsstring -> Eff S A) : Eff S A :=
  fun s =>
    match m s with
    | (Ok a, s') => (Ok a, s')
    | (Throw e, s') => h e s'
    end.

Definition get {S} : Eff S S := fun s => (Ok s, s).
Definition modify {S} (f : S -> S) : Eff S unit := fun s => (Ok tt, f s).

(* ===================================================================== *)
(** * The CRM connector (dynamicsService), a collaborator *)
(* ===================================================================== *)

Module Connector.

(** Options of [getEntityMetadata]. *)
Record MetadataOptions : Type := {
  includeAttributes : option bool;
  includeOptionSets : option bool;
  includeAttributeTypes : option bool;
  selectEntityProperties : option (list jsstring);
  selectAttributeProperties : option (list jsstring)
}.

(** Options of [queryEntities]. *)
Record QueryOptions : Type := {
  select : option (list jsstring);
  filter : option jsstring;
  orderBy : option jsstring;
  top : option Z
}.

(** A record returned by a query: its fields and their values. *)
Definition CrmRecord : Type := list (jsstring * jsstring).

(** The raw schema documents; a field that the services read through [?.]
    or [||] may be absent. *)
Record RawOption : Type := {
  opt_Value : Z;
  opt_Label : option jsstring
}.

Record RawOptionSet : Type := {
  os_Name : jsstring;
  os_Options : option (list RawOption)
}.

Record RawAttribute : Type := {
  attr_LogicalName : jsstring;
  attr_DisplayName : option jsstring;
  attr_SchemaName : option jsstring;
  attr_AttributeType : jsstring;
  attr_Description : option jsstring;
  attr_RequiredLevel : option jsstring;
  attr_IsPrimaryId : option bool;
  attr_IsPrimaryName : option bool;
  attr_MaxLength : option Z;
  attr_MinValue : option Z;
  attr_MaxValue : option Z;
  attr_Precision : option Z;
  attr_OptionSet : option RawOptionSet
}.

Record RawRelationship : Type := {
  rel_SchemaName : jsstring;
  rel_ReferencedEntity : jsstring;
  rel_ReferencingEntity : jsstring;
  rel_Entity2LogicalName : jsstring;
  rel_ReferencingEntityNavigationPropertyName : jsstring;
  rel_ReferencedEntityNavigationPropertyName : jsstring;
  rel_Entity1NavigationPropertyName : jsstring;
  rel_ReferencingAttribute : option jsstring
}.

Record RawEntity : Type := {
  LogicalName : jsstring;
  DisplayName : option jsstring;
  SchemaName : option jsstring;
  DisplayCollectionName : option jsstring;
  EntitySetName : option jsstring;
  Description : option jsstring;
  PrimaryIdAttribute : option jsstring;
  PrimaryNameAttribute : option jsstring;
  IsCustomEntity : option bool;
  Attributes : option (list RawAttribute);
  ManyToOneRelationships : option (list RawRelationship);
  OneToManyRelationships : option (list RawRelationship);
  ManyToManyRelationships : option (list RawRelationship)
}.

(** The connector as the services see it: each operation either answers or
    throws.  [getEntityMetadata] may answer with no document. *)
Record t : Type := {
  getEntityMetadata : jsstring -> MetadataOptions -> Outcome (option RawEntity);
  queryEntities : jsstring -> QueryOptions -> Outcome (list CrmRecord)
}.

(** The log of the operations invoked on the connector. *)
Inductive Call : Type :=
  | CallGetEntityMetadata (entity : jsstring) (options : MetadataOptions)
  | CallQueryEntities (entity : jsstring) (options : QueryOptions).

End Connector.

(* ===================================================================== *)
(** * The request of dynamicsService.queryEntities (dynamicsService.ts) *)
(* ===================================================================== *)

Module Dynamics.

(** The [options] of [queryEntities]. *)
Record QueryOptions : Type := {
  select : option (list jsstring);
  filter : option jsstring;
  orderBy : option jsstring;
  top : option Z;
  expand : option (list jsstring)
}.

(** [/[?&]$/] *)
Definition re_trailing : regex :=
  RSeq (RChar (fun c => (c =? 63)%N || (c =? 38)%N)) REol.

(** The path that [queryEntities] asks the service for, outside the
    simulation mode: the text handed to [client.get]. *)
Definition queryPath (entityName : jsstring) (options : QueryOptions)
    : jsstring :=
  let query := entityName ++ js "?" in
  let query :=
    match select options with
    | Some ((_ :: _) as fields) =>
        query ++ js "$select=" ++ join (js ",") fields ++ js "&"
    | _ => query
    end in
  let query :=
    match filter options with
    | Some f =>
        if truthy f then query ++ js "$filter=" ++ f ++ js "&" else query
    | None => query
    end in
  let query :=
    match orderBy options with
    | Some o =>
        if truthy o then query ++ js "$orderby=" ++ o ++ js "&" else query
    | None => query
    end in
  let query :=
    match top options with
    | Some n =>
        if (n =? 0)%Z then query
        else query ++ js "$top=" ++ number_to_string n ++ js "&"
    | None => query
    end in
  let query :=
    match expand options with
    | Some ((_ :: _) as links) =>
        query ++ js "$expand=" ++ join (js ",") links ++ js "&"
    | _ => query
    end in
  replace_first re_trailing [] query.

End Dynamics.

(* ===================================================================== *)
(** * MetadataExplorerService (metadataExplorerService.ts) *)
(* ===================================================================== *)

Module MetadataExplorer.

Module MetadataRelationship.
Record t : Type := {
  name : jsstring;
  type : jsstring;
  referencedEntity : jsstring;
  navigationProperty : jsstring;
  lookupField : option jsstring
}.
End MetadataRelationship.

Module OptionSet.
Record t : Type := {
  name : jsstring;
  options : list (Z * jsstring)
}.
End OptionSet.

Module MetadataAttribute.
Record t : Type := {
  name : jsstring;
  displayName : jsstring;
  type : jsstring;
  description : option jsstring;
  required : bool;
  isPrimaryId : option bool;
  isPrimaryName : option bool;
  maxLength : option Z;
  precision : option Z;
  minValue : option Z;
  maxValue : option Z;
  optionSet : option OptionSet.t
}.
End MetadataAttribute.

Module MetadataEntity.
Record t : Type := {
  name : jsstring;
  displayName : jsstring;
  displayCollectionName : jsstring;
  description : option jsstring;
  primaryIdField : option jsstring;
  primaryNameField : option jsstring;
  isCustomEntity : bool;
  attributes : list MetadataAttribute.t;
  relationships : list MetadataRelationship.t
}.
End MetadataEntity.

(** An element of the arrays that [listEntities] and [searchEntities]
    return. *)
Module EntitySummary.
Record t : Type := {
  name : jsstring;
  displayName : jsstring;
  displayCollectionName : jsstring
}.
End EntitySummary.

Record MetadataCache : Type := {
  entities : gmap jsstring MetadataEntity.t;
  lastUpdated : Z
}.

(** The [options] argument of [getEntityDetails] and [loadEntityDetails]. *)
Record Options : Type := {
  includeAttributes : option bool;
  includeOptionSets : option bool;
  includeAttributeTypes : option bool;
  selectEntityProperties : option (list jsstring);
  selectAttributeProperties : option (list jsstring);
  refresh : option bool
}.

(** The service: its cache, and the log of connector calls. *)
Record State : Type := {
  cache : MetadataCache;
  calls : list Connector.Call
}.

(** [new MetadataExplorerService()]: an empty cache dated [new Date(0)]. *)
Definition initial : State :=
  {| cache := {| entities := ∅; lastUpdated := 0 |}; calls := [] |}.

Definition cacheExpirationMs : Z := 3600000.

Definition commonMappings : list (jsstring * jsstring) :=
  [ (js "account", js "account");
    (js "accounts", js "account");
    (js "contact", js "contact");
    (js "contacts", js "contact");
    (js "opportunity", js "opportunity");
    (js "opportunities", js "opportunity");
    (js "lead", js "lead");
    (js "leads", js "lead");
    (js "case", js "incident");
    (js "cases", js "incident");
    (js "incident", js "incident");
    (js "incidents", js "incident");
    (js "activity", js "activity");
    (js "activities", js "activity") ].

(** [normalizeEntityName]: [singularName] is computed and not used. *)
Definition normalizeEntityName (entityName : jsstring) : jsstring :=
  let singularName :=
    if endsWith entityName (js "s") then slice_0_m1 entityName
    else entityName in
  match tbl_get commonMappings (toLowerCase entityName) with
  | Some target =>
      if truthy target then target else toLowerCase entityName
  | None => toLowerCase entityName
  end.

Definition isRequiredLevel (v : option jsstring) : bool :=
  match v with
  | Some l =>
      Js.eqb l (js "ApplicationRequired") || Js.eqb l (js "SystemRequired")
  | None => false
  end.

Definition hasOptionSetType (ty : jsstring) : bool :=
  Js.eqb ty (js "Picklist") || Js.eqb ty (js "Status")
  || Js.eqb ty (js "State") || Js.eqb ty (js "Boolean").

Definition mapOption (opt : Connector.RawOption) : Z * jsstring :=
  (Connector.opt_Value opt,
   or_else (Connector.opt_Label opt)
     (js "Opção " ++ number_to_string (Connector.opt_Value opt))).

(** The callback of [entityMetadata.Attributes.map] in [loadEntityDetails]. *)
Definition mapAttribute (options : Options) (attr : Connector.RawAttribute)
    : MetadataAttribute.t :=
  {| MetadataAttribute.name := Connector.attr_LogicalName attr;
     MetadataAttribute.displayName :=
       or_else (Connector.attr_DisplayName attr)
         (or_else (Connector.attr_SchemaName attr)
            (Connector.attr_LogicalName attr));
     MetadataAttribute.type := Connector.attr_AttributeType attr;
     MetadataAttribute.description := Connector.attr_Description attr;
     MetadataAttribute.required :=
       isRequiredLevel (Connector.attr_RequiredLevel attr);
     MetadataAttribute.isPrimaryId := Connector.attr_IsPrimaryId attr;
     MetadataAttribute.isPrimaryName := Connector.attr_IsPrimaryName attr;
     MetadataAttribute.maxLength := Connector.attr_MaxLength attr;
     MetadataAttribute.precision := Connector.attr_Precision attr;
     MetadataAttribute.minValue := Connector.attr_MinValue attr;
     MetadataAttribute.maxValue := Connector.attr_MaxValue attr;
     MetadataAttribute.optionSet :=
       match Connector.attr_OptionSet attr with
       | Some os =>
           if is_set (includeOptionSets options)
              && hasOptionSetType (Connector.attr_AttributeType attr)
           then
             Some {| OptionSet.name := Connector.os_Name os;
                     OptionSet.options :=
                       match Connector.os_Options os with
                       | Some l => map mapOption l
                       | None => []
                       end |}
           else None
       | None => None
       end |}.

Inductive RelationshipKind : Type := ManyToOne | OneToMany | ManyToMany.

Definition kind_name (k : RelationshipKind) : jsstring :=
  match k with
  | ManyToOne => js "ManyToOne"
  | OneToMany => js "OneToMany"
  | ManyToMany => js "ManyToMany"
  end.

Definition mapRelationship (k : RelationshipKind)
    (rel : Connector.RawRelationship) : MetadataRelationship.t :=
  {| MetadataRelationship.name := Connector.rel_SchemaName rel;
     MetadataRelationship.type := kind_name k;
     MetadataRelationship.referencedEntity :=
       match k with
       | ManyToOne => Connector.rel_ReferencedEntity rel
       | OneToMany => Connector.rel_ReferencingEntity rel
       | ManyToMany => Connector.rel_Entity2LogicalName rel
       end;
     MetadataRelationship.navigationProperty :=
       match k with
       | ManyToOne => Connector.rel_ReferencingEntityNavigationPropertyName rel
       | OneToMany => Connector.rel_ReferencedEntityNavigationPropertyName rel
       | ManyToMany => Connector.rel_Entity1NavigationPropertyName rel
       end;
     MetadataRelationship.lookupField :=
       match k with
       | ManyToOne => Connector.rel_ReferencingAttribute rel
       | _ => None
       end |}.

Definition mapRelationships (k : RelationshipKind)
    (l : option (list Connector.RawRelationship))
    : list MetadataRelationship.t :=
  match l with
  | Some rels => map (mapRelationship k) rels
  | None => []
  end.

(** The cache entry that [loadEntityDetails] writes for a document. *)
Definition entityOfMetadata (options : Options) (md : Connector.RawEntity)
    : MetadataEntity.t :=
  {| MetadataEntity.name := Connector.LogicalName md;
     MetadataEntity.displayName :=
       or_else (Connector.DisplayName md)
         (or_else (Connector.SchemaName md) (Connector.LogicalName md));
     MetadataEntity.displayCollectionName :=
       or_else (Connector.DisplayCollectionName md)
         (or_else (Connector.EntitySetName md) (Connector.LogicalName md));
     MetadataEntity.description := Connector.Description md;
     MetadataEntity.primaryIdField := Connector.PrimaryIdAttribute md;
     MetadataEntity.primaryNameField := Connector.PrimaryNameAttribute md;
     MetadataEntity.isCustomEntity :=
       match Connector.IsCustomEntity md with
       | None => false
       | Some v => v
       end;
     MetadataEntity.attributes :=
       match Connector.Attributes md with
       | Some attrs =>
           if is_set (includeAttributes options)
           then map (mapAttribute options) attrs
           else []
       | None => []
       end;
     MetadataEntity.relationships :=
       mapRelationships ManyToOne (Connector.ManyToOneRelationships md)
       ++ mapRelationships OneToMany (Connector.OneToManyRelationships md)
       ++ mapRelationships ManyToMany (Connector.ManyToManyRelationships md)
  |}.

Section Service.
(** The connector, and the time that [new Date()] reads during the
    operation. *)
Variable conn : Connector.t.
Variable now : Z.

Definition isCacheExpired (c : MetadataCache) : bool :=
  (now - lastUpdated c >? cacheExpirationMs)%Z.

(** [await dynamicsService.getEntityMetadata(entity, options)]. *)
Definition call_getEntityMetadata (entity : jsstring)
    (o : Connector.MetadataOptions) : Eff State (option Connector.RawEntity) :=
  fun st =>
    (Connector.getEntityMetadata conn entity o,
     {| cache := cache st;
        calls := calls st ++ [Connector.CallGetEntityMetadata entity o] |}).

Definition store_entity (entityName : jsstring) (e : MetadataEntity.t)
    (st : State) : State :=
  {| cache := {| entities := <[entityName := e]> (entities (cache st));
                 lastUpdated := now |};
     calls := calls st |}.

(** The options that [loadEntityDetails] passes to the connector;
    [includeAttributes] is [options.includeAttributes ?? true]. *)
Definition metadataRequest (options : Options) : Connector.MetadataOptions :=
  {| Connector.includeAttributes :=
       Some (match includeAttributes options with
             | Some b => b
             | None => true
             end);
     Connector.includeOptionSets := includeOptionSets options;
     Connector.includeAttributeTypes := includeAttributeTypes options;
     Connector.selectEntityProperties := selectEntityProperties options;
     Connector.selectAttributeProperties :=
       selectAttributeProperties options |}.

Definition loadEntityDetails (entityName : jsstring) (options : Options)
    : Eff State unit :=
  try_catch
    (entityMetadata ←
       call_getEntityMetadata entityName (metadataRequest options);
     match entityMetadata with
     | None =>
         throw (js "Metadados para '" ++ entityName
                ++ js "' não retornados pelo dynamicsService.")
     | Some md =>
         modify (store_entity entityName (entityOfMetadata options md))
     end)
    (fun message =>
       throw (js "Falha ao carregar detalhes da entidade " ++ entityName
              ++ js ": " ++ message)).

(** The condition under which [getEntityDetails] loads the entity. *)
Definition needsLoad (normalizedEntityName : jsstring) (options : Options)
    (c : MetadataCache) : bool :=
  is_set (refresh options)
  || isCacheExpired c
  || match entities c !! normalizedEntityName with
     | None => true
     | Some _ => false
     end
  || (is_set (includeAttributes options)
      && match entities c !! normalizedEntityName with
         | Some e =>
             Nat.eqb (length (MetadataEntity.attributes e)) 0
         | None => true
         end)
  || (is_set (includeOptionSets options)
      && match entities c !! normalizedEntityName with
         | Some e =>
             negb (existsb
                     (fun a =>
                        match MetadataAttribute.optionSet a with
                        | Some _ => true
                        | None => false
                        end)
                     (MetadataEntity.attributes e))
         | None => true
         end).

Definition getEntityDetails (entityName : jsstring) (options : Options)
    : Eff State MetadataEntity.t :=
  try_catch
    (let normalizedEntityName := normalizeEntityName entityName in
     st ← get;
     (if needsLoad normalizedEntityName options (cache st)
      then loadEntityDetails normalizedEntityName options
      else mret tt);;
     st' ← get;
     match entities (cache st') !! normalizedEntityName with
     | None =>
         throw (js "Entidade '" ++ entityName ++ js "' (normalizada: "
                ++ normalizedEntityName
                ++ js ") não encontrada no cache após tentativa de carregamento.")
     | Some entity => mret entity
     end)
    (fun message =>
       throw (js "Falha ao obter detalhes da entidade " ++ entityName
              ++ js ": " ++ message)).

(** [{ refresh: refresh }] *)
Definition refreshOption (refresh : bool) : Options :=
  {| includeAttributes := None;
     includeOptionSets := None;
     includeAttributeTypes := None;
     selectEntityProperties := None;
     selectAttributeProperties := None;
     refresh := Some refresh |}.

Definition getEntityAttributes (entityName : jsstring) (refresh : bool)
    : Eff State (list MetadataAttribute.t) :=
  entity ← getEntityDetails entityName (refreshOption refresh);
  mret (MetadataEntity.attributes entity).

Definition getEntityRelationships (entityName : jsstring) (refresh : bool)
    : Eff State (list MetadataRelationship.t) :=
  entity ← getEntityDetails entityName (refreshOption refresh);
  mret (MetadataEntity.relationships entity).

(** The test of [searchAttributes] on one attribute. *)
Definition attributeMentions (lowerSearchText : jsstring)
    (attr : MetadataAttribute.t) : bool :=
  includes_text (toLowerCase (MetadataAttribute.name attr)) lowerSearchText
  || includes_text (toLowerCase (MetadataAttribute.displayName attr))
       lowerSearchText
  || match MetadataAttribute.description attr with
     | Some d => truthy d && includes_text (toLowerCase d) lowerSearchText
     | None => false
     end.

Definition searchAttributes (entityName searchText : jsstring)
    : Eff State (list MetadataAttribute.t) :=
  attributes ← getEntityAttributes entityName false;
  let lowerSearchText := toLowerCase searchText in
  mret (List.filter (attributeMentions lowerSearchText) attributes).
End Service.

Section AttributeDetails.
(** [dynamicsService.getAttributeMetadata(entity, attribute,
    { includeOptionSets, selectAttributeProperties })]: the connector
    answers with the document of the attribute or with nothing, or throws. *)
Variable getAttributeMetadata :
  jsstring -> jsstring -> option bool -> option (list jsstring) ->
  Outcome (option Connector.RawAttribute).

(** [getAttributeDetails]; of its [options] it reads [includeOptionSets] and
    [selectAttributeProperties].  It works on no state of the service. *)
Definition getAttributeDetails (entityLogicalName attributeLogicalName : jsstring)
    (options : Options) : Outcome MetadataAttribute.t :=
  let attempt : Outcome MetadataAttribute.t :=
    match getAttributeMetadata entityLogicalName attributeLogicalName
            (includeOptionSets options) (selectAttributeProperties options)
    with
    | Throw message => Throw message
    | Ok None =>
        Throw (js "Atributo '" ++ attributeLogicalName
               ++ js "' não encontrado na entidade '" ++ entityLogicalName
               ++ js "' via dynamicsService.")
    | Ok (Some attrMetadata) =>
        Ok {| MetadataAttribute.name := Connector.attr_LogicalName attrMetadata;
              MetadataAttribute.displayName :=
                or_else (Connector.attr_DisplayName attrMetadata)
                  (or_else (Connector.attr_SchemaName attrMetadata)
                     (Connector.attr_LogicalName attrMetadata));
              MetadataAttribute.type :=
                Connector.attr_AttributeType attrMetadata;
              MetadataAttribute.description :=
                Connector.attr_Description attrMetadata;
              MetadataAttribute.required :=
                match Connector.attr_RequiredLevel attrMetadata with
                | Some level =>
                    Js.eqb level (js "ApplicationRequired")
                    || Js.eqb level (js "SystemRequired")
                | None => false
                end;
              MetadataAttribute.isPrimaryId :=
                Connector.attr_IsPrimaryId attrMetadata;
              MetadataAttribute.isPrimaryName :=
                Connector.attr_IsPrimaryName attrMetadata;
              MetadataAttribute.maxLength :=
                Connector.attr_MaxLength attrMetadata;
              MetadataAttribute.precision :=
                Connector.attr_Precision attrMetadata;
              MetadataAttribute.minValue :=
                Connector.attr_MinValue attrMetadata;
              MetadataAttribute.maxValue :=
                Connector.attr_MaxValue attrMetadata;
              MetadataAttribute.optionSet :=
                match includeOptionSets options,
                      Connector.attr_OptionSet attrMetadata with
                | Some true, Some optionSet =>
                    let type := Connector.attr_AttributeType attrMetadata in
                    if Js.eqb type (js "Picklist") || Js.eqb type (js "Status")
                       || Js.eqb type (js "State") || Js.eqb type (js "Boolean")
                    then
                      Some {| OptionSet.name := Connector.os_Name optionSet;
                              OptionSet.options :=
                                match Connector.os_Options optionSet with
                                | Some opts =>
                                    map (fun opt =>
                                           (Connector.opt_Value opt,
                                            or_else (Connector.opt_Label opt)
                                              (js "Opção "
                                               ++ number_to_string
                                                    (Connector.opt_Value opt))))
                                      opts
                                | None => []
                                end |}
                    else None
                | _, _ => None
                end |}
    end in
  match attempt with
  | Ok attribute => Ok attribute
  | Throw message =>
      Throw (js "Falha ao obter detalhes do atributo " ++ entityLogicalName
             ++ js "." ++ attributeLogicalName ++ js ": " ++ message)
  end.
End AttributeDetails.

Section Listing.
(** The time that [new Date()] reads during the operation, and
    [dynamicsService.queryEntities('EntityDefinitions', options)]: the
    records of that entity set are schema documents. *)
Variable now : Z.
Variable entityDefinitions :
  Connector.QueryOptions -> Outcome (list Connector.RawEntity).

Definition definitionsRequest : Connector.QueryOptions :=
  {| Connector.select :=
       Some (map js
               [ "LogicalName"; "DisplayName"; "DisplayCollectionName";
                 "Description"; "PrimaryIdAttribute"; "PrimaryNameAttribute";
                 "IsCustomEntity" ]%string);
     Connector.filter := None;
     Connector.orderBy := None;
     Connector.top := Some 500%Z |}.

Definition call_entityDefinitions : Eff State (list Connector.RawEntity) :=
  fun st =>
    (entityDefinitions definitionsRequest,
     {| cache := cache st;
        calls := calls st
                 ++ [Connector.CallQueryEntities (js "EntityDefinitions")
                       definitionsRequest] |}).

(** The entry that [refreshEntityCache] writes for a record of the list;
    an absent [IsCustomEntity] is kept as [false], its truth value. *)
Definition basicEntry (entity : Connector.RawEntity) : MetadataEntity.t :=
  {| MetadataEntity.name := Connector.LogicalName entity;
     MetadataEntity.displayName :=
       or_else (Connector.DisplayName entity) (Connector.LogicalName entity);
     MetadataEntity.displayCollectionName :=
       or_else (Connector.DisplayCollectionName entity)
         (Connector.LogicalName entity);
     MetadataEntity.description := Connector.Description entity;
     MetadataEntity.primaryIdField := Connector.PrimaryIdAttribute entity;
     MetadataEntity.primaryNameField := Connector.PrimaryNameAttribute entity;
     MetadataEntity.isCustomEntity := is_set (Connector.IsCustomEntity entity);
     MetadataEntity.attributes := [];
     MetadataEntity.relationships := [] |}.

(** The [for] loop of [refreshEntityCache] over the records, from the empty
    object. *)
Definition basicEntries (result : list Connector.RawEntity)
    : gmap jsstring MetadataEntity.t :=
  fold_left
    (fun entities entity =>
       <[Connector.LogicalName entity := basicEntry entity]> entities)
    result ∅.

Definition refreshEntityCache : Eff State unit :=
  try_catch
    (result ← call_entityDefinitions;
     modify (fun st =>
               {| cache := {| entities := basicEntries result;
                              lastUpdated := now |};
                  calls := calls st |}))
    (fun message =>
       throw (js "Falha ao atualizar cache de entidades: " ++ message)).

Definition summary (entity : MetadataEntity.t) : EntitySummary.t :=
  {| EntitySummary.name := MetadataEntity.name entity;
     EntitySummary.displayName := MetadataEntity.displayName entity;
     EntitySummary.displayCollectionName :=
       MetadataEntity.displayCollectionName entity |}.

(** [listEntities].  The cache of the model keeps its entries by key and
    not in the order in which they were written, so the array of
    [Object.values] is listed here in the order of the keys. *)
Definition listEntities (refresh : bool) : Eff State (list EntitySummary.t) :=
  try_catch
    (st ← get;
     (if refresh || isCacheExpired now (cache st)
      then refreshEntityCache
      else mret tt);;
     st' ← get;
     mret (map (fun entry => summary entry.2)
             (map_to_list (entities (cache st')))))
    (fun message => throw (js "Falha ao listar entidades: " ++ message)).

(** The test of [searchEntities] on one element. *)
Definition entityMentions (lowerSearchText : jsstring)
    (entity : EntitySummary.t) : bool :=
  includes_text (toLowerCase (EntitySummary.name entity)) lowerSearchText
  || includes_text (toLowerCase (EntitySummary.displayName entity))
       lowerSearchText
  || includes_text (toLowerCase (EntitySummary.displayCollectionName entity))
       lowerSearchText.

Definition searchEntities (searchText : jsstring)
    : Eff State (list EntitySummary.t) :=
  entities ← listEntities false;
  let lowerSearchText := toLowerCase searchText in
  mret (List.filter (entityMentions lowerSearchText) entities).
End Listing.

End MetadataExplorer.

(* ===================================================================== *)
(** * Filter objects *)
(* ===================================================================== *)

Module Filters.

(** A value stored in a filter object: either a bare string (the record id
    of the assistant's [get] action) or an [{operator, value}] pair. *)
Inductive FilterValue : Type :=
  | FRaw (v : jsstring)
  | FInfo (operator value : jsstring).

(** A filter object, as the list [Object.entries] yields. *)
Definition t : Type := list (jsstring * FilterValue).

Fixpoint all_digits (s : jsstring) : bool :=
  match s with
  | [] => true
  | c :: s' => is_digit c && all_digits s'
  end.

(** The integer that a property name denotes when it is an array index:
    a canonical decimal numeral below 2^32 - 1. *)
Definition array_index (k : jsstring) : option Z :=
  match k with
  | [] => None
  | c :: k' =>
      if all_digits k && (negb (c =? 48)%N || Nat.eqb (length k') 0)
         && (length k <=? 10)%nat
      then
        match read_digits dec_value 10 k None with
        | Some n => if (n <? 4294967295)%Z then Some n else None
        | None => None
        end
      else None
  end.

Fixpoint has_key (k : jsstring) (o : t) : bool :=
  match o with
  | [] => false
  | (k', _) :: o' => Js.eqb k k' || has_key k o'
  end.

Fixpoint replace (k : jsstring) (v : FilterValue) (o : t) : t :=
  match o with
  | [] => []
  | (k', v') :: o' =>
      if Js.eqb k k' then (k', v) :: o' else (k', v') :: replace k v o'
  end.

(** A new array-index property goes before the first property that is not
    an array index or has a larger index. *)
Fixpoint insert_index (n : Z) (k : jsstring) (v : FilterValue) (o : t) : t :=
  match o with
  | [] => [(k, v)]
  | (k', v') :: o' =>
      match array_index k' with
      | Some n' =>
          if (n' <? n)%Z then (k', v') :: insert_index n k v o'
          else (k, v) :: o
      | None => (k, v) :: o
      end
  end.

(** [o[k] = v]: an existing property keeps its place; a new one is
    enumerated after the others, array indices first and in ascending
    order.  An assignment to [__proto__] replaces the prototype and leaves
    the own properties as they are. *)
Definition set (k : jsstring) (v : FilterValue) (o : t) : t :=
  if Js.eqb k (js "__proto__") then o
  else if has_key k o then replace k v o
  else
    match array_index k with
    | Some n => insert_index n k v o
    | None => o ++ [(k, v)]
    end.

End Filters.

(* ===================================================================== *)
(** * NLQueryService (nlQueryService.ts) *)
(* ===================================================================== *)

Module NLQuery.
Import Filters.

Definition entityMappings : list (jsstring * jsstring) :=
  [ (js "conta", js "accounts"); (js "contas", js "accounts");
    (js "account", js "accounts"); (js "accounts", js "accounts");
    (js "contato", js "contacts"); (js "contatos", js "contacts");
    (js "contact", js "contacts"); (js "contacts", js "contacts");
    (js "caso", js "incidents"); (js "casos", js "incidents");
    (js "case", js "incidents"); (js "cases", js "incidents");
    (js "incidents", js "incidents");
    (js "oportunidade", js "opportunities");
    (js "oportunidades", js "opportunities");
    (js "opportunity", js "opportunities");
    (js "opportunities", js "opportunities");
    (js "lead", js "leads"); (js "leads", js "leads");
    (js "atividade", js "activities"); (js "atividades", js "activities");
    (js "activity", js "activities"); (js "activities", js "activities");
    (js "tarefa", js "tasks"); (js "tarefas", js "tasks");
    (js "task", js "tasks"); (js "tasks", js "tasks");
    (js "email", js "emails"); (js "emails", js "emails");
    (js "reunião", js "appointments"); (js "reuniões", js "appointments");
    (js "appointment", js "appointments");
    (js "appointments", js "appointments");
    (js "telefone", js "phonecalls"); (js "chamada", js "phonecalls");
    (js "chamadas", js "phonecalls"); (js "phonecall", js "phonecalls");
    (js "phonecalls", js "phonecalls") ].

Definition actionMappings : list (jsstring * jsstring) :=
  [ (js "mostrar", js "list"); (js "listar", js "list");
    (js "exibir", js "list"); (js "buscar", js "list");
    (js "encontrar", js "list"); (js "pesquisar", js "list");
    (js "procurar", js "list");
    (js "obter", js "get"); (js "pegar", js "get");
    (js "detalhar", js "get"); (js "detalhes", js "get");
    (js "criar", js "create"); (js "adicionar", js "create");
    (js "novo", js "create"); (js "nova", js "create");
    (js "atualizar", js "update"); (js "modificar", js "update");
    (js "editar", js "update"); (js "alterar", js "update");
    (js "deletar", js "delete"); (js "excluir", js "delete");
    (js "remover", js "delete"); (js "apagar", js "delete") ].

Definition fieldMappings : list (jsstring * list (jsstring * jsstring)) :=
  [ (js "accounts",
     [ (js "nome", js "name"); (js "email", js "emailaddress1");
       (js "telefone", js "telephone1"); (js "site", js "websiteurl");
       (js "website", js "websiteurl");
       (js "endereço", js "address1_composite");
       (js "cidade", js "address1_city");
       (js "estado", js "address1_stateorprovince");
       (js "país", js "address1_country");
       (js "cep", js "address1_postalcode"); (js "receita", js "revenue");
       (js "funcionários", js "numberofemployees");
       (js "setor", js "industrycode");
       (js "tipo", js "accountcategorycode");
       (js "dono", js "_ownerid_value");
       (js "proprietário", js "_ownerid_value");
       (js "criado", js "createdon"); (js "modificado", js "modifiedon") ]);
    (js "contacts",
     [ (js "nome", js "firstname"); (js "sobrenome", js "lastname");
       (js "email", js "emailaddress1"); (js "telefone", js "telephone1");
       (js "celular", js "mobilephone"); (js "cargo", js "jobtitle");
       (js "departamento", js "department");
       (js "conta", js "_parentcustomerid_value");
       (js "empresa", js "_parentcustomerid_value");
       (js "endereço", js "address1_composite");
       (js "cidade", js "address1_city");
       (js "estado", js "address1_stateorprovince");
       (js "país", js "address1_country");
       (js "cep", js "address1_postalcode");
       (js "dono", js "_ownerid_value");
       (js "proprietário", js "_ownerid_value");
       (js "criado", js "createdon"); (js "modificado", js "modifiedon") ]);
    (js "incidents",
     [ (js "título", js "title"); (js "assunto", js "title");
       (js "descrição", js "description");
       (js "cliente", js "_customerid_value");
       (js "status", js "statuscode"); (js "prioridade", js "prioritycode");
       (js "origem", js "caseorigincode"); (js "tipo", js "casetypecode");
       (js "dono", js "_ownerid_value");
       (js "proprietário", js "_ownerid_value");
       (js "criado", js "createdon"); (js "modificado", js "modifiedon");
       (js "resolvido", js "resolvedon") ]) ].

Definition operatorMappings : list (jsstring * jsstring) :=
  [ (js "igual", js "eq"); (js "igual a", js "eq");
    (js "=", js "eq"); (js "==", js "eq");
    (js "diferente", js "ne"); (js "diferente de", js "ne");
    (js "!=", js "ne"); (js "<>", js "ne");
    (js "maior", js "gt"); (js "maior que", js "gt"); (js ">", js "gt");
    (js "menor", js "lt"); (js "menor que", js "lt"); (js "<", js "lt");
    (js "maior ou igual", js "ge"); (js "maior ou igual a", js "ge");
    (js ">=", js "ge");
    (js "menor ou igual", js "le"); (js "menor ou igual a", js "le");
    (js "<=", js "le");
    (js "contém", js "contains"); (js "contem", js "contains");
    (js "inicia com", js "startswith"); (js "começa com", js "startswith");
    (js "termina com", js "endswith") ].

(** Base letter of a Latin-1 letter with a canonical decomposition. *)
Definition base_letter (c : N) : N :=
  if in_range 192 197 c then 65
  else if (c =? 199)%N then 67
  else if in_range 200 203 c then 69
  else if in_range 204 207 c then 73
  else if (c =? 209)%N then 78
  else if in_range 210 214 c then 79
  else if in_range 217 220 c then 85
  else if (c =? 221)%N then 89
  else if in_range 224 229 c then 97
  else if (c =? 231)%N then 99
  else if in_range 232 235 c then 101
  else if in_range 236 239 c then 105
  else if (c =? 241)%N then 110
  else if in_range 242 246 c then 111
  else if in_range 249 252 c then 117
  else if (c =? 253)%N || (c =? 255)%N then 121
  else c.

(** [text.normalize('NFD').replace(/[\u0300-\u036f]/g, '')] on one code
    unit: the combining marks U+0300..U+036F disappear, those of a
    decomposed letter included. *)
Definition strip_diacritics (c : N) : jsstring :=
  if in_range 768 879 c then [] else [base_letter c].

Definition normalizeText (text : jsstring) : jsstring :=
  toLowerCase (concat (map strip_diacritics text)).

Record ParseResult : Type := {
  entity : option jsstring;
  action : option jsstring;
  filters : Filters.t;
  fields : option (list jsstring);
  limit : option Z
}.

Definition set_entity (v : jsstring) (r : ParseResult) : ParseResult :=
  {| entity := Some v; action := action r; filters := filters r;
     fields := fields r; limit := limit r |}.
Definition set_action (v : jsstring) (r : ParseResult) : ParseResult :=
  {| entity := entity r; action := Some v; filters := filters r;
     fields := fields r; limit := limit r |}.
Definition set_filter (k : jsstring) (v : FilterValue) (r : ParseResult)
    : ParseResult :=
  {| entity := entity r; action := action r;
     filters := Filters.set k v (filters r);
     fields := fields r; limit := limit r |}.
Definition set_fields (v : list jsstring) (r : ParseResult) : ParseResult :=
  {| entity := entity r; action := action r; filters := filters r;
     fields := Some v; limit := limit r |}.
Definition set_limit (v : Z) (r : ParseResult) : ParseResult :=
  {| entity := entity r; action := action r; filters := filters r;
     fields := fields r; limit := Some v |}.

Definition stopWords : list jsstring :=
  map js
    [ "o"; "a"; "os"; "as"; "um"; "uma"; "uns"; "umas"; "de"; "do"; "da";
      "dos"; "das"; "no"; "na"; "nos"; "nas"; "ao"; "aos"; "à"; "às";
      "pelo"; "pela"; "pelos"; "pelas"; "com"; "para"; "por"; "em";
      "sobre"; "sob"; "entre"; "que"; "quem"; "qual"; "quais"; "quando";
      "onde"; "como"; "e"; "ou"; "mas"; "porem"; "todavia"; "entretanto";
      "contudo" ]%string.

Definition limitWords : list jsstring :=
  map js ["top"; "limite"; "limitar"; "limitado"; "maximo"; "max"]%string.

(** [/\s+/] *)
Definition re_spaces : regex := rplus is_space.

(** [/\s*,\s*/] *)
Definition re_comma : regex :=
  rseq [RStar is_space; RChar (fun c => (c =? 44)%N); RStar is_space].

(** [/campos\s+([^.]+)/i] *)
Definition re_campos : regex :=
  rseq [rword_i "campos"; rplus is_space;
        RGroup 1 (rplus (fun c => negb (c =? 46)%N))].

(** [query.split(/\s+/).filter(word => word && !stopWords.includes(word))] *)
Definition tokenize (query : jsstring) : list jsstring :=
  List.filter (fun word => truthy word && negb (includes stopWords word))
    (split re_spaces query).

(** The [for] loop of [parseQuery].  The argument [words] is the part of the
    array from index [i] on: one token is left behind at each turn ([i++]),
    one more after a limit ([i++]), two more after a filter ([i += 2]).
    [i < words.length - 1] says that a token follows, [i < words.length - 2]
    that two do. *)
Fixpoint scan (words : list jsstring) (result : ParseResult) : ParseResult :=
  match words with
  | [] => result
  | word :: rest =>
      match (if truthy_opt (action result) then None
             else tbl_truthy actionMappings word) with
      | Some a => scan rest (set_action a result)
      | None =>
      match (if truthy_opt (entity result) then None
             else tbl_truthy entityMappings word) with
      | Some e => scan rest (set_entity e result)
      | None =>
          let filter_rule :=
            match rest with
            | potentialOperator :: potentialValue :: rest2 =>
                match tbl_truthy operatorMappings potentialOperator with
                | Some op =>
                    scan rest2
                      (set_filter word (FInfo op potentialValue) result)
                | None => scan rest result
                end
            | _ => scan rest result
            end in
          match rest with
          | nextWord :: rest1 =>
              if includes limitWords word then
                match parseInt nextWord with
                | Some limitValue =>
                    if (limitValue >? 0)%Z
                    then scan rest1 (set_limit limitValue result)
                    else filter_rule
                | None => filter_rule
                end
              else filter_rule
          | [] => filter_rule
          end
      end
      end
  end.

Definition emptyResult : ParseResult :=
  {| entity := None; action := None; filters := []; fields := None;
     limit := None |}.

Definition parseQuery (query : jsstring) : ParseResult :=
  let result := scan (tokenize query) emptyResult in
  let result :=
    if truthy_opt (action result) then result
    else set_action (js "list") result in
  match regex_match re_campos query with
  | Some fieldMatches =>
      if truthy (capture 1 fieldMatches)
      then set_fields (split re_comma (capture 1 fieldMatches)) result
      else result
  | None => result
  end.

(** [mapFieldName].  The entity is a value of [entityMappings] (or the
    coercion of an inherited member), never an inherited name, so that
    [this.fieldMappings[entity]] reads an own property or nothing. *)
Definition mapFieldName (entity field : jsstring) : jsstring :=
  match own_get fieldMappings entity with
  | Some t =>
      match tbl_truthy t field with
      | Some f => f
      | None => field
      end
  | None => field
  end.

(** [mapFields] *)
Definition mapFields (entity : jsstring) (fields : option (list jsstring))
    : option (list jsstring) :=
  match fields with
  | None | Some [] => None
  | Some l => Some (map (fun field => mapFieldName entity (trim field)) l)
  end.

Definition simpleOperators : list jsstring :=
  map js ["eq"; "ne"; "gt"; "lt"; "ge"; "le"]%string.
Definition stringOperators : list jsstring :=
  map js ["contains"; "startswith"; "endswith"]%string.

(** The [for] loop of [buildODataFilter] over [Object.entries(filters)];
    [filterParts] is the array built so far.  An entry is pushed or, for an
    operator that is not supported, passed over ([continue]).  Destructuring
    a bare string gives [undefined] for [operator]. *)
Fixpoint filterLoop (entity : jsstring) (entries : Filters.t)
    (filterParts : list jsstring) : list jsstring :=
  match entries with
  | [] => filterParts
  | (field, filterInfo) :: rest =>
      match filterInfo with
      | FInfo operator value =>
          let mappedField := mapFieldName entity field in
          if includes simpleOperators operator then
            filterLoop entity rest
              (filterParts
               ++ [mappedField ++ js " " ++ operator ++ js " '" ++ value
                   ++ js "'"])
          else if includes stringOperators operator then
            filterLoop entity rest
              (filterParts
               ++ [operator ++ js "(" ++ mappedField ++ js ", '" ++ value
                   ++ js "')"])
          else filterLoop entity rest filterParts
      | FRaw _ => filterLoop entity rest filterParts
      end
  end.

Definition buildODataFilter (entity : jsstring) (filters : Filters.t)
    : jsstring :=
  match filters with
  | [] => []
  | _ => join (js " and ") (filterLoop entity filters [])
  end.

(** The object that [processQuery] resolves to. *)
Inductive Response : Type :=
  | Failure (message query : jsstring)
  | ListResult (entity : jsstring) (count : nat)
      (results : list Connector.CrmRecord) (filter : jsstring)
      (fields : option (list jsstring))
  | GetNotFound (entity message filter : jsstring)
  | GetResult (entity : jsstring) (result : Connector.CrmRecord)
      (filter : jsstring).

(** The [success] property of a response. *)
Definition success (r : Response) : bool :=
  match r with
  | Failure _ _ | GetNotFound _ _ _ => false
  | ListResult _ _ _ _ _ | GetResult _ _ _ => true
  end.

(** The [message] property of a response, when it has one. *)
Definition message (r : Response) : option jsstring :=
  match r with
  | Failure m _ | GetNotFound _ m _ => Some m
  | ListResult _ _ _ _ _ | GetResult _ _ _ => None
  end.

Section Service.
Variable conn : Connector.t.

(** The state of the service is the log of connector calls. *)
Definition call_queryEntities (entity : jsstring)
    (o : Connector.QueryOptions)
    : Eff (list Connector.Call) (list Connector.CrmRecord) :=
  fun log =>
    (Connector.queryEntities conn entity o,
     log ++ [Connector.CallQueryEntities entity o]).

Definition executeListQuery (entity : jsstring) (filters : Filters.t)
    (fields : option (list jsstring)) (limit : option Z)
    : Eff (list Connector.Call) Response :=
  let odataFilter := buildODataFilter entity filters in
  let selectFields := mapFields entity fields in
  results ←
    call_queryEntities entity
      {| Connector.filter := truthy_or_undefined odataFilter;
         Connector.select := selectFields;
         Connector.top :=
           Some (match limit with
                 | Some l => if (l =? 0)%Z then 50%Z else l
                 | None => 50%Z
                 end);
         Connector.orderBy := Some (js "createdon desc") |};
  mret (ListResult entity (length results) results odataFilter selectFields).

Definition executeGetQuery (entity : jsstring) (filters : Filters.t)
    : Eff (list Connector.Call) Response :=
  match filters with
  | [] =>
      throw (js "Para obter detalhes de um registro, é necessário especificar um ID ou um filtro único.")
  | _ =>
      let odataFilter := buildODataFilter entity filters in
      results ←
        call_queryEntities entity
          {| Connector.filter := Some odataFilter;
             Connector.select := None;
             Connector.top := Some 1%Z;
             Connector.orderBy := None |};
      match results with
      | [] =>
          mret (GetNotFound entity
                  (js "Nenhum registro encontrado com os filtros especificados.")
                  odataFilter)
      | first :: _ => mret (GetResult entity first odataFilter)
      end
  end.

(** The messages of the answers of [processQuery] that run no query. *)
Definition entityNotIdentified : jsstring :=
  js "Não foi possível identificar a entidade na consulta. Por favor, especifique a entidade (ex: contas, contatos, casos).".
Definition createNotSupported : jsstring :=
  js "A criação de registros via consulta em linguagem natural ainda não é suportada. Use a ferramenta específica para criar registros.".
Definition updateNotSupported : jsstring :=
  js "A atualização de registros via consulta em linguagem natural ainda não é suportada. Use a ferramenta específica para atualizar registros.".
Definition deleteNotSupported : jsstring :=
  js "A exclusão de registros via consulta em linguagem natural ainda não é suportada. Use a ferramenta específica para excluir registros.".

Definition processQuery (query : jsstring)
    : Eff (list Connector.Call) Response :=
  try_catch
    (let normalizedQuery := normalizeText query in
     let r := parseQuery normalizedQuery in
     match entity r with
     | None => mret (Failure entityNotIdentified normalizedQuery)
     | Some entity =>
         let action := default [] (action r) in
         if Js.eqb action (js "list") then
           executeListQuery entity (filters r) (fields r) (limit r)
         else if Js.eqb action (js "get") then
           executeGetQuery entity (filters r)
         else if Js.eqb action (js "create") then
           mret (Failure createNotSupported normalizedQuery)
         else if Js.eqb action (js "update") then
           mret (Failure updateNotSupported normalizedQuery)
         else if Js.eqb action (js "delete") then
           mret (Failure deleteNotSupported normalizedQuery)
         else
           executeListQuery entity (filters r) (fields r) (limit r)
     end)
    (fun message =>
       mret (Failure (js "Erro ao processar consulta: " ++ message) query)).
End Service.

End NLQuery.

(* ===================================================================== *)
(** * QueryAssistantService (queryAssistantService.ts) *)
(* ===================================================================== *)

Module QueryAssistant.
Import Filters.

Record QuerySession : Type := {
  id : jsstring;
  startTime : Z;
  lastActivity : Z;
  currentStep : jsstring;
  entity : option jsstring;
  action : option jsstring;
  filter : option Filters.t;
  fields : option (list jsstring);
  orderBy : option jsstring;
  limit : option Z;
  expand : option (list jsstring);
  completed : bool
}.

(** Assignments to the properties of a session. *)
Definition set_lastActivity (v : Z) (s : QuerySession) : QuerySession :=
  {| id := id s; startTime := startTime s; lastActivity := v;
     currentStep := currentStep s; entity := entity s; action := action s;
     filter := filter s; fields := fields s; orderBy := orderBy s;
     limit := limit s; expand := expand s; completed := completed s |}.
Definition set_currentStep (v : jsstring) (s : QuerySession) : QuerySession :=
  {| id := id s; startTime := startTime s; lastActivity := lastActivity s;
     currentStep := v; entity := entity s; action := action s;
     filter := filter s; fields := fields s; orderBy := orderBy s;
     limit := limit s; expand := expand s; completed := completed s |}.
Definition set_entity (v : option jsstring) (s : QuerySession)
    : QuerySession :=
  {| id := id s; startTime := startTime s; lastActivity := lastActivity s;
     currentStep := currentStep s; entity := v; action := action s;
     filter := filter s; fields := fields s; orderBy := orderBy s;
     limit := limit s; expand := expand s; completed := completed s |}.
Definition set_action (v : option jsstring) (s : QuerySession)
    : QuerySession :=
  {| id := id s; startTime := startTime s; lastActivity := lastActivity s;
     currentStep := currentStep s; entity := entity s; action := v;
     filter := filter s; fields := fields s; orderBy := orderBy s;
     limit := limit s; expand := expand s; completed := completed s |}.
Definition set_filter (v : option Filters.t) (s : QuerySession)
    : QuerySession :=
  {| id := id s; startTime := startTime s; lastActivity := lastActivity s;
     currentStep := currentStep s; entity := entity s; action := action s;
     filter := v; fields := fields s; orderBy := orderBy s;
     limit := limit s; expand := expand s; completed := completed s |}.
Definition set_fields (v : option (list jsstring)) (s : QuerySession)
    : QuerySession :=
  {| id := id s; startTime := startTime s; lastActivity := lastActivity s;
     currentStep := currentStep s; entity := entity s; action := action s;
     filter := filter s; fields := v; orderBy := orderBy s;
     limit := limit s; expand := expand s; completed := completed s |}.
Definition set_orderBy (v : option jsstring) (s : QuerySession)
    : QuerySession :=
  {| id := id s; startTime := startTime s; lastActivity := lastActivity s;
     currentStep := currentStep s; entity := entity s; action := action s;
     filter := filter s; fields := fields s; orderBy := v;
     limit := limit s; expand := expand s; completed := completed s |}.
Definition set_limit (v : option Z) (s : QuerySession) : QuerySession :=
  {| id := id s; startTime := startTime s; lastActivity := lastActivity s;
     currentStep := currentStep s; entity := entity s; action := action s;
     filter := filter s; fields := fields s; orderBy := orderBy s;
     limit := v; expand := expand s; completed := completed s |}.
Definition set_completed (v : bool) (s : QuerySession) : QuerySession :=
  {| id := id s; startTime := startTime s; lastActivity := lastActivity s;
     currentStep := currentStep s; entity := entity s; action := action s;
     filter := filter s; fields := fields s; orderBy := orderBy s;
     limit := limit s; expand := expand s; completed := v |}.

(** What [executeQuery] resolves to. *)
Inductive QueryResult : Type :=
  | Records (results : list Connector.CrmRecord)
  | OneRecord (record : Connector.CrmRecord)
  | Count (count : nat) (entity filter : jsstring).

(** The object that [processInput] resolves to. *)
Record Reply : Type := {
  message : jsstring;
  reply_completed : bool;
  result : option QueryResult
}.

(** [{ message, completed: false }] *)
Definition pending (m : jsstring) : Reply :=
  {| message := m; reply_completed := false; result := None |}.

(** The service: the session store, and the log of connector calls. *)
Record State : Type := {
  sessions : gmap jsstring QuerySession;
  calls : list Connector.Call
}.

Definition initial : State := {| sessions := ∅; calls := [] |}.

Definition sessionExpirationMinutes : Z := 30.

Definition entityMappings : list (jsstring * jsstring) :=
  [ (js "conta", js "accounts"); (js "contas", js "accounts");
    (js "account", js "accounts"); (js "accounts", js "accounts");
    (js "contato", js "contacts"); (js "contatos", js "contacts");
    (js "contact", js "contacts"); (js "contacts", js "contacts");
    (js "caso", js "incidents"); (js "casos", js "incidents");
    (js "case", js "incidents"); (js "cases", js "incidents");
    (js "incidents", js "incidents");
    (js "oportunidade", js "opportunities");
    (js "oportunidades", js "opportunities");
    (js "opportunity", js "opportunities");
    (js "opportunities", js "opportunities");
    (js "lead", js "leads"); (js "leads", js "leads");
    (js "atividade", js "activities"); (js "atividades", js "activities");
    (js "activity", js "activities"); (js "activities", js "activities") ].

(** ** Parsing of filter and ordering phrases *)

Definition sp : regex := rplus is_space.
Definition sp0 : regex := RStar is_space.

(** [(\w+) ... (.+)] with the given middle part, flag [i]. *)
Definition phrase (middle : list regex) : regex :=
  rseq ([RGroup 1 (rplus is_word)] ++ middle ++ [RGroup 2 (rplus is_dot)]).

(** The [patterns] array of [parseFilterInput], in its order. *)
Definition patterns : list (regex * jsstring) :=
  [ (phrase [sp; rword_i "cont"; rclass_i (js "eé"); rword_i "m"; sp],
     js "contains");
    (phrase [sp; rword_i "come"; rclass_i (js "çc"); rword_i "a"; sp;
             rword_i "com"; sp],
     js "startswith");
    (phrase [sp; rword_i "termina"; sp; rword_i "com"; sp], js "endswith");
    (phrase [sp; rword_i "igual"; sp; rword_i "a"; sp], js "eq");
    (phrase [sp0; rword_i "="; sp0], js "eq");
    (phrase [sp; rword_i "maior"; sp; rword_i "que"; sp], js "gt");
    (phrase [sp0; rword_i ">"; sp0], js "gt");
    (phrase [sp; rword_i "menor"; sp; rword_i "que"; sp], js "lt");
    (phrase [sp0; rword_i "<"; sp0], js "lt");
    (phrase [sp; rword_i "maior"; sp; rword_i "ou"; sp; rword_i "igual"; sp;
             rword_i "a"; sp],
     js "ge");
    (phrase [sp0; rword_i ">="; sp0], js "ge");
    (phrase [sp; rword_i "menor"; sp; rword_i "ou"; sp; rword_i "igual"; sp;
             rword_i "a"; sp],
     js "le");
    (phrase [sp0; rword_i "<="; sp0], js "le");
    (phrase [sp; rword_i "diferente"; sp; rword_i "de"; sp], js "ne");
    (phrase [sp0; rword_i "!="; sp0], js "ne");
    (phrase [sp; rword_i "ap"; rclass_i (js "óo"); rword_i "s"; sp], js "gt");
    (phrase [sp; rword_i "antes"; sp; rword_i "de"; sp], js "lt") ].

(** The quotes around a value are removed. *)
Definition unquote (value : jsstring) : jsstring :=
  if (startsWith value dq && endsWith value dq)
     || (startsWith value (js "'") && endsWith value (js "'"))
  then substring_1_m1 value
  else value.

(** The [for] loop of [parseFilterInput]: the first pattern that matches
    decides. *)
Fixpoint firstMatch (ps : list (regex * jsstring)) (input : jsstring)
    : option Filters.t :=
  match ps with
  | [] => None
  | (re, operator) :: ps' =>
      match regex_match re input with
      | Some m =>
          let field := trim (capture 1 m) in
          let value := unquote (trim (capture 2 m)) in
          Some [(field, FInfo operator value)]
      | None => firstMatch ps' input
      end
  end.

Definition parseFilterInput (input : jsstring) : Outcome Filters.t :=
  match firstMatch patterns input with
  | Some f => Ok f
  | None => Throw (js "Formato de filtro não reconhecido")
  end.

Definition ascPattern : regex :=
  rseq [RGroup 1 (rplus is_word); sp;
        RGroup 2 (RAlt (rword_i "asc")
                    (RAlt (rword_i "ascendente") (rword_i "crescente")))].

Definition descPattern : regex :=
  rseq [RGroup 1 (rplus is_word); sp;
        RGroup 2 (RAlt (rword_i "desc")
                    (RAlt (rword_i "descendente") (rword_i "decrescente")))].

(** [/^\w+$/] *)
Definition wordOnly : regex := rseq [RBol; rplus is_word; REol].

Definition parseOrderByInput (input : jsstring) : Outcome jsstring :=
  match regex_match ascPattern input with
  | Some ascMatch => Ok (trim (capture 1 ascMatch) ++ js " asc")
  | None =>
      match regex_match descPattern input with
      | Some descMatch => Ok (trim (capture 1 descMatch) ++ js " desc")
      | None =>
          let field := trim input in
          if truthy field && regex_test wordOnly field
          then Ok (field ++ js " asc")
          else Throw (js "Formato de ordenação não reconhecido")
      end
  end.

(** ** The filter builder *)

Definition simpleOperators : list jsstring :=
  map js ["eq"; "ne"; "gt"; "lt"; "ge"; "le"]%string.
Definition stringOperators : list jsstring :=
  map js ["contains"; "startswith"; "endswith"]%string.

(** [`${filterInfo}`] *)
Definition toString (v : FilterValue) : jsstring :=
  match v with
  | FRaw s => s
  | FInfo _ _ => js "[object Object]"
  end.

(** [entity.endsWith('s') ? entity.slice(0, -1) : entity] *)
Definition singular (entity : jsstring) : jsstring :=
  if endsWith entity (js "s") then slice_0_m1 entity else entity.

(** The [for] loop of [buildODataFilter] over [Object.entries(filters)];
    [filterParts] is the array built so far.  An entry is pushed or, for an
    operator that is not supported, passed over ([continue]).  Destructuring
    a bare string gives [undefined] for [operator]. *)
Fixpoint filterLoop (entity : jsstring) (entries : Filters.t)
    (filterParts : list jsstring) : list jsstring :=
  match entries with
  | [] => filterParts
  | (field, filterInfo) :: rest =>
      if Js.eqb field (js "id") then
        let idField := singular entity ++ js "id" in
        filterLoop entity rest
          (filterParts ++ [idField ++ js " eq " ++ toString filterInfo])
      else
        match filterInfo with
        | FInfo operator value =>
            if includes simpleOperators operator then
              filterLoop entity rest
                (filterParts
                 ++ [field ++ js " " ++ operator ++ js " '" ++ value
                     ++ js "'"])
            else if includes stringOperators operator then
              filterLoop entity rest
                (filterParts
                 ++ [operator ++ js "(" ++ field ++ js ", '" ++ value
                     ++ js "')"])
            else filterLoop entity rest filterParts
        | FRaw _ => filterLoop entity rest filterParts
        end
  end.

Definition buildODataFilter (entity : jsstring) (filters : Filters.t)
    : jsstring :=
  match filters with
  | [] => []
  | _ => join (js " and ") (filterLoop entity filters [])
  end.

(** ** The query summary *)

(** [JSON.stringify] of a filter object. *)
Definition json_value (v : FilterValue) : jsstring :=
  match v with
  | FRaw s => json_quote s
  | FInfo operator value =>
      js "{" ++ json_quote (js "operator") ++ js ":" ++ json_quote operator
      ++ js "," ++ json_quote (js "value") ++ js ":" ++ json_quote value
      ++ js "}"
  end.

Definition json_filter (f : Filters.t) : jsstring :=
  js "{"
  ++ join (js ",")
       (map (fun '(k, v) => json_quote k ++ js ":" ++ json_value v) f)
  ++ js "}".

Definition buildQuerySummary (session : QuerySession) : jsstring :=
  match entity session, action session with
  | Some e, Some a =>
      if truthy e && truthy a then
        let summary := jsn "- Entidade: " ++ e ++ jsn "\n- Ação: " ++ a in
        let summary :=
          match filter session with
          | Some ((_ :: _) as f) => summary ++ jsn "\n- Filtro: " ++ json_filter f
          | _ => summary
          end in
        let summary :=
          match fields session with
          | Some ((_ :: _) as fs) =>
              summary ++ jsn "\n- Campos: " ++ join (js ", ") fs
          | _ => summary ++ jsn "\n- Campos: todos"
          end in
        if Js.eqb a (js "list") then
          let summary :=
            if truthy_opt (orderBy session)
            then summary ++ jsn "\n- Ordenação: " ++ default [] (orderBy session)
            else summary in
          match limit session with
          | Some l =>
              if (l =? 0)%Z then summary
              else summary ++ jsn "\n- Limite: " ++ number_to_string l
                   ++ js " registros"
          | None => summary
          end
        else summary
      else js "Consulta incompleta"
  | _, _ => js "Consulta incompleta"
  end.

(** ** The step handlers *)

(** A handler works on the session object it was given, which it may
    mutate, and on the connector. *)
Abbreviation Step := (Eff (QuerySession * list Connector.Call)).

Definition mutate (f : QuerySession -> QuerySession) : Step unit :=
  modify (fun st => (f st.1, st.2)).

Definition session : Step QuerySession := fun st => (Ok st.1, st).

Section Service.
Variable conn : Connector.t.

Definition call_getEntityMetadata (entity : jsstring)
    (o : Connector.MetadataOptions) : Step (option Connector.RawEntity) :=
  fun st =>
    (Connector.getEntityMetadata conn entity o,
     (st.1, st.2 ++ [Connector.CallGetEntityMetadata entity o])).

Definition call_queryEntities (entity : jsstring)
    (o : Connector.QueryOptions) : Step (list Connector.CrmRecord) :=
  fun st =>
    (Connector.queryEntities conn entity o,
     (st.1, st.2 ++ [Connector.CallQueryEntities entity o])).

(** The name under which [processEntityStep] looks the entity up:
    [this.entityMappings[normalizedInput] || normalizedInput]. *)
Definition entityOfInput (input : jsstring) : jsstring :=
  let normalizedInput := toLowerCase (trim input) in
  or_else (tbl_get entityMappings normalizedInput) normalizedInput.

(** [{ includeAttributes: false }] *)
Definition validationRequest : Connector.MetadataOptions :=
  {| Connector.includeAttributes := Some false;
     Connector.includeOptionSets := None;
     Connector.includeAttributeTypes := None;
     Connector.selectEntityProperties := None;
     Connector.selectAttributeProperties := None |}.

Definition processEntityStep (input : jsstring) : Step Reply :=
  let entity := entityOfInput input in
  try_catch
    (call_getEntityMetadata entity validationRequest;;
     mutate (set_entity (Some entity));;
     mutate (set_currentStep (js "action"));;
     mret (pending
             (jsn "Ótimo! Você selecionou a entidade " ++ dq ++ entity ++ dq
              ++ jsn ".\n\nAgora, qual ação você deseja realizar?\n1. Listar registros\n2. Obter detalhes de um registro específico\n3. Contar registros\n\nResponda com o número ou nome da ação.")))
    (fun _ =>
       mret (pending
               (jsn "A entidade " ++ dq ++ entity ++ dq
                ++ jsn " não foi reconhecida ou não está disponível no Dynamics 365.\n\nPor favor, escolha uma entidade válida (ex: accounts, contacts, incidents, opportunities)."))).

Definition actionOfInput (normalizedInput : jsstring) : option jsstring :=
  if includes (map js ["1"; "listar"; "list"; "mostrar"; "exibir";
                       "buscar"]%string) normalizedInput
  then Some (js "list")
  else if includes (map js ["2"; "obter"; "get"; "detalhar"; "detalhes";
                            "ver"]%string) normalizedInput
  then Some (js "get")
  else if includes (map js ["3"; "contar"; "count"; "total"]%string)
            normalizedInput
  then Some (js "count")
  else None.

Definition processActionStep (input : jsstring) : Step Reply :=
  let normalizedInput := toLowerCase (trim input) in
  match actionOfInput normalizedInput with
  | None =>
      mret (pending
              (jsn "Ação não reconhecida. Por favor, escolha uma das seguintes opções:\n1. Listar registros\n2. Obter detalhes de um registro específico\n3. Contar registros"))
  | Some action =>
      mutate (set_action (Some action));;
      if Js.eqb action (js "get") then
        mutate (set_currentStep (js "filter"));;
        mret (pending
                (jsn "Você escolheu obter detalhes de um registro específico.\n\nPor favor, informe o ID do registro que deseja consultar:"))
      else
        mutate (set_currentStep (js "filter"));;
        mret (pending
                (jsn "Você escolheu "
                 ++ (if Js.eqb action (js "list") then js "listar"
                     else js "contar")
                 ++ jsn " registros.\n\nDeseja aplicar algum filtro? (ex: "
                 ++ dq ++ jsn "nome contém Microsoft" ++ dq ++ jsn " ou "
                 ++ dq ++ jsn "criado após 2023-01-01" ++ dq
                 ++ jsn ")\n\nSe não quiser filtrar, responda " ++ dq
                 ++ jsn "não" ++ dq ++ jsn " ou " ++ dq ++ jsn "sem filtro"
                 ++ dq ++ jsn "."))
  end.

Definition filterDefined : Reply :=
  pending
    (jsn "Filtro definido.\n\nQuais campos você deseja incluir nos resultados?\nInforme os nomes dos campos separados por vírgula (ex: "
     ++ dq ++ jsn "nome, email, telefone" ++ dq
     ++ jsn ").\n\nSe quiser todos os campos, responda " ++ dq
     ++ jsn "todos" ++ dq ++ jsn ".").

Definition processFilterStep (input : jsstring) : Step Reply :=
  let normalizedInput := toLowerCase (trim input) in
  s ← session;
  if includes (map js ["não"; "nao"; "sem filtro"; "sem"; "n"; "no";
                       "none"]%string) normalizedInput
  then
    mutate (set_filter (Some []));;
    mutate (set_currentStep (js "fields"));;
    mret filterDefined
  else if Js.eqb (default [] (action s)) (js "get") then
    mutate (set_filter (Some [(js "id", FRaw (trim input))]));;
    mutate (set_currentStep (js "fields"));;
    mret filterDefined
  else
    match parseFilterInput normalizedInput with
    | Ok f =>
        mutate (set_filter (Some f));;
        mutate (set_currentStep (js "fields"));;
        mret filterDefined
    | Throw error =>
        mret (pending
                (jsn "Não foi possível interpretar o filtro: " ++ error
                 ++ jsn "\n\nPor favor, tente novamente com um formato como "
                 ++ dq ++ jsn "campo operador valor" ++ dq ++ jsn " (ex: "
                 ++ dq ++ jsn "nome contém Microsoft" ++ dq
                 ++ jsn ") ou responda " ++ dq ++ jsn "sem filtro" ++ dq
                 ++ jsn "."))
    end.

(** [/,/] for [split(',')] *)
Definition comma : regex := RChar (fun c => (c =? 44)%N).

Definition processFieldsStep (input : jsstring) : Step Reply :=
  let normalizedInput := toLowerCase (trim input) in
  (if includes (map js ["todos"; "all"; "tudo"; "*"]%string) normalizedInput
   then mutate (set_fields None)
   else
     mutate (set_fields
               (Some (List.filter truthy
                        (map trim (split comma normalizedInput))))));;
  s ← session;
  if Js.eqb (default [] (action s)) (js "get") then
    mutate (set_currentStep (js "confirm"));;
    s' ← session;
    mret (pending
            (jsn "Campos definidos.\n\nResumo da sua consulta:\n"
             ++ buildQuerySummary s'
             ++ jsn "\n\nDeseja executar esta consulta? (sim/não)"))
  else if Js.eqb (default [] (action s)) (js "count") then
    mutate (set_currentStep (js "confirm"));;
    s' ← session;
    mret (pending
            (jsn "Campos definidos (note que para contagem, os campos são ignorados).\n\nResumo da sua consulta:\n"
             ++ buildQuerySummary s'
             ++ jsn "\n\nDeseja executar esta consulta? (sim/não)"))
  else
    mutate (set_currentStep (js "orderBy"));;
    mret (pending
            (jsn "Campos definidos.\n\nComo você deseja ordenar os resultados?\nInforme o campo e a direção (ex: "
             ++ dq ++ jsn "nome asc" ++ dq ++ jsn " ou " ++ dq
             ++ jsn "data_criacao desc" ++ dq
             ++ jsn ").\n\nSe não quiser ordenação específica, responda "
             ++ dq ++ jsn "padrão" ++ dq ++ jsn ".")).

Definition defaultWords : list jsstring :=
  map js ["padrão"; "padrao"; "default"; "sem"; "não"; "nao"]%string.

Definition orderByDefined : Reply :=
  pending
    (jsn "Ordenação definida.\n\nQuantos registros você deseja retornar no máximo?\nInforme um número ou responda "
     ++ dq ++ jsn "padrão" ++ dq
     ++ jsn " para usar o limite padrão (50).").

Definition processOrderByStep (input : jsstring) : Step Reply :=
  let normalizedInput := toLowerCase (trim input) in
  if includes defaultWords normalizedInput then
    mutate (set_orderBy (Some (js "createdon desc")));;
    mutate (set_currentStep (js "limit"));;
    mret orderByDefined
  else
    match parseOrderByInput normalizedInput with
    | Ok o =>
        mutate (set_orderBy (Some o));;
        mutate (set_currentStep (js "limit"));;
        mret orderByDefined
    | Throw error =>
        mret (pending
                (jsn "Não foi possível interpretar a ordenação: " ++ error
                 ++ jsn "\n\nPor favor, tente novamente com um formato como "
                 ++ dq ++ jsn "campo direção" ++ dq ++ jsn " (ex: " ++ dq
                 ++ jsn "nome asc" ++ dq ++ jsn ") ou responda " ++ dq
                 ++ jsn "padrão" ++ dq ++ jsn "."))
    end.

Definition limitDefined (s : QuerySession) : Reply :=
  pending
    (jsn "Limite definido.\n\nResumo da sua consulta:\n"
     ++ buildQuerySummary s
     ++ jsn "\n\nDeseja executar esta consulta? (sim/não)").

Definition processLimitStep (input : jsstring) : Step Reply :=
  let normalizedInput := toLowerCase (trim input) in
  if includes defaultWords normalizedInput then
    mutate (set_limit (Some 50%Z));;
    mutate (set_currentStep (js "confirm"));;
    s ← session;
    mret (limitDefined s)
  else
    match parseInt normalizedInput with
    | Some limit =>
        if (limit <=? 0)%Z then
          mret (pending
                  (jsn "Valor inválido. Por favor, informe um número positivo ou responda "
                   ++ dq ++ jsn "padrão" ++ dq ++ jsn "."))
        else
          mutate (set_limit (Some limit));;
          mutate (set_currentStep (js "confirm"));;
          s ← session;
          mret (limitDefined s)
    | None =>
        mret (pending
                (jsn "Valor inválido. Por favor, informe um número positivo ou responda "
                 ++ dq ++ jsn "padrão" ++ dq ++ jsn "."))
    end.

Definition executeQuery (s : QuerySession) : Step QueryResult :=
  if negb (truthy_opt (entity s)) || negb (truthy_opt (action s)) then
    throw (js "Parâmetros de consulta incompletos")
  else
    let e := default [] (entity s) in
    let a := default [] (action s) in
    let filter := buildODataFilter e (default [] (filter s)) in
    if Js.eqb a (js "list") then
      results ←
        call_queryEntities e
          {| Connector.filter := truthy_or_undefined filter;
             Connector.select := fields s;
             Connector.orderBy := orderBy s;
             Connector.top := limit s |};
      mret (Records results)
    else if Js.eqb a (js "get") then
      results ←
        call_queryEntities e
          {| Connector.filter := truthy_or_undefined filter;
             Connector.select := fields s;
             Connector.orderBy := None;
             Connector.top := Some 1%Z |};
      match results with
      | [] =>
          throw (js "Nenhum registro encontrado com os filtros especificados.")
      | first :: _ => mret (OneRecord first)
      end
    else if Js.eqb a (js "count") then
      countResults ←
        call_queryEntities e
          {| Connector.filter := truthy_or_undefined filter;
             Connector.select := Some [js "createdon"];
             Connector.orderBy := None;
             Connector.top := Some 1000%Z |};
      mret (Count (length countResults) e filter)
    else
      throw (js "Ação '" ++ a ++ js "' não suportada.").

Definition affirmative : list jsstring :=
  map js ["sim"; "yes"; "s"; "y"; "confirmar"; "executar"; "ok"]%string.
Definition negative : list jsstring :=
  map js ["não"; "nao"; "no"; "n"; "cancelar"; "cancel"]%string.

(** The reply of the confirm step when the query fails. *)
Definition queryFailed (error : jsstring) : Reply :=
  pending (jsn "Erro ao executar a consulta: " ++ error
           ++ jsn "\n\nDeseja modificar sua consulta? (sim/não)").

Definition processConfirmStep (input : jsstring) : Step Reply :=
  let normalizedInput := toLowerCase (trim input) in
  if includes affirmative normalizedInput then
    try_catch
      (s ← session;
       result ← executeQuery s;
       mutate (set_completed true);;
       mret {| message := js "Consulta executada com sucesso!";
               reply_completed := true;
               result := Some result |})
      (fun error => mret (queryFailed error))
  else if includes negative normalizedInput then
    mutate (set_currentStep (js "entity"));;
    mutate (set_entity None);;
    mutate (set_action None);;
    mutate (set_filter None);;
    mutate (set_fields None);;
    mutate (set_orderBy None);;
    mutate (set_limit None);;
    mret (pending
            (jsn "Consulta cancelada. Vamos começar novamente.\n\nQual entidade você deseja consultar? (ex: contas, contatos, casos, oportunidades)"))
  else
    mret (pending
            (jsn "Resposta não reconhecida. Por favor, responda " ++ dq
             ++ jsn "sim" ++ dq ++ jsn " para executar a consulta ou " ++ dq
             ++ jsn "não" ++ dq ++ jsn " para cancelar.")).

(** The [switch] of [processInput]. *)
Definition dispatch (input : jsstring) : Step Reply :=
  s ← session;
  let step := currentStep s in
  if Js.eqb step (js "entity") then processEntityStep input
  else if Js.eqb step (js "action") then processActionStep input
  else if Js.eqb step (js "filter") then processFilterStep input
  else if Js.eqb step (js "fields") then processFieldsStep input
  else if Js.eqb step (js "orderBy") then processOrderByStep input
  else if Js.eqb step (js "limit") then processLimitStep input
  else if Js.eqb step (js "confirm") then processConfirmStep input
  else
    mret (pending (js "Erro: passo desconhecido '" ++ step ++ js "'.")).

Definition sessionNotFound : Reply :=
  pending (js "Sessão não encontrada ou expirada. Por favor, inicie uma nova sessão.").

(** [processInput]; [now] is the time that [new Date()] reads.  The
    session handed to the step is the object held by the store, so what
    the step does to it is seen in the store. *)
Definition processInput (now : Z) (sessionId input : jsstring)
    : Eff State Reply :=
  fun st =>
    match sessions st !! sessionId with
    | None => (Ok sessionNotFound, st)
    | Some s =>
        let s1 := set_lastActivity now s in
        let '(out, (s2, log)) :=
          try_catch (dispatch input)
            (fun error =>
               mret (pending (js "Erro ao processar sua entrada: " ++ error)))
            (s1, calls st) in
        (out, {| sessions := <[sessionId := s2]> (sessions st);
                 calls := log |})
    end.
End Service.

(** [startSession]; [now] is the time that [Date.now()] and [new Date()]
    read and [random] the text of
    [Math.random().toString(36).substring(2, 9)]. *)
Definition startSession (now : Z) (random : jsstring)
    : State -> (jsstring * jsstring) * State :=
  fun st =>
    let sessionId := js "query-" ++ number_to_string now ++ js "-" ++ random in
    let s :=
      {| id := sessionId; startTime := now; lastActivity := now;
         currentStep := js "entity"; entity := None; action := None;
         filter := None; fields := None; orderBy := None; limit := None;
         expand := None; completed := false |} in
    ((sessionId,
      jsn "Bem-vindo ao assistente de consulta do Dynamics 365!\n\nVamos construir sua consulta passo a passo.\n\nPrimeiro, qual entidade você deseja consultar? (ex: contas, contatos, casos, oportunidades)"),
     {| sessions := <[sessionId := s]> (sessions st); calls := calls st |}).

(** One turn of the loop of [cleanupExpiredSessions]. *)
Definition sweep_entry (now : Z) (store : gmap jsstring QuerySession)
    (entry : jsstring * QuerySession) : gmap jsstring QuerySession :=
  let lastActivityTime := lastActivity entry.2 in
  let expirationTime :=
    (lastActivityTime + sessionExpirationMinutes * 60 * 1000)%Z in
  if (now >? expirationTime)%Z then delete entry.1 store else store.

(** [cleanupExpiredSessions]: the entries of the map are visited, and an
    expired one is deleted from the map. *)
Definition cleanupExpiredSessions (now : Z) (st : State) : State :=
  {| sessions :=
       fold_left (sweep_entry now) (map_to_list (sessions st)) (sessions st);
     calls := calls st |}.

(** A session has expired when its last activity lies more than thirty
    minutes back. *)
Definition expired (now : Z) (s : QuerySession) : Prop :=
  (now - lastActivity s > 30 * 60 * 1000)%Z.

#[global] Instance expired_dec now s : Decision (expired now s).
Proof. unfold expired. apply _. Defined.

Definition getSession (sessionId : jsstring) (st : State)
    : option QuerySession :=
  sessions st !! sessionId.

Definition endSession (sessionId : jsstring) (st : State) : bool * State :=
  (bool_decide (is_Some (sessions st !! sessionId)),
   {| sessions := delete sessionId (sessions st); calls := calls st |}).

(** A conversation: the inputs of one session, each with the time at
    which it arrives, handed to [processInput] in turn.  The replies are
    listed in order. *)
Fixpoint converse (conn : Connector.t) (sessionId : jsstring)
    (turns : list (Z * jsstring)) (st : State)
    : list (Outcome Reply) * State :=
  match turns with
  | [] => ([], st)
  | (now, input) :: turns' =>
      let '(out, st1) := processInput conn now sessionId input st in
      let '(outs, st2) := converse conn sessionId turns' st1 in
      (out :: outs, st2)
  end.

End QueryAssistant.

(* ===================================================================== *)
(** * The filter builder as the specification words it *)
(* ===================================================================== *)

Module FilterSpec.
Import Filters.












End FilterSpec.

(* ===================================================================== *)
(** * A sample connector *)
(* ===================================================================== *)

(** A connector in the manner of the simulation mode of [dynamicsService]:
    every entity name has a schema document, with three attributes when
    they are asked for, and a query answers with the records of [accounts]
    and with nothing for another name.  It serves to run the services on
    concrete inputs. *)
Module Sample.

Definition attribute (name ty : jsstring) : Connector.RawAttribute :=
  {| Connector.attr_LogicalName := name;
     Connector.attr_DisplayName := None;
     Connector.attr_SchemaName := None;
     Connector.attr_AttributeType := ty;
     Connector.attr_Description := None;
     Connector.attr_RequiredLevel := None;
     Connector.attr_IsPrimaryId := None;
     Connector.attr_IsPrimaryName := None;
     Connector.attr_MaxLength := None;
     Connector.attr_MinValue := None;
     Connector.attr_MaxValue := None;
     Connector.attr_Precision := None;
     Connector.attr_OptionSet := None |}.

Definition document (entity : jsstring) : Connector.RawEntity :=
  {| Connector.LogicalName := entity;
     Connector.DisplayName := Some entity;
     Connector.SchemaName := Some entity;
     Connector.DisplayCollectionName := None;
     Connector.EntitySetName := None;
     Connector.Description := None;
     Connector.PrimaryIdAttribute := None;
     Connector.PrimaryNameAttribute := None;
     Connector.IsCustomEntity := None;
     Connector.Attributes :=
       Some [ attribute (entity ++ js "id") (js "Uniqueidentifier");
              attribute (js "name") (js "String");
              attribute (js "createdon") (js "DateTime") ];
     Connector.ManyToOneRelationships := None;
     Connector.OneToManyRelationships := None;
     Connector.ManyToManyRelationships := None |}.

Definition accounts : list Connector.CrmRecord :=
  [ [(js "id", js "acc-001"); (js "name", js "Contoso Ltd.")];
    [(js "id", js "acc-002"); (js "name", js "Fabrikam Inc.")] ].

Definition connector : Connector.t :=
  {| Connector.getEntityMetadata := fun entity _ => Ok (Some (document entity));
     Connector.queryEntities :=
       fun entity _ =>
         Ok (if Js.eqb entity (js "accounts") then accounts else []) |}.

(** A connector whose queries fail for [accounts] only. *)
Definition flaky : Connector.t :=
  {| Connector.getEntityMetadata := fun entity _ => Ok (Some (document entity));
     Connector.queryEntities :=
       fun entity _ =>
         if Js.eqb entity (js "accounts") then Throw (js "Network Error")
         else Ok [] |}.

(** A connector that knows no entity. *)
Definition unreachable : Connector.t :=
  {| Connector.getEntityMetadata := fun _ _ => Throw (js "Not Found");
     Connector.queryEntities := fun _ _ => Throw (js "Network Error") |}.

(** The cache entry that the entity-list refresh writes: no attribute, no
    relationship. *)
Definition bareEntry (entity : jsstring) : MetadataExplorer.MetadataEntity.t :=
  {| MetadataExplorer.MetadataEntity.name := entity;
     MetadataExplorer.MetadataEntity.displayName := entity;
     MetadataExplorer.MetadataEntity.displayCollectionName := entity;
     MetadataExplorer.MetadataEntity.description := None;
     MetadataExplorer.MetadataEntity.primaryIdField := None;
     MetadataExplorer.MetadataEntity.primaryNameField := None;
     MetadataExplorer.MetadataEntity.isCustomEntity := false;
     MetadataExplorer.MetadataEntity.attributes := [];
     MetadataExplorer.MetadataEntity.relationships := [] |}.

(** The metadata service after an entity-list refresh at time 1000 that
    found [account]. *)
Definition refreshed : MetadataExplorer.State :=
  {| MetadataExplorer.cache :=
       {| MetadataExplorer.entities := {[ js "account" := bareEntry (js "account") ]};
          MetadataExplorer.lastUpdated := 1000 |};
     MetadataExplorer.calls := [] |}.

Definition withAttributes : MetadataExplorer.Options :=
  {| MetadataExplorer.includeAttributes := Some true;
     MetadataExplorer.includeOptionSets := None;
     MetadataExplorer.includeAttributeTypes := None;
     MetadataExplorer.selectEntityProperties := None;
     MetadataExplorer.selectAttributeProperties := None;
     MetadataExplorer.refresh := None |}.

(** A session of the assistant that waits for the confirmation of a
    listing of accounts. *)
Definition confirming : QueryAssistant.QuerySession :=
  {| QueryAssistant.id := js "query-17-abc1234";
     QueryAssistant.startTime := 17;
     QueryAssistant.lastActivity := 900;
     QueryAssistant.currentStep := js "confirm";
     QueryAssistant.entity := Some (js "accounts");
     QueryAssistant.action := Some (js "list");
     QueryAssistant.filter := Some [];
     QueryAssistant.fields := None;
     QueryAssistant.orderBy := Some (js "createdon desc");
     QueryAssistant.limit := Some 50%Z;
     QueryAssistant.expand := None;
     QueryAssistant.completed := false |}.

Definition awaitingConfirmation : QueryAssistant.State :=
  {| QueryAssistant.sessions := {[ js "query-17-abc1234" := confirming ]};
     QueryAssistant.calls := [] |}.

(** A session of the assistant that waits for the filter of a listing of
    accounts. *)
Definition filtering : QueryAssistant.QuerySession :=
  {| QueryAssistant.id := js "query-17-abc1234";
     QueryAssistant.startTime := 17;
     QueryAssistant.lastActivity := 900;
     QueryAssistant.currentStep := js "filter";
     QueryAssistant.entity := Some (js "accounts");
     QueryAssistant.action := Some (js "list");
     QueryAssistant.filter := None;
     QueryAssistant.fields := None;
     QueryAssistant.orderBy := None;
     QueryAssistant.limit := None;
     QueryAssistant.expand := None;
     QueryAssistant.completed := false |}.

Definition awaitingFilter : QueryAssistant.State :=
  {| QueryAssistant.sessions := {[ js "query-17-abc1234" := filtering ]};
     QueryAssistant.calls := [] |}.

(** The assistant after [startSession] at time 17. *)
Definition started : QueryAssistant.State :=
  (QueryAssistant.startSession 17 (js "abc1234") QueryAssistant.initial).2.

(** The turns of a full walk that lists an entity with every default. *)
Definition walk (entityInput : jsstring) : list (Z * jsstring) :=
  [ (100%Z, entityInput); (200%Z, js "1"); (300%Z, js "sem filtro");
    (400%Z, js "todos"); (500%Z, js "padrão"); (600%Z, js "padrão");
    (700%Z, js "sim") ].

End Sample.

(* ===================================================================== *)
(** * Properties of the metadata cache *)
(* ===================================================================== *)

Section MetadataExplorerFacts.
Import MetadataExplorer.

(** What [normalizeEntityName] computes: the synonym of the lower-cased
    name when the table has one, the lower-cased name otherwise.  The
    trailing [s] is never removed. *)
Lemma normalizeEntityName_spec (x : jsstring) :
  normalizeEntityName x
  = default (toLowerCase x) (tbl_truthy commonMappings (toLowerCase x)).
Proof.
  unfold normalizeEntityName, tbl_truthy.
  destruct (tbl_get commonMappings (toLowerCase x)) as [t|]; [|reflexivity].
  destruct (truthy t); reflexivity.
Qed.

(** C3 (the code departs from the claim): a plural that the synonym table
    does not list keeps its final [s]; ['emails'] normalises to ['emails'],
    not to ['email']. *)
Theorem C3_unknown_plural_keeps_its_s :
  normalizeEntityName (js "emails") = js "emails"
  /\ normalizeEntityName (js "emails") <> js "email".
Proof. split; [reflexivity | discriminate]. Qed.

(** C9: normalisation is idempotent on the keys of the synonym table, and
    ['cases'] and ['case'] both normalise to ['incident']. *)
Theorem C9_normalize_idempotent_on_synonyms (x : jsstring) :
  In x (map fst commonMappings) ->
  normalizeEntityName (normalizeEntityName x) = normalizeEntityName x
  /\ normalizeEntityName (js "cases") = normalizeEntityName (js "case")
  /\ normalizeEntityName (js "case") = js "incident".
Proof.
  intros Hx. split; [|split; reflexivity].
  vm_compute in Hx.
  repeat (destruct Hx as [<- | Hx]; [vm_compute; reflexivity|]).
  destruct Hx.
Qed.

Lemma C9_witness :
  In (js "cases") (map fst commonMappings)
  /\ normalizeEntityName (normalizeEntityName (js "cases"))
     = normalizeEntityName (js "cases").
Proof.
  assert (H : In (js "cases") (map fst commonMappings)).
  { vm_compute. do 9 right. left. reflexivity. }
  split; [exact H | exact (proj1 (C9_normalize_idempotent_on_synonyms _ H))].
Defined.

(** [loadEntityDetails] asks the connector once, and stores what it
    answers. *)
Lemma loadEntityDetails_run conn now key options st :
  loadEntityDetails conn now key options st
  = let st1 :=
      {| cache := cache st;
         calls := calls st
                  ++ [Connector.CallGetEntityMetadata key
                        (metadataRequest options)] |} in
    match Connector.getEntityMetadata conn key (metadataRequest options) with
    | Ok (Some md) =>
        (Ok tt, store_entity now key (entityOfMetadata options md) st1)
    | Ok None =>
        (Throw (js "Falha ao carregar detalhes da entidade " ++ key
                ++ js ": "
                ++ (js "Metadados para '" ++ key
                    ++ js "' não retornados pelo dynamicsService.")), st1)
    | Throw m =>
        (Throw (js "Falha ao carregar detalhes da entidade " ++ key
                ++ js ": " ++ m), st1)
    end.
Proof.
  unfold loadEntityDetails, try_catch, mbind, Eff_bind, call_getEntityMetadata.
  destruct (Connector.getEntityMetadata conn key (metadataRequest options))
    as [[md|]|m]; reflexivity.
Qed.

(** The attributes of a loaded entry are those of the document when they
    were asked for. *)
Lemma entityOfMetadata_attributes options md attrs :
  includeAttributes options = Some true ->
  Connector.Attributes md = Some attrs ->
  MetadataEntity.attributes (entityOfMetadata options md)
  = map (mapAttribute options) attrs.
Proof. intros Ho Ha. unfold entityOfMetadata. simpl. rewrite Ha, Ho. reflexivity. Qed.

(** C1: when attributes are asked for and the cached entry of the
    normalised name has none, [getEntityDetails] asks the connector for the
    entity before it answers; a record that it returns is the one just
    loaded, and it carries the attributes of the connector's document, so it
    has attributes whenever the connector returns some. *)
Theorem C1_partial_load_forces_reload
    (conn : Connector.t) (now : Z) (entityName : jsstring)
    (options : Options) (st : State) (e : MetadataEntity.t) :
  let key := normalizeEntityName entityName in
  let request := metadataRequest options in
  entities (cache st) !! key = Some e ->
  MetadataEntity.attributes e = [] ->
  includeAttributes options = Some true ->
  let run := getEntityDetails conn now entityName options st in
  calls run.2 = calls st ++ [Connector.CallGetEntityMetadata key request]
  /\ (forall r, run.1 = Ok r ->
        exists md,
          Connector.getEntityMetadata conn key request = Ok (Some md)
          /\ r = entityOfMetadata options md)
  /\ (forall md attrs,
        Connector.getEntityMetadata conn key request = Ok (Some md) ->
        Connector.Attributes md = Some attrs ->
        attrs <> [] ->
        exists r,
          run.1 = Ok r
          /\ MetadataEntity.attributes r = map (mapAttribute options) attrs
          /\ MetadataEntity.attributes r <> []).
Proof.
  intros key request Hc Ha Ho run.
  assert (Hneed : needsLoad now key options (cache st) = true).
  { unfold needsLoad. rewrite Hc, Ha, Ho. simpl.
    rewrite !orb_true_r. reflexivity. }
  assert (Hrun : run
    = match Connector.getEntityMetadata conn key request with
      | Ok (Some md) =>
          (Ok (entityOfMetadata options md),
           store_entity now key (entityOfMetadata options md)
             {| cache := cache st;
                calls := calls st
                         ++ [Connector.CallGetEntityMetadata key request] |})
      | Ok None =>
          (Throw (js "Falha ao obter detalhes da entidade " ++ entityName
                  ++ js ": "
                  ++ (js "Falha ao carregar detalhes da entidade " ++ key
                      ++ js ": "
                      ++ (js "Metadados para '" ++ key
                          ++ js "' não retornados pelo dynamicsService."))),
           {| cache := cache st;
              calls := calls st
                       ++ [Connector.CallGetEntityMetadata key request] |})
      | Throw m =>
          (Throw (js "Falha ao obter detalhes da entidade " ++ entityName
                  ++ js ": "
                  ++ (js "Falha ao carregar detalhes da entidade " ++ key
                      ++ js ": " ++ m)),
           {| cache := cache st;
              calls := calls st
                       ++ [Connector.CallGetEntityMetadata key request] |})
      end).
  { subst run. unfold getEntityDetails, try_catch, mbind, Eff_bind, get.
    fold key. rewrite Hneed, loadEntityDetails_run. fold request. cbv zeta.
    destruct (Connector.getEntityMetadata conn key request) as [[md|]|m];
      try reflexivity.
    unfold store_entity. cbn [cache entities].
    rewrite lookup_insert_eq. reflexivity. }
  rewrite Hrun. clear Hrun run.
  destruct (Connector.getEntityMetadata conn key request) as [[md|]|m] eqn:Hq.
  - split; [reflexivity|]. split.
    + intros r [= <-]. exists md. split; reflexivity.
    + intros md' attrs [= <-] Hattrs Hne.
      exists (entityOfMetadata options md). split; [reflexivity|].
      rewrite (entityOfMetadata_attributes _ _ _ Ho Hattrs).
      split; [reflexivity|]. destruct attrs; [congruence | discriminate].
  - split; [reflexivity|]. split; [intros r [=] | intros md attrs [=]].
  - split; [reflexivity|]. split; [intros r [=] | intros md attrs [=]].
Qed.

Lemma C1_witness :
  let run :=
    getEntityDetails Sample.connector 2000 (js "Accounts")
      Sample.withAttributes Sample.refreshed in
  calls run.2
  = [Connector.CallGetEntityMetadata (js "account")
       (metadataRequest Sample.withAttributes)]
  /\ exists r,
       run.1 = Ok r
       /\ MetadataEntity.attributes r
          = map (mapAttribute Sample.withAttributes)
              [ Sample.attribute (js "accountid") (js "Uniqueidentifier");
                Sample.attribute (js "name") (js "String");
                Sample.attribute (js "createdon") (js "DateTime") ]
       /\ MetadataEntity.attributes r <> [].
Proof.
  pose proof (C1_partial_load_forces_reload Sample.connector 2000
                (js "Accounts") Sample.withAttributes Sample.refreshed
                (Sample.bareEntry (js "account"))
                eq_refl eq_refl eq_refl) as [Hcalls [_ Hattrs]].
  split; [exact Hcalls|].
  exact (Hattrs (Sample.document (js "account")) _ eq_refl eq_refl
           ltac:(discriminate)).
Defined.

End MetadataExplorerFacts.

(* ===================================================================== *)
(** * Properties of the pattern matcher *)
(* ===================================================================== *)

Section MatcherFacts.

Lemma rstar_complete whole p s s' :
  matches whole (RStar p) s s' ->
  forall (A : Type) (k : jsstring -> option A),
    k s' <> None -> rstar p k s <> None.
Proof.
  intros H. remember (RStar p) as r eqn:Hr.
  induction H as [| | | | |q s|q c s s' Hc H IH| | |]; try discriminate Hr;
    injection Hr as ->; intros A k Hk.
  - destruct s as [|c s]; [exact Hk|]. cbn [rstar].
    destruct (p c); [|exact Hk].
    destruct (rstar p k s); [discriminate | exact Hk].
  - cbn [rstar]. rewrite Hc.
    specialize (IH eq_refl A k Hk).
    destruct (rstar p k s); [discriminate | contradiction].
Qed.

(** The matcher finds a match whenever there is one that the continuation
    accepts. *)
Lemma rmatch_complete whole r s s' :
  matches whole r s s' ->
  forall (A : Type) cs (k : jsstring -> captures -> option A),
    (forall cs', k s' cs' <> None) -> rmatch r whole s cs k <> None.
Proof.
  intros H.
  induction H as [s|p c s Hc|r1 r2 s s1 s2 H1 IH1 H2 IH2
                  |r1 r2 s s' H IH|r1 r2 s s' H IH
                  |p s|p c s s' Hc H IH|i r s s' H IH|s Hlen|];
    intros A cs k Hk; cbn [rmatch].
  - apply Hk.
  - rewrite Hc. apply Hk.
  - apply IH1. intros cs1. apply IH2, Hk.
  - specialize (IH A cs k Hk).
    destruct (rmatch r1 whole s cs k); [discriminate | contradiction].
  - destruct (rmatch r1 whole s cs k); [discriminate|]. apply IH, Hk.
  - apply (rstar_complete whole p s s); [constructor | apply Hk].
  - apply (rstar_complete whole p (c :: s) s');
      [constructor; assumption | apply Hk].
  - apply IH. intros cs1. apply Hk.
  - rewrite Hlen, Nat.eqb_refl. apply Hk.
  - apply Hk.
Qed.

Lemma rstar_sound whole p (A : Type) (k : jsstring -> option A) s x :
  rstar p k s = Some x ->
  exists s', matches whole (RStar p) s s' /\ k s' = Some x.
Proof.
  induction s as [|c s IH]; cbn [rstar]; intros H.
  - exists []. split; [constructor | exact H].
  - destruct (p c) eqn:Hc.
    + destruct (rstar p k s) as [y|] eqn:Hs.
      * injection H as ->. destruct (IH eq_refl) as [s' [Hm Hk]].
        exists s'. split; [constructor; assumption | exact Hk].
      * exists (c :: s). split; [constructor | exact H].
    + exists (c :: s). split; [constructor | exact H].
Qed.

(** A match that the matcher finds is a match. *)
Lemma rmatch_sound whole r :
  forall (A : Type) s cs (k : jsstring -> captures -> option A) x,
    rmatch r whole s cs k = Some x ->
    exists s' cs', matches whole r s s' /\ k s' cs' = Some x.
Proof.
  induction r as [|p|r1 IH1 r2 IH2|r1 IH1 r2 IH2|p|i r IH| |];
    intros A s cs k x H; cbn [rmatch] in H.
  - exists s, cs. split; [constructor | exact H].
  - destruct s as [|c s]; [discriminate|].
    destruct (p c) eqn:Hc; [|discriminate].
    exists s, cs. split; [constructor; assumption | exact H].
  - apply IH1 in H as [s1 [cs1 [H1 H]]].
    apply IH2 in H as [s2 [cs2 [H2 H]]].
    exists s2, cs2. split; [econstructor; eassumption | exact H].
  - destruct (rmatch r1 whole s cs k) as [y|] eqn:Hl.
    + injection H as ->. apply IH1 in Hl as [s' [cs' [Hm Hk]]].
      exists s', cs'. split; [apply matches_alt_l; assumption | exact Hk].
    + apply IH2 in H as [s' [cs' [Hm Hk]]].
      exists s', cs'. split; [apply matches_alt_r; assumption | exact Hk].
  - apply (rstar_sound whole) in H as [s' [Hm Hk]].
    exists s', cs. split; assumption.
  - apply IH in H as [s' [cs' [Hm Hk]]].
    eexists s', _. split; [constructor; eassumption | exact Hk].
  - destruct (Nat.eqb (length s) (length whole)) eqn:Hlen; [|discriminate].
    exists s, cs. split; [constructor; apply Nat.eqb_eq, Hlen | exact H].
  - destruct s; [|discriminate].
    exists [], cs. split; [constructor | exact H].
Qed.

(** What is left after a match is a suffix of the input. *)
Lemma matches_suffix whole r s s' : matches whole r s s' -> s' `suffix_of` s.
Proof.
  induction 1; try reflexivity.
  - apply suffix_cons_r. reflexivity.
  - etransitivity; eassumption.
  - assumption.
  - assumption.
  - apply suffix_cons_r. assumption.
  - assumption.
Qed.

Lemma search_complete r whole s t :
  t `suffix_of` s ->
  match_here r whole t <> None ->
  search_from r whole s <> None.
Proof.
  intros [pre ->] Ht. induction pre as [|c pre IH]; cbn [app].
  - destruct t; cbn [search_from];
      destruct (match_here r whole _); congruence.
  - cbn [search_from].
    destruct (match_here r whole (c :: pre ++ t)); [discriminate | exact IH].
Qed.

Lemma search_sound r whole s x :
  search_from r whole s = Some x ->
  exists t, t `suffix_of` s /\ match_here r whole t = Some x.
Proof.
  induction s as [|c s IH]; cbn [search_from]; intros H.
  - destruct (match_here r whole []) eqn:Hm; [|discriminate].
    exists []. split; [reflexivity | congruence].
  - destruct (match_here r whole (c :: s)) eqn:Hm.
    + exists (c :: s). split; [reflexivity | congruence].
    + destruct (IH H) as [t [Hsuf Ht]].
      exists t. split; [apply suffix_cons_r; assumption | exact Ht].
Qed.

(** A pattern whose every match contains a match of another pattern cannot
    match where the other does not. *)
Lemma regex_match_shadowed (re re' : regex) :
  (forall whole s s',
     matches whole re s s' ->
     exists u s'', u `suffix_of` s /\ matches whole re' u s'') ->
  forall input,
    regex_match re' input = None -> regex_match re input = None.
Proof.
  intros Hshadow input Hnone. unfold regex_match in *.
  destruct (search_from re input input) as [[rest cs]|] eqn:Hre;
    [|reflexivity].
  exfalso.
  apply search_sound in Hre as [t [Hsuf Ht]].
  unfold match_here in Ht.
  apply rmatch_sound in Ht as [s' [cs' [Hm _]]].
  destruct (Hshadow _ _ _ Hm) as [u [s'' [Hu Hm']]].
  assert (Hfound : search_from re' input input <> None).
  { apply (search_complete re' input input u).
    - etransitivity; eassumption.
    - unfold match_here. apply (rmatch_complete _ _ _ _ Hm'). discriminate. }
  destruct (search_from re' input input) as [[? ?]|];
    [discriminate | contradiction].
Qed.

End MatcherFacts.

(* ===================================================================== *)
(** * Properties of the natural-language service *)
(* ===================================================================== *)

(** Evaluates the closed tests on strings in the goal. *)
Ltac decide_tests :=
  repeat match goal with
    | |- context [includes ?l ?x] =>
        let v := eval vm_compute in (includes l x) in
        change (includes l x) with v
    | |- context [Js.eqb ?a ?b] =>
        let v := eval vm_compute in (Js.eqb a b) in
        change (Js.eqb a b) with v
    end;
  cbv iota.

Section NLQueryFacts.
Import Filters NLQuery.

(** None of the limit keywords is an action or an entity word. *)
Lemma limit_word_is_plain (kw : jsstring) :
  In kw limitWords ->
  includes limitWords kw = true
  /\ tbl_truthy actionMappings kw = None
  /\ tbl_truthy entityMappings kw = None.
Proof.
  intros H. vm_compute in H.
  repeat (destruct H as [<- | H]; [vm_compute; repeat split; reflexivity|]).
  destruct H.
Qed.

(** The scan after a limit keyword that a positive integer follows. *)
Lemma scan_limit_pair kw num n rest r :
  In kw limitWords ->
  parseInt num = Some n ->
  (n > 0)%Z ->
  scan (kw :: num :: rest) r = scan rest (set_limit n r).
Proof.
  intros Hkw Hnum Hpos.
  destruct (limit_word_is_plain kw Hkw) as [Hinc [Hact Hent]].
  cbn [scan]. rewrite Hact, Hent, Hinc, Hnum.
  destruct (truthy_opt (action r)), (truthy_opt (entity r));
    (destruct (Z.gtb_spec n 0); [reflexivity | lia]).
Qed.

(** A scan that meets no limit keyword leaves the limit as it is. *)
Lemma scan_keeps_limit (k : nat) :
  forall words r,
    (length words <= k)%nat ->
    (forall w, In w words -> includes limitWords w = false) ->
    limit (scan words r) = limit r.
Proof.
  induction k as [|k IH]; intros words r Hlen Hno.
  - destruct words; [reflexivity | simpl in Hlen; lia].
  - destruct words as [|word rest]; [reflexivity|].
    assert (Hrest : forall r', limit (scan rest r') = limit r').
    { intros r'. apply IH; [simpl in Hlen; lia|].
      intros w Hw. apply Hno. right. exact Hw. }
    assert (Hword : includes limitWords word = false).
    { apply Hno. left. reflexivity. }
    cbn [scan].
    destruct (if truthy_opt (action r) then None
              else tbl_truthy actionMappings word) as [a|].
    { rewrite Hrest. reflexivity. }
    destruct (if truthy_opt (entity r) then None
              else tbl_truthy entityMappings word) as [e|].
    { rewrite Hrest. reflexivity. }
    rewrite Hword.
    assert (Hfilter :
      limit
        match rest with
        | potentialOperator :: potentialValue :: rest2 =>
            match tbl_truthy operatorMappings potentialOperator with
            | Some op =>
                scan rest2 (set_filter word (FInfo op potentialValue) r)
            | None => scan rest r
            end
        | _ => scan rest r
        end
      = limit r).
    { destruct rest as [|o [|v rest2]]; try apply Hrest.
      destruct (tbl_truthy operatorMappings o); [|apply Hrest].
      rewrite IH; [reflexivity | simpl in Hlen |- *; lia |].
      intros w Hw. apply Hno. right. right. right. exact Hw. }
    destruct rest as [|nextWord rest1]; exact Hfilter.
Qed.

(** C7 (amended): when the scan reaches a limit keyword that a token
    parsing as a positive integer [n] follows, the limit rule sets the limit
    to [n] and the scan goes on behind the two tokens, so neither takes part
    in a filter triple; the result has limit [n] when no limit keyword comes
    later.  In particular ['listar casos top 5'] yields entity
    ['incidents'], action ['list'], limit 5 and no filter. *)
Theorem C7_limit_rule
    (kw num : jsstring) (n : Z) (rest : list jsstring) (r : ParseResult) :
  In kw limitWords ->
  parseInt num = Some n ->
  (n > 0)%Z ->
  scan (kw :: num :: rest) r = scan rest (set_limit n r)
  /\ ((forall w, In w rest -> includes limitWords w = false) ->
      limit (scan (kw :: num :: rest) r) = Some n)
  /\ parseQuery (js "listar casos top 5")
     = {| entity := Some (js "incidents"); action := Some (js "list");
          filters := []; fields := None; limit := Some 5%Z |}.
Proof.
  intros Hkw Hnum Hpos.
  split; [apply scan_limit_pair; assumption|].
  split; [|vm_compute; reflexivity].
  intros Hno. rewrite (scan_limit_pair kw num n rest r Hkw Hnum Hpos).
  rewrite (scan_keeps_limit (length rest)); [reflexivity | lia | exact Hno].
Qed.

(** C7 as first stated fails when the keyword is the value of a filter
    triple that starts earlier: in ['nome = top 5'] the token ['top'] is
    followed by ['5'], yet no limit is set and ['top'] is the value of the
    filter on ['nome']. *)
Lemma C7_counterexample :
  tokenize (js "nome = top 5") = [js "nome"; js "="; js "top"; js "5"]
  /\ In (js "top") limitWords
  /\ parseInt (js "5") = Some 5%Z
  /\ limit (parseQuery (js "nome = top 5")) = None
  /\ filters (parseQuery (js "nome = top 5"))
     = [(js "nome", FInfo (js "eq") (js "top"))].
Proof.
  split; [vm_compute; reflexivity|].
  split; [left; reflexivity|].
  repeat split; vm_compute; reflexivity.
Qed.

Lemma C7_witness :
  scan [js "top"; js "5"; js "casos"] emptyResult
  = scan [js "casos"] (set_limit 5 emptyResult)
  /\ limit (scan [js "top"; js "5"; js "casos"] emptyResult) = Some 5%Z.
Proof.
  assert (Hkw : In (js "top") limitWords) by (left; reflexivity).
  assert (Hpos : (5 > 0)%Z) by reflexivity.
  pose proof (C7_limit_rule (js "top") (js "5") 5 [js "casos"] emptyResult
                Hkw eq_refl Hpos) as [Hscan [Hlimit _]].
  split; [exact Hscan|].
  apply Hlimit. intros w [<-|[]]. reflexivity.
Defined.

(** The example of the specification: the tokens that no rule claims are
    passed over. *)
Example parse_listar_contas :
  parseQuery (normalizeText (js "Listar contas em São Paulo"))
  = {| entity := Some (js "accounts"); action := Some (js "list");
       filters := []; fields := None; limit := None |}.
Proof. vm_compute. reflexivity. Qed.

(** A later limit pair overwrites an earlier one. *)
Example parse_two_limits :
  limit (parseQuery (js "listar casos top 5 max 7")) = Some 7%Z.
Proof. vm_compute. reflexivity. Qed.

(** A [try]/[catch] whose handler returns does not throw. *)
Lemma try_catch_returns {S A : Type} (m : Eff S A) (h : jsstring -> A) st :
  exists a, (try_catch m (fun e => mret (h e)) st).1 = Ok a.
Proof.
  unfold try_catch. destruct (m st) as [[a|e] st'].
  - exists a. reflexivity.
  - exists (h e). reflexivity.
Qed.

(** [processQuery] answers every query with a response: an exception of the
    connector or of the service becomes a failure response. *)
Lemma processQuery_never_throws conn query log :
  exists response, (processQuery conn query log).1 = Ok response.
Proof. unfold processQuery. apply try_catch_returns. Qed.

(** C10 (amended): when the action detected in a query is create, update or
    delete, [processQuery] returns [success: false] and invokes no operation
    of the connector; the message says that the operation is not supported
    in natural language when an entity was identified, and that the entity
    could not be identified otherwise. *)
Theorem C10_write_actions_run_nothing
    (conn : Connector.t) (query : jsstring) (log : list Connector.Call)
    (a : jsstring) :
  action (parseQuery (normalizeText query)) = Some a ->
  In a [js "create"; js "update"; js "delete"] ->
  let run := processQuery conn query log in
  run.2 = log
  /\ exists response,
       run.1 = Ok response
       /\ success response = false
       /\ match entity (parseQuery (normalizeText query)) with
          | Some _ =>
              (a = js "create" -> message response = Some createNotSupported)
              /\ (a = js "update" ->
                  message response = Some updateNotSupported)
              /\ (a = js "delete" ->
                  message response = Some deleteNotSupported)
          | None => message response = Some entityNotIdentified
          end.
Proof.
  intros Hact Ha run. subst run.
  unfold processQuery, try_catch. cbv zeta.
  destruct (entity (parseQuery (normalizeText query))) as [e|].
  - rewrite Hact. cbn [default from_option Datatypes.id].
    destruct Ha as [<-|[<-|[<-|[]]]]; decide_tests;
      (split; [reflexivity|]); eexists;
      (split; [reflexivity|]); (split; [reflexivity|]);
      (split; [|split]); intros Heq;
      first [vm_compute in Heq; discriminate Heq | reflexivity].
  - split; [reflexivity|]. eexists. repeat split; reflexivity.
Qed.

(** C10 as first stated fails for a query without a known entity: the
    action of ['criar registro'] is create, and the answer says that the
    entity could not be identified. *)
Lemma C10_counterexample :
  action (parseQuery (normalizeText (js "criar registro"))) = Some (js "create")
  /\ (processQuery Sample.connector (js "criar registro") []).1
     = Ok (Failure entityNotIdentified (js "criar registro"))
  /\ entityNotIdentified <> createNotSupported.
Proof.
  split; [vm_compute; reflexivity|].
  split; [vm_compute; reflexivity|].
  intros H. vm_compute in H. discriminate H.
Qed.

Lemma C10_witness :
  let run := processQuery Sample.connector (js "Excluir contas") [] in
  run.2 = []
  /\ exists response,
       run.1 = Ok response
       /\ success response = false
       /\ message response = Some deleteNotSupported.
Proof.
  assert (Ha : In (js "delete") [js "create"; js "update"; js "delete"]).
  { right. right. left. reflexivity. }
  pose proof (C10_write_actions_run_nothing Sample.connector
                (js "Excluir contas") [] (js "delete") eq_refl Ha)
    as [Hlog [response [Hrun [Hfail Hmsg]]]].
  split; [exact Hlog|].
  exists response. split; [exact Hrun|]. split; [exact Hfail|].
  exact (proj2 (proj2 Hmsg) eq_refl).
Defined.

End NLQueryFacts.

(* ===================================================================== *)
(** * Properties of the query assistant *)
(* ===================================================================== *)

Section QueryAssistantFacts.
Import Filters QueryAssistant.

(** ** The filter-phrase parser *)

(** C2 (the code departs from the claim): the pattern for [>] stands before
    the pattern for [>=] in the bank and matches every input that [>=]
    matches, so ['idade >= 18'] is read as operator [gt] with value
    ['= 18'], and the assistant stores that filter; likewise
    ['idade <= 18'] is read as [lt] with value ['= 18'].  ['idade != 18'] is
    read as [ne] with value ['18']. *)
Theorem C2_ge_and_le_are_shadowed :
  parseFilterInput (js "idade >= 18")
  = Ok [(js "idade", FInfo (js "gt") (js "= 18"))]
  /\ parseFilterInput (js "idade <= 18")
     = Ok [(js "idade", FInfo (js "lt") (js "= 18"))]
  /\ parseFilterInput (js "idade != 18")
     = Ok [(js "idade", FInfo (js "ne") (js "18"))]
  /\ filter
       <$> sessions
             (processInput Sample.connector 1000 (js "query-17-abc1234")
                (js "idade >= 18") Sample.awaitingFilter).2
           !! js "query-17-abc1234"
     = Some (Some [(js "idade", FInfo (js "gt") (js "= 18"))]).
Proof. repeat split; vm_compute; reflexivity. Qed.

Lemma matches_seq_inv whole r1 r2 s s' :
  matches whole (RSeq r1 r2) s s' ->
  exists s1, matches whole r1 s s1 /\ matches whole r2 s1 s'.
Proof. inversion 1; subst. eexists. split; eassumption. Qed.

Lemma matches_char_inv whole p s s' :
  matches whole (RChar p) s s' -> exists c, s = c :: s' /\ p c = true.
Proof. inversion 1; subst. eexists. split; [reflexivity | assumption]. Qed.

(** Under the flag [i] the letters [o] and [u] are matched by themselves
    and their capitals, which are word characters. *)
Lemma letter_o_u_is_word (c l : N) :
  l = 111%N \/ l = 117%N ->
  (canonicalize c =? canonicalize l)%N = true ->
  is_word c = true.
Proof.
  intros Hl H. apply N.eqb_eq in H.
  assert (Hc : c = l \/ c = (l - 32)%N).
  { unfold canonicalize, is_lower_ascii, is_lower_latin1, in_range in H.
    destruct Hl as [-> | ->]; cbn in H;
      repeat match type of H with
             | context [(?a <=? ?b)%N] => destruct (N.leb_spec a b)
             | context [(?a =? ?b)%N] => destruct (N.eqb_spec a b)
             end; cbn in H; lia. }
  destruct Hl as [-> | ->]; destruct Hc as [-> | ->]; reflexivity.
Qed.

(** The equals sign is matched by itself only, and the dot matches it. *)
Lemma equals_is_dot (c : N) :
  (canonicalize c =? canonicalize 61)%N = true -> is_dot c = true.
Proof.
  intros H. apply N.eqb_eq in H.
  assert (Hc : c = 61%N).
  { unfold canonicalize, is_lower_ascii, is_lower_latin1, in_range in H.
    cbn in H.
    repeat match type of H with
           | context [(?a <=? ?b)%N] => destruct (N.leb_spec a b)
           | context [(?a =? ?b)%N] => destruct (N.eqb_spec a b)
           end; cbn in H; lia. }
  subst c. reflexivity.
Qed.

(** A phrase [(\w+)\s+X\s+ou<tail>] contains a match of [(\w+)<tail>]: the
    word [ou] can stand for the field. *)
Lemma phrase_with_ou_contains_tail whole (X tail : regex) s s' :
  matches whole
    (RSeq (RGroup 1 (rplus is_word))
       (RSeq sp (RSeq X (RSeq sp (RSeq (rword_i "ou") tail))))) s s' ->
  exists u s'', u `suffix_of` s
                /\ matches whole (RSeq (RGroup 1 (rplus is_word)) tail) u s''.
Proof.
  intros H.
  apply matches_seq_inv in H as [s1 [H1 H]].
  apply matches_seq_inv in H as [s2 [H2 H]].
  apply matches_seq_inv in H as [s3 [H3 H]].
  apply matches_seq_inv in H as [s4 [H4 H]].
  apply matches_seq_inv in H as [s5 [H5 H]].
  change (rword_i "ou") with (RSeq (rlit_i 111) (rlit_i 117)) in H5.
  apply matches_seq_inv in H5 as [t [Ho Hu]].
  apply matches_char_inv in Ho as [o [-> Ho]].
  apply matches_char_inv in Hu as [u [-> Hu]].
  exists (o :: u :: s5), s'. split.
  - apply matches_suffix in H1, H2, H3, H4.
    etransitivity; [exact H4|]. etransitivity; [exact H3|].
    etransitivity; [exact H2|]. exact H1.
  - econstructor; [|exact H].
    constructor. unfold rplus. econstructor.
    + constructor. apply (letter_o_u_is_word o 111); [left; reflexivity|].
      exact Ho.
    + apply matches_star_cons; [|apply matches_star_nil].
      apply (letter_o_u_is_word u 117); [right; reflexivity|]. exact Hu.
Qed.

(** A phrase [(\w+)\s*C=\s*(.+)] is also a phrase [(\w+)\s*C\s*(.+)]: the
    equals sign can start the value. *)
Lemma phrase_with_equals_is_shorter whole (c : N) s s' :
  matches whole
    (RSeq (RGroup 1 (rplus is_word))
       (RSeq sp0 (RSeq (RSeq (rlit_i c) (rlit_i 61))
                    (RSeq sp0 (RGroup 2 (rplus is_dot)))))) s s' ->
  exists u s'', u `suffix_of` s
                /\ matches whole
                     (RSeq (RGroup 1 (rplus is_word))
                        (RSeq sp0 (RSeq (rlit_i c)
                                     (RSeq sp0 (RGroup 2 (rplus is_dot))))))
                     u s''.
Proof.
  intros H.
  apply matches_seq_inv in H as [s1 [H1 H]].
  apply matches_seq_inv in H as [s2 [H2 H]].
  apply matches_seq_inv in H as [s3 [H3 H]].
  apply matches_seq_inv in H3 as [t [Hc He]].
  apply matches_char_inv in He as [e [-> He]].
  exists s, s3. split; [reflexivity|].
  econstructor; [exact H1|]. econstructor; [exact H2|].
  econstructor; [exact Hc|]. econstructor; [apply matches_star_nil|].
  constructor. unfold rplus. econstructor.
  - constructor. apply equals_is_dot. exact He.
  - apply matches_star_nil.
Qed.

(** The bank never answers [ge] or [le]: whatever the patterns for
    [maior ou igual a], [>=], [menor ou igual a] and [<=] match is matched
    by a pattern that stands before them ([igual a], [>], [igual a] and
    [<]). *)
Lemma parseFilterInput_never_ge_le input f field op value :
  parseFilterInput input = Ok f ->
  In (field, FInfo op value) f ->
  op <> js "ge" /\ op <> js "le".
Proof.
  unfold parseFilterInput.
  destruct (firstMatch patterns input) as [f'|] eqn:H; [|discriminate].
  intros [= <-] Hin.
  pose proof (regex_match_shadowed
                (phrase [sp; rword_i "maior"; sp; rword_i "ou"; sp;
                         rword_i "igual"; sp; rword_i "a"; sp])
                (phrase [sp; rword_i "igual"; sp; rword_i "a"; sp])
                (fun whole =>
                   phrase_with_ou_contains_tail whole (rword_i "maior")
                     (rseq [sp; rword_i "igual"; sp; rword_i "a"; sp;
                            RGroup 2 (rplus is_dot)])) input) as Hge_words.
  pose proof (regex_match_shadowed
                (phrase [sp; rword_i "menor"; sp; rword_i "ou"; sp;
                         rword_i "igual"; sp; rword_i "a"; sp])
                (phrase [sp; rword_i "igual"; sp; rword_i "a"; sp])
                (fun whole =>
                   phrase_with_ou_contains_tail whole (rword_i "menor")
                     (rseq [sp; rword_i "igual"; sp; rword_i "a"; sp;
                            RGroup 2 (rplus is_dot)])) input) as Hle_words.
  pose proof (regex_match_shadowed
                (phrase [sp0; rword_i ">="; sp0])
                (phrase [sp0; rword_i ">"; sp0])
                (fun whole => phrase_with_equals_is_shorter whole 62) input)
    as Hge_sign.
  pose proof (regex_match_shadowed
                (phrase [sp0; rword_i "<="; sp0])
                (phrase [sp0; rword_i "<"; sp0])
                (fun whole => phrase_with_equals_is_shorter whole 60) input)
    as Hle_sign.
  unfold patterns in H. cbn [firstMatch] in H.
  repeat match type of H with
    | match regex_match ?re input with _ => _ end = _ =>
        let Hm := fresh "Hm" in
        destruct (regex_match re input) eqn:Hm;
        [ injection H as <-;
          destruct Hin as [Hin|[]]; injection Hin as _ Eop _; subst op;
          first
            [ split; intros E; vm_compute in E; discriminate E
            | exfalso;
              first [ discriminate (Hge_words eq_refl)
                    | discriminate (Hle_words eq_refl)
                    | discriminate (Hge_sign eq_refl)
                    | discriminate (Hle_sign eq_refl) ] ]
        | ]
    end.
  discriminate H.
Qed.

(** ** The filter builder *)


Lemma includes_decide (l : list jsstring) (x : jsstring) :
  includes l x = bool_decide (x ∈ l).
Proof.
  induction l as [|a l IH].
  - symmetry. apply bool_decide_eq_false_2, not_elem_of_nil.
  - cbn [includes existsb]. fold (includes l x). rewrite IH. unfold Js.eqb.
    destruct (decide (x = a)) as [->|Hne].
    + rewrite bool_decide_eq_true_2 by reflexivity.
      symmetry. apply bool_decide_eq_true_2, list_elem_of_here.
    + rewrite (bool_decide_eq_false_2 (x = a)) by assumption.
      apply bool_decide_ext. rewrite elem_of_cons. tauto.
Qed.








(** ** Session expiry *)

Lemma sweep_entry_lookup now store entry k :
  sweep_entry now store entry !! k
  = if bool_decide (k = entry.1 /\ expired now entry.2)
    then None else store !! k.
Proof.
  unfold sweep_entry, expired, sessionExpirationMinutes.
  destruct (Z.gtb_spec now (lastActivity entry.2 + 30 * 60 * 1000)) as [Hgt|Hle].
  - destruct (decide (k = entry.1)) as [->|Hne].
    + rewrite lookup_delete_eq, bool_decide_eq_true_2; [reflexivity|].
      split; [reflexivity | lia].
    + rewrite lookup_delete_ne by congruence.
      rewrite bool_decide_eq_false_2; [reflexivity | tauto].
  - rewrite bool_decide_eq_false_2; [reflexivity|]. intros [_ H]. lia.
Qed.

(** After the loop a key is bound as before unless one of the visited
    entries carries it and has expired. *)
Lemma sweep_fold_lookup now (l : list (jsstring * QuerySession)) store k :
  fold_left (sweep_entry now) l store !! k
  = if bool_decide (Exists (fun entry => k = entry.1 /\ expired now entry.2) l)
    then None else store !! k.
Proof.
  revert store. induction l as [|entry l IH]; intros store.
  - rewrite bool_decide_eq_false_2; [reflexivity|]. intros H. inversion H.
  - cbn [fold_left]. rewrite IH, sweep_entry_lookup.
    destruct (decide (Exists (fun e => k = e.1 /\ expired now e.2) l)) as [Hl|Hl].
    + rewrite (bool_decide_eq_true_2 _ Hl).
      rewrite bool_decide_eq_true_2; [reflexivity|].
      apply Exists_cons_tl. assumption.
    + rewrite (bool_decide_eq_false_2 _ Hl).
      destruct (decide (k = entry.1 /\ expired now entry.2)) as [He|He].
      * rewrite (bool_decide_eq_true_2 _ He).
        rewrite bool_decide_eq_true_2; [reflexivity|].
        apply Exists_cons_hd. assumption.
      * rewrite (bool_decide_eq_false_2 _ He).
        rewrite bool_decide_eq_false_2; [reflexivity|].
        intros H. inversion H; subst; tauto.
Qed.

Lemma cleanup_lookup now st k :
  sessions (cleanupExpiredSessions now st) !! k
  = match sessions st !! k with
    | Some s => if bool_decide (expired now s) then None else Some s
    | None => None
    end.
Proof.
  unfold cleanupExpiredSessions. cbn [sessions].
  rewrite sweep_fold_lookup.
  destruct (sessions st !! k) as [s|] eqn:Hk.
  - destruct (decide (expired now s)) as [He|He].
    + rewrite !bool_decide_eq_true_2; [reflexivity|assumption|].
      apply Exists_exists. exists (k, s). split; [|split; [reflexivity|assumption]].
      apply elem_of_map_to_list. assumption.
    + rewrite !bool_decide_eq_false_2; [reflexivity|assumption|].
      intros H. apply Exists_exists in H as [[k' s'] [Hin [Heq Hexp]]].
      simpl in Heq, Hexp. subst k'.
      apply elem_of_map_to_list in Hin.
      rewrite Hk in Hin. injection Hin as <-. tauto.
  - destruct (bool_decide _); reflexivity.
Qed.

(** C5: the sweep deletes exactly the sessions whose last activity lies
    more than 30 minutes before the time of the sweep, and keeps the others
    as they are; [processInput] for an id that the store does not hold
    returns normally, with [completed: false] and the session-not-found
    message, and changes nothing. *)
Theorem C5_expiry_sweep_and_unknown_session
    (conn : Connector.t) (now : Z) (st : State) (sessionId : jsstring) :
  (forall s,
     sessions (cleanupExpiredSessions now st) !! sessionId = Some s
     <-> sessions st !! sessionId = Some s
         /\ (now - lastActivity s <= 30 * 60 * 1000)%Z)
  /\ (forall input,
        sessions st !! sessionId = None ->
        processInput conn now sessionId input st
        = (Ok {| message :=
                   js "Sessão não encontrada ou expirada. Por favor, inicie uma nova sessão.";
                 reply_completed := false;
                 result := None |},
           st)).
Proof.
  split.
  - intros s. rewrite cleanup_lookup. unfold expired.
    destruct (sessions st !! sessionId) as [s0|]; [|split; [discriminate|intros [[=] _]]].
    destruct (decide (now - lastActivity s0 > 30 * 60 * 1000)%Z) as [He|He].
    + rewrite bool_decide_eq_true_2 by assumption.
      split; [discriminate|]. intros [[= <-] Hle]. lia.
    + rewrite bool_decide_eq_false_2 by assumption.
      split; [intros [= <-]; split; [reflexivity|lia] | intros [H _]; exact H].
  - intros input Hnone. unfold processInput. rewrite Hnone. reflexivity.
Qed.

Lemma C5_witness :
  sessions initial !! js "query-17-abc1234" = None
  /\ processInput Sample.connector 5 (js "query-17-abc1234") (js "contas")
       initial
     = (Ok sessionNotFound, initial).
Proof.
  split; [reflexivity|].
  exact (proj2 (C5_expiry_sweep_and_unknown_session Sample.connector 5 initial
                  (js "query-17-abc1234")) (js "contas") eq_refl).
Defined.

(** [processInput] returns a reply for every session id and input: what a
    step throws becomes a reply. *)
Lemma processInput_never_throws conn now sessionId input st :
  exists reply, (processInput conn now sessionId input st).1 = Ok reply.
Proof.
  unfold processInput.
  destruct (sessions st !! sessionId) as [s|]; [|eexists; reflexivity].
  destruct (try_catch_returns (dispatch conn input)
              (fun error => pending (js "Erro ao processar sua entrada: "
                                     ++ error))
              (set_lastActivity now s, calls st)) as [reply Hreply].
  exists reply.
  destruct (try_catch _ _ _) as [out [s2 log]]. exact Hreply.
Qed.

(** ** The confirm step *)

Lemma dispatch_confirm conn input (st : QuerySession * list Connector.Call) :
  currentStep st.1 = js "confirm" ->
  dispatch conn input st = processConfirmStep conn input st.
Proof.
  intros Hstep. unfold dispatch, mbind, Eff_bind, session.
  rewrite Hstep. reflexivity.
Qed.

(** ** The walk through the steps *)

(** One turn on a session that the store holds: the step works on the
    stored session with its [lastActivity] renewed and the outcome is
    written back. *)
Lemma processInput_turn conn now sessionId input st s out s' log :
  sessions st !! sessionId = Some s ->
  dispatch conn input (set_lastActivity now s, calls st) = (Ok out, (s', log)) ->
  processInput conn now sessionId input st
  = (Ok out, {| sessions := <[sessionId := s']> (sessions st); calls := log |}).
Proof.
  intros Hs Hd. unfold processInput. rewrite Hs.
  unfold try_catch. rewrite Hd. reflexivity.
Qed.

Lemma dispatch_entity conn input (st : QuerySession * list Connector.Call) :
  currentStep st.1 = js "entity" ->
  dispatch conn input st = processEntityStep conn input st.
Proof.
  intros H. unfold dispatch, mbind, Eff_bind, session. rewrite H. reflexivity.
Qed.

(** The entity step when the connector knows the entity. *)
Lemma turn_entity_accepts conn now sessionId input st s md :
  sessions st !! sessionId = Some s ->
  currentStep s = js "entity" ->
  Connector.getEntityMetadata conn (entityOfInput input) validationRequest
  = Ok md ->
  exists m,
    processInput conn now sessionId input st
    = (Ok (pending m),
       {| sessions :=
            <[sessionId :=
                set_currentStep (js "action")
                  (set_entity (Some (entityOfInput input))
                     (set_lastActivity now s))]> (sessions st);
          calls := calls st
                   ++ [Connector.CallGetEntityMetadata (entityOfInput input)
                         validationRequest] |}).
Proof.
  intros Hs Hstep Hmd. eexists.
  eapply processInput_turn; [exact Hs|].
  rewrite dispatch_entity by exact Hstep.
  unfold processEntityStep, try_catch, mbind, Eff_bind, call_getEntityMetadata.
  cbn [fst snd]. rewrite Hmd. reflexivity.
Qed.

(** The entity step when the connector throws. *)
Lemma turn_entity_rejects conn now sessionId input st s error :
  sessions st !! sessionId = Some s ->
  currentStep s = js "entity" ->
  Connector.getEntityMetadata conn (entityOfInput input) validationRequest
  = Throw error ->
  exists m,
    processInput conn now sessionId input st
    = (Ok (pending m),
       {| sessions := <[sessionId := set_lastActivity now s]> (sessions st);
          calls := calls st
                   ++ [Connector.CallGetEntityMetadata (entityOfInput input)
                         validationRequest] |}).
Proof.
  intros Hs Hstep Hmd. eexists.
  eapply processInput_turn; [exact Hs|].
  rewrite dispatch_entity by exact Hstep.
  unfold processEntityStep, try_catch, mbind, Eff_bind, call_getEntityMetadata.
  cbn [fst snd]. rewrite Hmd. reflexivity.
Qed.

(** Opens the monadic operations of a step handler. *)
Ltac open_step :=
  unfold mbind, Eff_bind, mret, Eff_ret, session, mutate, modify, try_catch;
  cbn [fst snd].

(** The [switch] of [processInput] selects the handler of the current
    step. *)
Lemma dispatch_step conn input (st : QuerySession * list Connector.Call) :
  dispatch conn input st
  = (if Js.eqb (currentStep st.1) (js "entity") then processEntityStep conn input
     else if Js.eqb (currentStep st.1) (js "action") then processActionStep input
     else if Js.eqb (currentStep st.1) (js "filter") then processFilterStep input
     else if Js.eqb (currentStep st.1) (js "fields") then processFieldsStep input
     else if Js.eqb (currentStep st.1) (js "orderBy")
          then processOrderByStep input
     else if Js.eqb (currentStep st.1) (js "limit") then processLimitStep input
     else if Js.eqb (currentStep st.1) (js "confirm")
          then processConfirmStep conn input
     else mret (pending (js "Erro: passo desconhecido '" ++ currentStep st.1
                         ++ js "'."))) st.
Proof. reflexivity. Qed.

(** Reduces a turn to the handler of the step [Hstep] names. *)
Ltac run_turn Hs Hstep :=
  eexists; eapply processInput_turn; [exact Hs|];
  rewrite dispatch_step; cbn [fst set_lastActivity currentStep];
  rewrite Hstep; decide_tests.

(** ['1'] at the action step. *)
Lemma turn_action_list conn now sessionId st s :
  sessions st !! sessionId = Some s ->
  currentStep s = js "action" ->
  exists m,
    processInput conn now sessionId (js "1") st
    = (Ok (pending m),
       {| sessions :=
            <[sessionId :=
                set_currentStep (js "filter")
                  (set_action (Some (js "list")) (set_lastActivity now s))]>
              (sessions st);
          calls := calls st |}).
Proof. intros Hs Hstep. run_turn Hs Hstep. reflexivity. Qed.

(** ['sem filtro'] at the filter step. *)
Lemma turn_filter_none conn now sessionId st s :
  sessions st !! sessionId = Some s ->
  currentStep s = js "filter" ->
  exists m,
    processInput conn now sessionId (js "sem filtro") st
    = (Ok (pending m),
       {| sessions :=
            <[sessionId :=
                set_currentStep (js "fields")
                  (set_filter (Some []) (set_lastActivity now s))]>
              (sessions st);
          calls := calls st |}).
Proof. intros Hs Hstep. run_turn Hs Hstep. reflexivity. Qed.

(** ['todos'] at the fields step of a listing. *)
Lemma turn_fields_all conn now sessionId st s :
  sessions st !! sessionId = Some s ->
  currentStep s = js "fields" ->
  action s = Some (js "list") ->
  exists m,
    processInput conn now sessionId (js "todos") st
    = (Ok (pending m),
       {| sessions :=
            <[sessionId :=
                set_currentStep (js "orderBy")
                  (set_fields None (set_lastActivity now s))]>
              (sessions st);
          calls := calls st |}).
Proof.
  intros Hs Hstep Hact. run_turn Hs Hstep.
  unfold processFieldsStep. decide_tests. open_step.
  cbn [set_fields set_lastActivity action]. rewrite Hact.
  decide_tests. reflexivity.
Qed.

(** ['padrão'] at the ordering step. *)
Lemma turn_orderBy_default conn now sessionId st s :
  sessions st !! sessionId = Some s ->
  currentStep s = js "orderBy" ->
  exists m,
    processInput conn now sessionId (js "padrão") st
    = (Ok (pending m),
       {| sessions :=
            <[sessionId :=
                set_currentStep (js "limit")
                  (set_orderBy (Some (js "createdon desc"))
                     (set_lastActivity now s))]>
              (sessions st);
          calls := calls st |}).
Proof. intros Hs Hstep. run_turn Hs Hstep. reflexivity. Qed.

(** ['padrão'] at the limit step. *)
Lemma turn_limit_default conn now sessionId st s :
  sessions st !! sessionId = Some s ->
  currentStep s = js "limit" ->
  exists m,
    processInput conn now sessionId (js "padrão") st
    = (Ok (pending m),
       {| sessions :=
            <[sessionId :=
                set_currentStep (js "confirm")
                  (set_limit (Some 50%Z) (set_lastActivity now s))]>
              (sessions st);
          calls := calls st |}).
Proof. intros Hs Hstep. run_turn Hs Hstep. reflexivity. Qed.

(** ['sim'] at the confirm step of a listing without filter that the
    connector answers. *)
Lemma turn_confirm_list conn now sessionId st s e records :
  sessions st !! sessionId = Some s ->
  currentStep s = js "confirm" ->
  entity s = Some e ->
  truthy e = true ->
  action s = Some (js "list") ->
  filter s = Some [] ->
  Connector.queryEntities conn e
    {| Connector.select := fields s; Connector.filter := None;
       Connector.orderBy := orderBy s; Connector.top := limit s |}
  = Ok records ->
  processInput conn now sessionId (js "sim") st
  = (Ok {| message := js "Consulta executada com sucesso!";
           reply_completed := true;
           result := Some (Records records) |},
     {| sessions :=
          <[sessionId := set_completed true (set_lastActivity now s)]>
            (sessions st);
        calls :=
          calls st
          ++ [Connector.CallQueryEntities e
                {| Connector.select := fields s; Connector.filter := None;
                   Connector.orderBy := orderBy s;
                   Connector.top := limit s |}] |}).
Proof.
  intros Hs Hstep He Htruthy Hact Hf Hq.
  eapply processInput_turn; [exact Hs|].
  rewrite dispatch_step; cbn [fst set_lastActivity currentStep].
  rewrite Hstep; decide_tests.
  unfold processConfirmStep. decide_tests. open_step.
  unfold executeQuery. cbn [set_lastActivity entity action filter].
  rewrite He, Hact, Hf.
  cbn [truthy_opt default from_option Datatypes.id]. rewrite Htruthy.
  change (truthy (js "list")) with true. cbn [negb orb]. decide_tests.
  unfold call_queryEntities, mbind, Eff_bind.
  cbn [fst snd buildODataFilter truthy_or_undefined truthy fields orderBy
       limit set_lastActivity].
  rewrite Hq. reflexivity.
Qed.

(** The entity named by an input that is not blank is not empty. *)
Lemma entityOfInput_truthy input :
  trim input <> [] -> truthy (entityOfInput input) = true.
Proof.
  intros Hne. unfold entityOfInput, or_else.
  assert (Hn : truthy (toLowerCase (trim input)) = true).
  { destruct (trim input); [congruence | reflexivity]. }
  destruct (tbl_get entityMappings (toLowerCase (trim input))) as [v|];
    [|exact Hn].
  destruct (truthy v) eqn:Hv; [exact Hv | exact Hn].
Qed.

(** C4 (amended): a session created by [startSession] is at step [entity]
    and not completed; at the entity step an input whose schema fetch throws
    leaves the step at [entity] and is answered with [completed: false];
    and from the entity step, for an input that is not blank and names an
    entity which the connector validates, the walk ['1'], ['sem filtro'], ['todos'],
    ['padrão'], ['padrão'], ['sim'] ends with [completed: true] and the
    records that the connector returns for the query. *)
Theorem C4_assistant_walk (conn : Connector.t) :
  (forall now random st,
     let run := startSession now random st in
     exists s,
       sessions run.2 !! run.1.1 = Some s
       /\ currentStep s = js "entity" /\ completed s = false)
  /\ (forall now sessionId input st s error,
        sessions st !! sessionId = Some s ->
        currentStep s = js "entity" ->
        Connector.getEntityMetadata conn (entityOfInput input)
          validationRequest = Throw error ->
        let run := processInput conn now sessionId input st in
        (exists reply,
           run.1 = Ok reply
           /\ reply_completed reply = false /\ result reply = None)
        /\ exists s',
             sessions run.2 !! sessionId = Some s'
             /\ currentStep s' = js "entity")
  /\ (forall sessionId input st s md records t1 t2 t3 t4 t5 t6 t7,
        sessions st !! sessionId = Some s ->
        currentStep s = js "entity" ->
        trim input <> [] ->
        Connector.getEntityMetadata conn (entityOfInput input)
          validationRequest = Ok md ->
        Connector.queryEntities conn (entityOfInput input)
          {| Connector.select := None; Connector.filter := None;
             Connector.orderBy := Some (js "createdon desc");
             Connector.top := Some 50%Z |}
        = Ok records ->
        let run :=
          converse conn sessionId
            [ (t1, input); (t2, js "1"); (t3, js "sem filtro");
              (t4, js "todos"); (t5, js "padrão"); (t6, js "padrão");
              (t7, js "sim") ] st in
        (exists m1 m2 m3 m4 m5 m6,
           run.1
           = [ Ok (pending m1); Ok (pending m2); Ok (pending m3);
               Ok (pending m4); Ok (pending m5); Ok (pending m6);
               Ok {| message := js "Consulta executada com sucesso!";
                     reply_completed := true;
                     result := Some (Records records) |} ])
        /\ exists s',
             sessions run.2 !! sessionId = Some s' /\ completed s' = true).
Proof.
  split; [|split].
  - intros now random st run. subst run. unfold startSession. cbn [fst snd sessions].
    eexists. rewrite lookup_insert_eq. repeat split; reflexivity.
  - intros now sessionId input st s error Hs Hstep Hmd run. subst run.
    destruct (turn_entity_rejects conn now sessionId input st s error
                Hs Hstep Hmd) as [m ->].
    cbn [fst snd sessions]. split.
    + eexists. repeat split; reflexivity.
    + eexists. rewrite lookup_insert_eq. split; [reflexivity | exact Hstep].
  - intros sessionId input st s md records t1 t2 t3 t4 t5 t6 t7
      Hs Hstep Hne Hmd Hq run.
    pose proof (entityOfInput_truthy input Hne) as Htruthy.
    destruct (turn_entity_accepts conn t1 sessionId input st s md
                Hs Hstep Hmd) as [m1 H1].
    match type of H1 with _ = (_, ?st1) =>
      destruct (turn_action_list conn t2 sessionId st1 _
                  (lookup_insert_eq _ _ _) eq_refl) as [m2 H2] end.
    match type of H2 with _ = (_, ?st2) =>
      destruct (turn_filter_none conn t3 sessionId st2 _
                  (lookup_insert_eq _ _ _) eq_refl) as [m3 H3] end.
    match type of H3 with _ = (_, ?st3) =>
      destruct (turn_fields_all conn t4 sessionId st3 _
                  (lookup_insert_eq _ _ _) eq_refl eq_refl) as [m4 H4] end.
    match type of H4 with _ = (_, ?st4) =>
      destruct (turn_orderBy_default conn t5 sessionId st4 _
                  (lookup_insert_eq _ _ _) eq_refl) as [m5 H5] end.
    match type of H5 with _ = (_, ?st5) =>
      destruct (turn_limit_default conn t6 sessionId st5 _
                  (lookup_insert_eq _ _ _) eq_refl) as [m6 H6] end.
    match type of H6 with _ = (_, ?st6) =>
      pose proof (turn_confirm_list conn t7 sessionId st6 _
                    (entityOfInput input) records
                    (lookup_insert_eq _ _ _) eq_refl eq_refl Htruthy
                    eq_refl eq_refl Hq) as H7 end.
    subst run. unfold converse.
    rewrite H1, H2, H3, H4, H5, H6, H7. cbn [fst snd sessions].
    split.
    + exists m1, m2, m3, m4, m5, m6. reflexivity.
    + eexists. rewrite lookup_insert_eq. split; reflexivity.
Qed.

(** C4 as first stated fails for a blank entity input: the connector of the
    simulation mode validates the empty name, and the walk then ends at the
    confirm step with [completed: false] and no result. *)
Lemma C4_counterexample :
  let sessionId := js "query-17-abc1234" in
  let input := js "  " in
  (exists s,
     sessions Sample.started !! sessionId = Some s
     /\ currentStep s = js "entity")
  /\ (exists md,
        Connector.getEntityMetadata Sample.connector (entityOfInput input)
          validationRequest = Ok md)
  /\ (exists records,
        Connector.queryEntities Sample.connector (entityOfInput input)
          {| Connector.select := None; Connector.filter := None;
             Connector.orderBy := Some (js "createdon desc");
             Connector.top := Some 50%Z |}
        = Ok records)
  /\ exists reply,
       last (converse Sample.connector sessionId (Sample.walk input)
               Sample.started).1
       = Some (Ok reply)
       /\ reply_completed reply = false /\ result reply = None.
Proof.
  cbv zeta. split; [|split; [|split]].
  - eexists. split; [vm_compute; reflexivity | reflexivity].
  - eexists. reflexivity.
  - eexists. reflexivity.
  - eexists. split; [vm_compute; reflexivity | split; reflexivity].
Qed.

Lemma C4_witness :
  exists m1 m2 m3 m4 m5 m6,
    (converse Sample.connector (js "query-17-abc1234")
       (Sample.walk (js "Contas")) Sample.started).1
    = [ Ok (pending m1); Ok (pending m2); Ok (pending m3);
        Ok (pending m4); Ok (pending m5); Ok (pending m6);
        Ok {| message := js "Consulta executada com sucesso!";
              reply_completed := true;
              result := Some (Records Sample.accounts) |} ].
Proof.
  refine (proj1 (proj2 (proj2 (C4_assistant_walk Sample.connector))
                   (js "query-17-abc1234") (js "Contas") Sample.started
                   _ (Some (Sample.document (js "accounts"))) Sample.accounts
                   100 200 300 400 500 600 700 _ _ _ _ _)%Z).
  - vm_compute. reflexivity.
  - reflexivity.
  - discriminate.
  - reflexivity.
  - reflexivity.
Defined.

End QueryAssistantFacts.

(* ===================================================================== *)
(** * Properties of splitting *)
(* ===================================================================== *)

Section TokenFacts.

(** A match of [p+] consumes a code unit. *)
Lemma matches_plus_shorter whole p s s' :
  matches whole (rplus p) s s' -> (length s' < length s)%nat.
Proof.
  unfold rplus. intros H.
  apply matches_seq_inv in H as [s1 [H1 H2]].
  apply matches_char_inv in H1 as [c [-> _]].
  apply matches_suffix, suffix_length in H2. cbn [length]. lia.
Qed.

Lemma match_here_plus_shorter whole p s rest cs :
  match_here (rplus p) whole s = Some (rest, cs) ->
  (length rest < length s)%nat.
Proof.
  unfold match_here. intros H.
  apply rmatch_sound in H as [s' [cs' [Hm Hk]]].
  injection Hk as -> _. exact (matches_plus_shorter _ _ _ _ Hm).
Qed.

(** [p+] matches at a code unit that satisfies [p]. *)
Lemma match_here_plus_found whole p c s :
  p c = true -> match_here (rplus p) whole (c :: s) <> None.
Proof.
  intros Hc. unfold match_here.
  apply (rmatch_complete whole (rplus p) (c :: s) s); [|discriminate].
  unfold rplus. econstructor; [constructor; exact Hc | constructor].
Qed.

(** The pieces of a split hold no code unit at which the separator always
    matches, when a match of the separator is never empty. *)
Lemma split_loop_pieces r (p : N -> bool) whole s :
  (forall t rest cs,
     match_here r whole t = Some (rest, cs) -> (length rest < length t)%nat) ->
  (forall c t, p c = true -> match_here r whole (c :: t) <> None) ->
  forall piece skip,
    Forall (fun c => p c = false) piece ->
    Forall (Forall (fun c => p c = false))
      (split_loop r whole s piece skip).
Proof.
  intros Hshort Hfound.
  induction s as [|c s IH]; intros piece skip Hpiece; cbn [split_loop].
  - constructor; [|constructor]. apply Forall_rev. exact Hpiece.
  - destruct skip as [|n]; [|apply IH; exact Hpiece].
    destruct (match_here r whole (c :: s)) as [[rest cs]|] eqn:Hm.
    + apply Hshort in Hm.
      destruct (length (c :: s) - length rest)%nat as [|n] eqn:Hlen; [lia|].
      constructor; [apply Forall_rev; exact Hpiece|].
      apply IH. constructor.
    + apply IH. constructor; [|exact Hpiece].
      destruct (p c) eqn:Hc; [|reflexivity].
      exfalso. exact (Hfound c s Hc Hm).
Qed.

Lemma split_pieces r (p : N -> bool) s :
  (forall t rest cs,
     match_here r s t = Some (rest, cs) -> (length rest < length t)%nat) ->
  (forall c t, p c = true -> match_here r s (c :: t) <> None) ->
  Forall (Forall (fun c => p c = false)) (split r s).
Proof.
  intros Hshort Hfound. unfold split. destruct s as [|c s].
  - destruct (match_here r [] []); repeat constructor.
  - apply split_loop_pieces; [exact Hshort | exact Hfound | constructor].
Qed.

(** The pieces of a split at [p+] hold no code unit that satisfies [p]. *)
Lemma split_plus_pieces p s :
  Forall (Forall (fun c => p c = false)) (split (rplus p) s).
Proof.
  apply split_pieces.
  - intros t rest cs. apply match_here_plus_shorter.
  - intros c t. apply match_here_plus_found.
Qed.

(** The pieces of a split at one code unit do not hold it. *)
Lemma split_char_pieces p s :
  Forall (Forall (fun c => p c = false)) (split (RChar p) s).
Proof.
  apply split_pieces.
  - intros [|c t] rest cs; unfold match_here; cbn [rmatch]; [discriminate|].
    destruct (p c); [|discriminate].
    intros [= <- _]. cbn [length]. lia.
  - intros c t Hc. unfold match_here. cbn [rmatch]. rewrite Hc. discriminate.
Qed.

(** A split yields at least one piece, for a text that is not empty. *)
Lemma split_loop_nonempty r whole s piece skip :
  split_loop r whole s piece skip <> [].
Proof.
  revert piece skip. induction s as [|c s IH]; intros piece skip;
    cbn [split_loop]; [discriminate|].
  destruct skip as [|n]; [|apply IH].
  destruct (match_here r whole (c :: s)) as [[rest cs]|]; [|apply IH].
  destruct (length (c :: s) - length rest)%nat as [|n];
    [destruct piece; [apply IH | discriminate] | discriminate].
Qed.

Lemma join_cons (sep a : jsstring) (l : list jsstring) :
  l <> [] -> join sep (a :: l) = a ++ sep ++ join sep l.
Proof. destruct l; [congruence | reflexivity]. Qed.

(** The pieces of a split at one code unit, joined with it, give the text
    back. *)
Lemma split_loop_char_join (sep : N) whole s :
  forall piece,
    join [sep] (split_loop (RChar (fun c => (c =? sep)%N)) whole s piece 0)
    = rev piece ++ s.
Proof.
  induction s as [|c s IH]; intros piece; cbn [split_loop].
  - cbn [join]. rewrite app_nil_r. reflexivity.
  - unfold match_here. cbn [rmatch].
    destruct (N.eqb_spec c sep) as [->|Hne].
    + cbn [length]. rewrite Nat.sub_succ_l, Nat.sub_diag by lia.
      rewrite join_cons by apply split_loop_nonempty.
      rewrite IH. reflexivity.
    + rewrite IH. cbn [rev]. rewrite <- app_assoc. reflexivity.
Qed.

Lemma split_char_join (sep : N) s :
  join [sep] (split (RChar (fun c => (c =? sep)%N)) s) = s.
Proof.
  unfold split. destruct s as [|c s]; [reflexivity|].
  apply (split_loop_char_join sep (c :: s) (c :: s) []).
Qed.

(** The pieces of a split are made of code units of the text. *)
Lemma split_loop_units (P : N -> Prop) r whole s :
  forall piece skip,
    Forall P s -> Forall P piece ->
    Forall (Forall P) (split_loop r whole s piece skip).
Proof.
  induction s as [|c s IH]; intros piece skip Hs Hpiece; cbn [split_loop].
  - constructor; [|constructor]. apply Forall_rev. exact Hpiece.
  - apply Forall_cons in Hs as [Hc Hs].
    destruct skip as [|n]; [|apply IH; assumption].
    destruct (match_here r whole (c :: s)) as [[rest cs]|].
    + destruct (length (c :: s) - length rest)%nat as [|n].
      * destruct piece as [|d piece].
        -- apply IH; [exact Hs | constructor; [exact Hc | constructor]].
        -- constructor; [apply Forall_rev; exact Hpiece|].
           apply IH; [exact Hs | constructor; [exact Hc | constructor]].
      * constructor; [apply Forall_rev; exact Hpiece|].
        apply IH; [exact Hs | constructor].
    + apply IH; [exact Hs | constructor; assumption].
Qed.

Lemma split_units (P : N -> Prop) r s :
  Forall P s -> Forall (Forall P) (split r s).
Proof.
  intros Hs. unfold split. destruct s as [|c s].
  - destruct (match_here r [] []); repeat constructor.
  - apply split_loop_units; [exact Hs | constructor].
Qed.

End TokenFacts.

(* ===================================================================== *)
(** * More of the metadata service *)
(* ===================================================================== *)

Section MetadataExplorerCoverage.
Import MetadataExplorer.

(** What [getEntityDetails] does, by cases: a load through the connector
    when the cache does not serve the request, the cached entry otherwise. *)
Lemma getEntityDetails_run conn now entityName options st :
  getEntityDetails conn now entityName options st
  = let key := normalizeEntityName entityName in
    let request := metadataRequest options in
    let failure reason :=
      Throw (js "Falha ao obter detalhes da entidade " ++ entityName
             ++ js ": " ++ reason) in
    if needsLoad now key options (cache st) then
      let st1 :=
        {| cache := cache st;
           calls := calls st ++ [Connector.CallGetEntityMetadata key request] |} in
      match Connector.getEntityMetadata conn key request with
      | Ok (Some md) =>
          (Ok (entityOfMetadata options md),
           store_entity now key (entityOfMetadata options md) st1)
      | Ok None =>
          (failure (js "Falha ao carregar detalhes da entidade " ++ key
                    ++ js ": "
                    ++ (js "Metadados para '" ++ key
                        ++ js "' não retornados pelo dynamicsService.")),
           st1)
      | Throw m =>
          (failure (js "Falha ao carregar detalhes da entidade " ++ key
                    ++ js ": " ++ m),
           st1)
      end
    else
      match entities (cache st) !! key with
      | Some e => (Ok e, st)
      | None =>
          (failure (js "Entidade '" ++ entityName ++ js "' (normalizada: "
                    ++ key
                    ++ js ") não encontrada no cache após tentativa de carregamento."),
           st)
      end.
Proof.
  cbv zeta.
  unfold getEntityDetails, try_catch, mbind, Eff_bind, get.
  destruct (needsLoad now (normalizeEntityName entityName) options (cache st));
    cbv beta iota.
  - rewrite loadEntityDetails_run. cbv zeta.
    destruct (Connector.getEntityMetadata conn _ _) as [[md|]|m];
      try reflexivity.
    unfold store_entity. cbn [cache entities].
    rewrite lookup_insert_eq. reflexivity.
  - unfold mret, Eff_ret.
    destruct (entities (cache st) !! normalizeEntityName entityName);
      reflexivity.
Qed.


(** X1: when [getEntityDetails] throws, the cache is as it was before the
    call (entries and time stamp), and the message starts with
    [Falha ao obter detalhes da entidade] and the name as the caller wrote
    it. *)
Theorem getEntityDetails_failure_keeps_cache
    (conn : Connector.t) (now : Z) (entityName : jsstring)
    (options : Options) (st : State) (error : jsstring) :
  (getEntityDetails conn now entityName options st).1 = Throw error ->
  cache (getEntityDetails conn now entityName options st).2 = cache st
  /\ exists reason,
       error = js "Falha ao obter detalhes da entidade " ++ entityName
               ++ js ": " ++ reason.
Proof.
  rewrite getEntityDetails_run. cbv zeta.
  destruct (needsLoad now (normalizeEntityName entityName) options (cache st)).
  - destruct (Connector.getEntityMetadata conn _ _) as [[md|]|m];
      cbn [fst snd cache]; intros [= <-];
      (split; [reflexivity | eexists; reflexivity]).
  - destruct (entities (cache st) !! normalizeEntityName entityName);
      cbn [fst snd]; intros [= <-].
    split; [reflexivity | eexists; reflexivity].
Qed.

Lemma getEntityDetails_failure_keeps_cache_witness :
  let run :=
    getEntityDetails Sample.unreachable 5000000 (js "Accounts")
      Sample.withAttributes Sample.refreshed in
  (exists error, run.1 = Throw error)
  /\ cache run.2 = cache Sample.refreshed.
Proof.
  cbv zeta.
  assert (H : exists error,
             (getEntityDetails Sample.unreachable 5000000 (js "Accounts")
                Sample.withAttributes Sample.refreshed).1 = Throw error).
  { vm_compute. eexists. reflexivity. }
  split; [exact H|].
  destruct H as [error H].
  exact (proj1 (getEntityDetails_failure_keeps_cache _ _ _ _ _ error H)).
Defined.

(** The cache does not ask for a load when it holds a fresh entry that
    answers the options. *)
Lemma needsLoad_false now key options c e :
  entities c !! key = Some e ->
  (now - lastUpdated c <= 3600000)%Z ->
  refresh options <> Some true ->
  (includeAttributes options = Some true -> MetadataEntity.attributes e <> []) ->
  (includeOptionSets options = Some true ->
   exists a, In a (MetadataEntity.attributes e)
             /\ MetadataAttribute.optionSet a <> None) ->
  needsLoad now key options c = false.
Proof.
  intros He Hfresh Hrefresh Hattrs Hsets.
  unfold needsLoad, isCacheExpired, cacheExpirationMs. rewrite He.
  assert (H1 : is_set (refresh options) = false).
  { destruct (refresh options) as [[|]|]; [congruence | reflexivity..]. }
  assert (H2 : (now - lastUpdated c >? 3600000)%Z = false).
  { destruct (Z.gtb_spec (now - lastUpdated c) 3600000); [lia | reflexivity]. }
  rewrite H1, H2. cbn [orb].
  assert (H3 : is_set (includeAttributes options)
               && Nat.eqb (length (MetadataEntity.attributes e)) 0 = false).
  { destruct (includeAttributes options) as [[|]|]; try reflexivity.
    specialize (Hattrs eq_refl).
    destruct (MetadataEntity.attributes e); [congruence | reflexivity]. }
  rewrite H3. cbn [orb].
  destruct (includeOptionSets options) as [[|]|]; try reflexivity.
  destruct (Hsets eq_refl) as [a [Hin Ha]].
  cbn [is_set andb]. apply negb_false_iff, existsb_exists.
  exists a. split; [exact Hin|].
  destruct (MetadataAttribute.optionSet a); [reflexivity | congruence].
Qed.

(** X2: [getEntityDetails] answers from the cache, without a call of the
    connector and without a change of its state, when the entry of the
    normalised name is there, the cache was written at most one hour ago,
    no refresh is asked for, and the entry has attributes (an attribute with
    an option set) when the options ask for them. *)
Theorem getEntityDetails_serves_from_cache
    (conn : Connector.t) (now : Z) (entityName : jsstring)
    (options : Options) (st : State) (e : MetadataEntity.t) :
  entities (cache st) !! normalizeEntityName entityName = Some e ->
  (now - lastUpdated (cache st) <= 3600000)%Z ->
  refresh options <> Some true ->
  (includeAttributes options = Some true -> MetadataEntity.attributes e <> []) ->
  (includeOptionSets options = Some true ->
   exists a, In a (MetadataEntity.attributes e)
             /\ MetadataAttribute.optionSet a <> None) ->
  getEntityDetails conn now entityName options st = (Ok e, st).
Proof.
  intros He Hfresh Hrefresh Hattrs Hsets.
  rewrite getEntityDetails_run. cbv zeta.
  rewrite (needsLoad_false now _ options (cache st) e
             He Hfresh Hrefresh Hattrs Hsets), He.
  reflexivity.
Qed.

(** The same for options that ask for no attributes and no option sets. *)
Lemma cached_entry_is_served conn now entityName options st e :
  entities (cache st) !! normalizeEntityName entityName = Some e ->
  (now - lastUpdated (cache st) <= 3600000)%Z ->
  refresh options <> Some true ->
  includeAttributes options <> Some true ->
  includeOptionSets options <> Some true ->
  getEntityDetails conn now entityName options st = (Ok e, st).
Proof.
  intros He Hfresh Hrefresh Hattrs Hsets.
  rewrite getEntityDetails_run. cbv zeta.
  rewrite (needsLoad_false now _ options (cache st) e He Hfresh Hrefresh), He;
    [reflexivity | congruence | congruence].
Qed.

Lemma getEntityDetails_serves_from_cache_witness :
  getEntityDetails Sample.unreachable 3601000 (js "ACCOUNTS")
    (refreshOption false) Sample.refreshed
  = (Ok (Sample.bareEntry (js "account")), Sample.refreshed).
Proof.
  apply getEntityDetails_serves_from_cache.
  - vm_compute. reflexivity.
  - vm_compute. discriminate.
  - discriminate.
  - discriminate.
  - discriminate.
Defined.

(** What [getEntityAttributes] and [getEntityRelationships] make of the
    outcome of [getEntityDetails]. *)
Lemma getEntityAttributes_run conn now entityName refresh st :
  getEntityAttributes conn now entityName refresh st
  = match getEntityDetails conn now entityName (refreshOption refresh) st with
    | (Ok entity, st') => (Ok (MetadataEntity.attributes entity), st')
    | (Throw e, st') => (Throw e, st')
    end.
Proof. reflexivity. Qed.

Lemma getEntityRelationships_run conn now entityName refresh st :
  getEntityRelationships conn now entityName refresh st
  = match getEntityDetails conn now entityName (refreshOption refresh) st with
    | (Ok entity, st') => (Ok (MetadataEntity.relationships entity), st')
    | (Throw e, st') => (Throw e, st')
    end.
Proof. reflexivity. Qed.

(** X3: [getEntityAttributes] never returns attributes that its own call
    fetched: for a name that is not a member of [Object.prototype], either
    the connector was asked (for the normalised name, once) and the list is
    empty, or no refresh was asked for, nothing changed, and the list is the
    one of the entry that the cache already held. *)
Theorem getEntityAttributes_never_fetches
    (conn : Connector.t) (now : Z) (entityName : jsstring) (refresh : bool)
    (st : State) (attrs : list MetadataAttribute.t) :
  inherited (normalizeEntityName entityName) = None ->
  (getEntityAttributes conn now entityName refresh st).1 = Ok attrs ->
  let run := getEntityAttributes conn now entityName refresh st in
  (attrs = []
   /\ calls run.2
      = calls st
        ++ [Connector.CallGetEntityMetadata (normalizeEntityName entityName)
              (metadataRequest (refreshOption refresh))])
  \/ (refresh = false
      /\ run.2 = st
      /\ exists e,
           entities (cache st) !! normalizeEntityName entityName = Some e
           /\ MetadataEntity.attributes e = attrs).
Proof.
  intros _. cbv zeta.
  rewrite getEntityAttributes_run, getEntityDetails_run. cbv zeta.
  destruct (needsLoad now (normalizeEntityName entityName)
              (refreshOption refresh) (cache st)) eqn:Hneed.
  - destruct (Connector.getEntityMetadata conn _ _) as [[md|]|m];
      cbn [fst snd]; intros [= <-].
    left. split; [|reflexivity].
    unfold entityOfMetadata. cbn [MetadataEntity.attributes].
    destruct (Connector.Attributes md); reflexivity.
  - destruct (entities (cache st) !! normalizeEntityName entityName) as [e|]
      eqn:He; cbn [fst snd]; intros [= <-].
    right. split.
    + unfold needsLoad in Hneed. destruct refresh; [discriminate | reflexivity].
    + split; [reflexivity|]. exists e. split; reflexivity.
Qed.

Lemma getEntityAttributes_never_fetches_witness :
  let run :=
    getEntityAttributes Sample.connector 2000 (js "contact") true
      Sample.refreshed in
  run.1 = Ok []
  /\ calls run.2
     = [Connector.CallGetEntityMetadata (js "contact")
          (metadataRequest (refreshOption true))].
Proof.
  cbv zeta.
  assert (H : (getEntityAttributes Sample.connector 2000 (js "contact") true
                 Sample.refreshed).1 = Ok []).
  { vm_compute. reflexivity. }
  split; [exact H|].
  destruct (getEntityAttributes_never_fetches Sample.connector 2000
              (js "contact") true Sample.refreshed [] eq_refl H)
    as [[_ Hcalls] | [Hrefresh _]].
  - exact Hcalls.
  - discriminate Hrefresh.
Defined.

(** A refresh always loads. *)
Lemma needsLoad_refresh now key options c :
  refresh options = Some true -> needsLoad now key options c = true.
Proof. intros H. unfold needsLoad. rewrite H. reflexivity. Qed.

(** X4: [getEntityRelationships] with [refresh] returns the relationships of
    the connector's document, many-to-one first, then one-to-many, then
    many-to-many; the entry that it writes has no attributes, whatever the
    cache held and the document lists, so that for the next hour
    [getEntityAttributes] answers with the empty list and asks nobody. *)
Theorem getEntityRelationships_reload_drops_attributes
    (conn : Connector.t) (now : Z) (entityName : jsstring) (st : State)
    (md : Connector.RawEntity) :
  Connector.getEntityMetadata conn (normalizeEntityName entityName)
    (metadataRequest (refreshOption true)) = Ok (Some md) ->
  let run := getEntityRelationships conn now entityName true st in
  run.1
  = Ok (mapRelationships ManyToOne (Connector.ManyToOneRelationships md)
        ++ mapRelationships OneToMany (Connector.OneToManyRelationships md)
        ++ mapRelationships ManyToMany (Connector.ManyToManyRelationships md))
  /\ (exists e,
        entities (cache run.2) !! normalizeEntityName entityName = Some e
        /\ MetadataEntity.attributes e = [])
  /\ forall now',
       (now' - now <= 3600000)%Z ->
       getEntityAttributes conn now' entityName false run.2 = (Ok [], run.2).
Proof.
  intros Hmd. cbv zeta.
  rewrite getEntityRelationships_run, getEntityDetails_run. cbv zeta.
  rewrite (needsLoad_refresh now _ (refreshOption true) (cache st) eq_refl), Hmd.
  cbn [fst snd].
  assert (Hattrs : MetadataEntity.attributes
                     (entityOfMetadata (refreshOption true) md) = []).
  { unfold entityOfMetadata. cbn [MetadataEntity.attributes].
    destruct (Connector.Attributes md); reflexivity. }
  assert (Hentry :
    entities
      (cache
         (store_entity now (normalizeEntityName entityName)
            (entityOfMetadata (refreshOption true) md)
            {| cache := cache st;
               calls := calls st
                        ++ [Connector.CallGetEntityMetadata
                              (normalizeEntityName entityName)
                              (metadataRequest (refreshOption true))] |}))
    !! normalizeEntityName entityName
    = Some (entityOfMetadata (refreshOption true) md)).
  { unfold store_entity. cbn [cache entities]. apply lookup_insert_eq. }
  split; [reflexivity|]. split.
  - eexists. split; [exact Hentry | exact Hattrs].
  - intros now' Hfresh.
    rewrite getEntityAttributes_run.
    rewrite (cached_entry_is_served conn now' entityName
               (refreshOption false) _ _ Hentry); [rewrite Hattrs; reflexivity|..].
    + unfold store_entity. cbn [cache lastUpdated]. exact Hfresh.
    + discriminate.
    + discriminate.
    + discriminate.
Qed.

Lemma getEntityRelationships_reload_drops_attributes_witness :
  let run :=
    getEntityRelationships Sample.connector 2000 (js "Accounts") true
      MetadataExplorer.initial in
  run.1 = Ok []
  /\ getEntityAttributes Sample.connector 3000 (js "Accounts") false run.2
     = (Ok [], run.2).
Proof.
  cbv zeta.
  destruct (getEntityRelationships_reload_drops_attributes Sample.connector
              2000 (js "Accounts") MetadataExplorer.initial
              (Sample.document (js "account")) eq_refl) as [Hrun [_ Hnext]].
  split; [exact Hrun|].
  apply Hnext. vm_compute. discriminate.
Defined.

(** X5: [getAttributeDetails] describes an attribute exactly as
    [getEntityDetails] describes it in the list of an entity (the same
    display-name fall-backs, required levels, option-set rule and option
    labels); when the connector answers with nothing or throws, it throws a
    message that starts with [Falha ao obter detalhes do atributo] and the
    two names joined by a dot. *)
Theorem getAttributeDetails_maps_like_entity_details
    (getAttributeMetadata :
       jsstring -> jsstring -> option bool -> option (list jsstring) ->
       Outcome (option Connector.RawAttribute))
    (entity attribute : jsstring) (options : Options) :
  getAttributeDetails getAttributeMetadata entity attribute options
  = match getAttributeMetadata entity attribute (includeOptionSets options)
            (selectAttributeProperties options) with
    | Ok (Some document) => Ok (mapAttribute options document)
    | Ok None =>
        Throw (js "Falha ao obter detalhes do atributo " ++ entity ++ js "."
               ++ attribute ++ js ": "
               ++ (js "Atributo '" ++ attribute
                   ++ js "' não encontrado na entidade '" ++ entity
                   ++ js "' via dynamicsService."))
    | Throw message =>
        Throw (js "Falha ao obter detalhes do atributo " ++ entity ++ js "."
               ++ attribute ++ js ": " ++ message)
    end.
Proof.
  unfold getAttributeDetails. cbv zeta.
  destruct (getAttributeMetadata entity attribute (includeOptionSets options)
              (selectAttributeProperties options)) as [[document|]|message];
    try reflexivity.
  unfold mapAttribute, isRequiredLevel, hasOptionSetType, mapOption.
  f_equal. f_equal.
  destruct (includeOptionSets options) as [[|]|],
           (Connector.attr_OptionSet document) as [optionSet|];
    reflexivity.
Qed.

(** ** The entity list *)

Lemma refreshEntityCache_run now entityDefinitions st :
  refreshEntityCache now entityDefinitions st
  = let log :=
      calls st
      ++ [Connector.CallQueryEntities (js "EntityDefinitions")
            definitionsRequest] in
    match entityDefinitions definitionsRequest with
    | Ok result =>
        (Ok tt,
         {| cache := {| entities := basicEntries result; lastUpdated := now |};
            calls := log |})
    | Throw m =>
        (Throw (js "Falha ao atualizar cache de entidades: " ++ m),
         {| cache := cache st; calls := log |})
    end.
Proof.
  unfold refreshEntityCache, try_catch, mbind, Eff_bind, call_entityDefinitions.
  destruct (entityDefinitions definitionsRequest); reflexivity.
Qed.

Lemma listEntities_run now entityDefinitions refresh st :
  listEntities now entityDefinitions refresh st
  = if refresh || isCacheExpired now (cache st) then
      match refreshEntityCache now entityDefinitions st with
      | (Ok _, st') =>
          (Ok (map (fun entry => summary entry.2)
                 (map_to_list (entities (cache st')))), st')
      | (Throw m, st') =>
          (Throw (js "Falha ao listar entidades: " ++ m), st')
      end
    else
      (Ok (map (fun entry => summary entry.2)
             (map_to_list (entities (cache st)))), st).
Proof.
  unfold listEntities, try_catch, mbind, Eff_bind, get.
  destruct (refresh || isCacheExpired now (cache st)); cbv beta iota.
  - destruct (refreshEntityCache now entityDefinitions st) as [[[]|m] st'];
      reflexivity.
  - reflexivity.
Qed.

(** An entry of the map that the loop of [refreshEntityCache] builds comes
    from a record of the list, under its logical name. *)
Lemma basicEntries_fold_lookup (result : list Connector.RawEntity) :
  forall (m : gmap jsstring MetadataEntity.t) k e,
    fold_left
      (fun entities entity =>
         <[Connector.LogicalName entity := basicEntry entity]> entities)
      result m !! k = Some e ->
    m !! k = Some e
    \/ exists d, In d result /\ k = Connector.LogicalName d /\ e = basicEntry d.
Proof.
  induction result as [|d result IH]; intros m k e H; cbn [fold_left] in H.
  - left. exact H.
  - apply IH in H as [H | [d' [Hin [Hk He]]]].
    + destruct (decide (k = Connector.LogicalName d)) as [->|Hne].
      * rewrite lookup_insert_eq in H. injection H as <-.
        right. exists d. split; [left; reflexivity | split; reflexivity].
      * rewrite lookup_insert_ne in H by congruence. left. exact H.
    + right. exists d'. split; [right; exact Hin | split; assumption].
Qed.

(** X6: [listEntities] with [refresh] asks the connector once for the
    entity definitions (seven properties, at most 500 records).  When the
    connector answers, the cache holds nothing but entries made from the
    records, each under its logical name and without attributes and
    relationships (what [getEntityDetails] had cached is gone), and the time
    stamp is renewed; when the connector throws, the cache is as it was and
    the message says [Falha ao listar entidades: Falha ao atualizar cache de
    entidades:] and the connector's message. *)
Theorem listEntities_refresh_rewrites_cache
    (now : Z)
    (entityDefinitions :
       Connector.QueryOptions -> Outcome (list Connector.RawEntity))
    (st : State) :
  let run := listEntities now entityDefinitions true st in
  calls run.2
  = calls st
    ++ [Connector.CallQueryEntities (js "EntityDefinitions")
          {| Connector.select :=
               Some (map js
                       [ "LogicalName"; "DisplayName"; "DisplayCollectionName";
                         "Description"; "PrimaryIdAttribute";
                         "PrimaryNameAttribute"; "IsCustomEntity" ]%string);
             Connector.filter := None;
             Connector.orderBy := None;
             Connector.top := Some 500%Z |}]
  /\ match entityDefinitions definitionsRequest with
     | Ok result =>
         (exists l, run.1 = Ok l)
         /\ lastUpdated (cache run.2) = now
         /\ forall k e,
              entities (cache run.2) !! k = Some e ->
              MetadataEntity.attributes e = []
              /\ MetadataEntity.relationships e = []
              /\ exists d,
                   In d result /\ k = Connector.LogicalName d
                   /\ e = basicEntry d
     | Throw m =>
         run.1
         = Throw (js "Falha ao listar entidades: "
                  ++ (js "Falha ao atualizar cache de entidades: " ++ m))
         /\ cache run.2 = cache st
     end.
Proof.
  cbv zeta. rewrite listEntities_run, refreshEntityCache_run.
  cbn [orb]. cbv zeta.
  destruct (entityDefinitions definitionsRequest) as [result|m];
    cbn [fst snd cache calls entities lastUpdated].
  - split; [reflexivity|]. split; [eexists; reflexivity|].
    split; [reflexivity|].
    intros k e H. unfold basicEntries in H.
    apply basicEntries_fold_lookup in H as [H | [d [Hin [Hk He]]]].
    + rewrite lookup_empty in H. discriminate H.
    + subst e. split; [reflexivity|]. split; [reflexivity|].
      exists d. split; [exact Hin | split; [exact Hk | reflexivity]].
  - split; [reflexivity|]. split; reflexivity.
Qed.

(** X7: the cache has one time stamp, which a load of one entity renews.
    After [getEntityDetails] has loaded an entity, [listEntities] without
    [refresh] asks the connector for nothing during the next hour and
    answers from the cache as it is; when the cache was empty before the
    load (and the name is no member of [Object.prototype]) the list is the
    one entity just loaded. *)
Theorem listEntities_after_one_load
    (conn : Connector.t)
    (entityDefinitions :
       Connector.QueryOptions -> Outcome (list Connector.RawEntity))
    (now now' : Z) (entityName : jsstring) (options : Options)
    (st st' : State) (e : MetadataEntity.t) :
  getEntityDetails conn now entityName options st = (Ok e, st') ->
  calls st' <> calls st ->
  (now' - now <= 3600000)%Z ->
  let run := listEntities now' entityDefinitions false st' in
  run.2 = st'
  /\ (entities (cache st) = ∅ ->
      inherited (normalizeEntityName entityName) = None ->
      run.1 = Ok [summary e]).
Proof.
  intros Hrun Hcalls Hfresh. cbv zeta.
  rewrite getEntityDetails_run in Hrun. cbv zeta in Hrun.
  destruct (needsLoad now (normalizeEntityName entityName) options (cache st)).
  - destruct (Connector.getEntityMetadata conn _ _) as [[md|]|m];
      try discriminate Hrun.
    injection Hrun as <- <-.
    rewrite listEntities_run.
    assert (Hexp : isCacheExpired now'
                     (cache
                        (store_entity now (normalizeEntityName entityName)
                           (entityOfMetadata options md)
                           {| cache := cache st;
                              calls := calls st
                                       ++ [Connector.CallGetEntityMetadata
                                             (normalizeEntityName entityName)
                                             (metadataRequest options)] |}))
                   = false).
    { unfold isCacheExpired, store_entity, cacheExpirationMs.
      cbn [cache lastUpdated].
      destruct (Z.gtb_spec (now' - now) 3600000); [lia | reflexivity]. }
    rewrite Hexp. cbn [orb fst snd].
    split; [reflexivity|].
    intros Hempty _. unfold store_entity. cbn [cache entities].
    rewrite Hempty, insert_empty, map_to_list_singleton. reflexivity.
  - destruct (entities (cache st) !! normalizeEntityName entityName);
      [|discriminate Hrun].
    injection Hrun as <- <-. contradiction.
Qed.

Lemma listEntities_after_one_load_witness :
  exists e st',
    getEntityDetails Sample.connector 5000000 (js "Contacts")
      Sample.withAttributes MetadataExplorer.initial = (Ok e, st')
    /\ listEntities 6000000 (fun _ => Throw (js "Network Error")) false st'
       = (Ok [summary e], st').
Proof.
  destruct (getEntityDetails Sample.connector 5000000 (js "Contacts")
              Sample.withAttributes MetadataExplorer.initial) as [out st']
    eqn:Hrun.
  assert (Hout : exists e, out = Ok e).
  { apply (f_equal fst) in Hrun. cbn [fst] in Hrun. subst out.
    vm_compute. eexists. reflexivity. }
  destruct Hout as [e ->].
  assert (Hcalls : calls st' <> calls MetadataExplorer.initial).
  { apply (f_equal snd) in Hrun. cbn [snd] in Hrun. subst st'.
    vm_compute. discriminate. }
  exists e, st'. split; [reflexivity|].
  destruct (listEntities_after_one_load Sample.connector
              (fun _ => Throw (js "Network Error")) 5000000 6000000
              (js "Contacts") Sample.withAttributes MetadataExplorer.initial
              st' e Hrun Hcalls ltac:(vm_compute; discriminate))
    as [Hstate Hlist].
  specialize (Hlist eq_refl eq_refl).
  destruct (listEntities 6000000 _ false st') as [out' st''].
  cbn [fst snd] in Hstate, Hlist. subst. reflexivity.
Defined.

(** ** Searching *)

Lemma startsWith_prefix (s p : jsstring) :
  startsWith s p = true <-> exists rest, s = p ++ rest.
Proof.
  revert s. induction p as [|a p IH]; intros s.
  - destruct s; (split; [intros _; eexists; reflexivity | reflexivity]).
  - destruct s as [|b s]; cbn [startsWith].
    + split; [discriminate | intros [rest H]; discriminate H].
    + rewrite andb_true_iff, N.eqb_eq, IH. split.
      * intros [-> [rest ->]]. exists rest. reflexivity.
      * intros [rest H]. injection H as -> ->.
        split; [reflexivity | eexists; reflexivity].
Qed.

(** [includes_text s t] says that [t] occurs in [s]. *)
Lemma includes_text_occurs (s t : jsstring) :
  includes_text s t = true <-> exists before after, s = before ++ t ++ after.
Proof.
  induction s as [|c s IH]; cbn [includes_text];
    rewrite orb_true_iff, startsWith_prefix.
  - split.
    + intros [[rest H] | H]; [|discriminate H].
      exists [], rest. exact H.
    + intros [before [after H]]. left.
      destruct before; [|discriminate H]. exists after. exact H.
  - rewrite IH. split.
    + intros [[rest H] | [before [after H]]].
      * exists [], rest. exact H.
      * exists (c :: before), after. rewrite H. reflexivity.
    + intros [[|b before] [after H]].
      * left. exists after. exact H.
      * right. injection H as -> ->. exists before, after. reflexivity.
Qed.

(** X8: [searchAttributes] keeps, in their order, the attributes that
    [getEntityAttributes] returns (without [refresh]) and in which the
    lower-cased search text occurs: in the lower-cased name, in the
    lower-cased display name, or in the lower-cased description when there
    is one that is not empty.  An empty search text keeps them all.  The
    state of the service ends as [getEntityAttributes] leaves it. *)
Theorem searchAttributes_keeps_the_mentions
    (conn : Connector.t) (now : Z) (entityName searchText : jsstring)
    (st : State) (attrs : list MetadataAttribute.t) :
  (getEntityAttributes conn now entityName false st).1 = Ok attrs ->
  let occurs (t s : jsstring) := exists before after, s = before ++ t ++ after in
  let text := toLowerCase searchText in
  exists found,
    searchAttributes conn now entityName searchText st
    = (Ok found, (getEntityAttributes conn now entityName false st).2)
    /\ found `sublist_of` attrs
    /\ (forall a,
          In a found
          <-> In a attrs
              /\ (occurs text (toLowerCase (MetadataAttribute.name a))
                  \/ occurs text (toLowerCase (MetadataAttribute.displayName a))
                  \/ exists d,
                       MetadataAttribute.description a = Some d /\ d <> []
                       /\ occurs text (toLowerCase d)))
    /\ (searchText = [] -> found = attrs).
Proof.
  cbv zeta. intros Hattrs.
  exists (List.filter (attributeMentions (toLowerCase searchText)) attrs).
  split; [|split; [|split]].
  - unfold searchAttributes, mbind, Eff_bind.
    destruct (getEntityAttributes conn now entityName false st) as [out st'].
    cbn [fst] in Hattrs. subst out. reflexivity.
  - clear Hattrs. induction attrs as [|a attrs IH]; [reflexivity|].
    cbn [List.filter].
    destruct (attributeMentions (toLowerCase searchText) a);
      [apply sublist_skip | apply sublist_cons]; exact IH.
  - intros a. rewrite filter_In. unfold attributeMentions.
    rewrite !orb_true_iff, !includes_text_occurs.
    split; intros [Hin H]; (split; [exact Hin|]).
    + destruct H as [[H | H] | H]; [left; exact H | right; left; exact H|].
      right. right.
      destruct (MetadataAttribute.description a) as [d|]; [|discriminate H].
      apply andb_true_iff in H as [Hd H].
      exists d. split; [reflexivity|]. split.
      * destruct d; [discriminate Hd | discriminate].
      * apply includes_text_occurs. exact H.
    + destruct H as [H | [H | [d [Hdesc [Hd H]]]]];
        [left; left; exact H | left; right; exact H|].
      right. rewrite Hdesc. apply andb_true_iff. split.
      * destruct d; [congruence | reflexivity].
      * apply includes_text_occurs. exact H.
  - intros ->. 
    assert (Hall : forall a, attributeMentions (toLowerCase []) a = true).
    { intros a. unfold attributeMentions.
      destruct (MetadataAttribute.name a); reflexivity. }
    clear Hattrs. induction attrs as [|a attrs IH]; [reflexivity|].
    cbn [List.filter]. rewrite Hall, IH. reflexivity.
Qed.

Lemma searchAttributes_keeps_the_mentions_witness :
  let cached :=
    store_entity 1000 (js "account")
      (entityOfMetadata Sample.withAttributes (Sample.document (js "account")))
      MetadataExplorer.initial in
  exists found,
    searchAttributes Sample.unreachable 2000 (js "accounts") (js "ID") cached
    = (Ok found, cached)
    /\ map MetadataAttribute.name found = [js "accountid"].
Proof.
  cbv zeta.
  set (cached := store_entity 1000 (js "account") _ MetadataExplorer.initial).
  assert (Hattrs :
    (getEntityAttributes Sample.unreachable 2000 (js "accounts") false cached).1
    = Ok (map (mapAttribute Sample.withAttributes)
            [ Sample.attribute (js "accountid") (js "Uniqueidentifier");
              Sample.attribute (js "name") (js "String");
              Sample.attribute (js "createdon") (js "DateTime") ])).
  { vm_compute. reflexivity. }
  destruct (searchAttributes_keeps_the_mentions Sample.unreachable 2000
              (js "accounts") (js "ID") cached _ Hattrs)
    as [found [Hrun _]].
  exists found.
  assert (Hfound :
    searchAttributes Sample.unreachable 2000 (js "accounts") (js "ID") cached
    = (Ok [mapAttribute Sample.withAttributes
             (Sample.attribute (js "accountid") (js "Uniqueidentifier"))],
       cached)).
  { vm_compute. reflexivity. }
  rewrite Hfound in Hrun |- *. injection Hrun as <-.
  split; reflexivity.
Defined.

(** X9: [searchEntities] keeps, in their order, the entities that
    [listEntities] returns (without [refresh]) and in which the
    lower-cased search text occurs: in the lower-cased name, display name
    or collection name.  An empty search text keeps them all.  The state
    of the service ends as [listEntities] leaves it. *)
Theorem searchEntities_keeps_the_mentions
    (now : Z)
    (entityDefinitions :
       Connector.QueryOptions -> Outcome (list Connector.RawEntity))
    (searchText : jsstring) (st : State) (listed : list EntitySummary.t) :
  (listEntities now entityDefinitions false st).1 = Ok listed ->
  let occurs (t s : jsstring) := exists before after, s = before ++ t ++ after in
  let text := toLowerCase searchText in
  exists found,
    searchEntities now entityDefinitions searchText st
    = (Ok found, (listEntities now entityDefinitions false st).2)
    /\ found `sublist_of` listed
    /\ (forall e,
          In e found
          <-> In e listed
              /\ (occurs text (toLowerCase (EntitySummary.name e))
                  \/ occurs text (toLowerCase (EntitySummary.displayName e))
                  \/ occurs text
                       (toLowerCase (EntitySummary.displayCollectionName e))))
    /\ (searchText = [] -> found = listed).
Proof.
  cbv zeta. intros Hlisted.
  exists (List.filter (entityMentions (toLowerCase searchText)) listed).
  split; [|split; [|split]].
  - unfold searchEntities, mbind, Eff_bind.
    destruct (listEntities now entityDefinitions false st) as [out st'].
    cbn [fst] in Hlisted. subst out. reflexivity.
  - clear Hlisted. induction listed as [|e listed IH]; [reflexivity|].
    cbn [List.filter].
    destruct (entityMentions (toLowerCase searchText) e);
      [apply sublist_skip | apply sublist_cons]; exact IH.
  - intros e. rewrite filter_In. unfold entityMentions.
    rewrite !orb_true_iff, !includes_text_occurs.
    split; intros [Hin H]; (split; [exact Hin|]).
    + destruct H as [[H | H] | H];
        [left; exact H | right; left; exact H | right; right; exact H].
    + destruct H as [H | [H | H]];
        [left; left; exact H | left; right; exact H | right; exact H].
  - intros ->.
    assert (Hall : forall e, entityMentions (toLowerCase []) e = true).
    { intros e. unfold entityMentions.
      destruct (EntitySummary.name e); reflexivity. }
    clear Hlisted. induction listed as [|e listed IH]; [reflexivity|].
    cbn [List.filter]. rewrite Hall, IH. reflexivity.
Qed.

Lemma searchEntities_keeps_the_mentions_witness :
  exists found,
    searchEntities 2000 (fun _ => Throw (js "Network Error")) (js "ACC")
      Sample.refreshed
    = (Ok found, Sample.refreshed)
    /\ map EntitySummary.name found = [js "account"].
Proof.
  assert (Hlisted :
    (listEntities 2000 (fun _ => Throw (js "Network Error")) false
       Sample.refreshed).1
    = Ok [summary (Sample.bareEntry (js "account"))]).
  { vm_compute. reflexivity. }
  destruct (searchEntities_keeps_the_mentions 2000
              (fun _ => Throw (js "Network Error")) (js "ACC")
              Sample.refreshed _ Hlisted)
    as [found [Hrun _]].
  exists found.
  assert (Hfound :
    searchEntities 2000 (fun _ => Throw (js "Network Error")) (js "ACC")
      Sample.refreshed
    = (Ok [summary (Sample.bareEntry (js "account"))], Sample.refreshed)).
  { vm_compute. reflexivity. }
  rewrite Hfound in Hrun |- *. injection Hrun as <-.
  split; reflexivity.
Defined.

End MetadataExplorerCoverage.

(* ===================================================================== *)
(** * More of the natural-language service *)
(* ===================================================================== *)

Section NLQueryCoverage.
Import Filters NLQuery.

(** X10: every token that [parseQuery] scans is a non-empty run of code
    units without white space, and none is a stop word. *)
Theorem tokenize_yields_plain_words (query : jsstring) :
  Forall (fun word =>
            word <> []
            /\ Forall (fun c => is_space c = false) word
            /\ ~ In word stopWords)
    (tokenize query).
Proof.
  unfold tokenize. apply Forall_forall. intros word Hin.
  apply list_elem_of_In, filter_In in Hin as [Hin Hkeep].
  apply andb_true_iff in Hkeep as [Htruthy Hstop].
  split; [|split].
  - destruct word; [discriminate Htruthy | discriminate].
  - pose proof (split_plus_pieces is_space query) as Hpieces.
    rewrite Forall_forall in Hpieces. apply Hpieces.
    apply list_elem_of_In. exact Hin.
  - intros Hw. apply negb_true_iff in Hstop.
    rewrite includes_decide in Hstop.
    apply bool_decide_eq_false in Hstop. apply Hstop.
    apply list_elem_of_In. exact Hw.
Qed.

(** What [scan] keeps: a property of the result that every assignment of
    the loop preserves holds at the end.  The words that a rule looks up
    are among the tokens. *)
Lemma scan_invariant (I : ParseResult -> Prop) (k : nat) :
  forall words r,
    (length words <= k)%nat ->
    (forall w a r', In w words -> tbl_truthy actionMappings w = Some a ->
                    I r' -> I (set_action a r')) ->
    (forall w e r', In w words -> tbl_truthy entityMappings w = Some e ->
                    I r' -> I (set_entity e r')) ->
    (forall w n r', In w words -> parseInt w = Some n -> (n > 0)%Z ->
                    I r' -> I (set_limit n r')) ->
    (forall field w op value r',
       In field words -> In w words -> In value words ->
       tbl_truthy operatorMappings w = Some op ->
       I r' -> I (set_filter field (FInfo op value) r')) ->
    I r -> I (scan words r).
Proof.
  induction k as [|k IH]; intros words r Hlen Hact Hent Hlim Hfil Hr.
  - destruct words; [exact Hr | simpl in Hlen; lia].
  - destruct words as [|word rest]; [exact Hr|].
    assert (Hrest : forall r', I r' -> I (scan rest r')).
    { intros r' Hr'. apply IH; try assumption.
      - simpl in Hlen; lia.
      - intros w a r0 Hw. apply Hact. right. exact Hw.
      - intros w e r0 Hw. apply Hent. right. exact Hw.
      - intros w n r0 Hw. apply Hlim. right. exact Hw.
      - intros f w op v r0 Hf Hw Hv. apply Hfil; right; assumption. }
    cbn [scan].
    destruct (if truthy_opt (action r) then None
              else tbl_truthy actionMappings word) as [a|] eqn:Ha.
    { apply Hrest. apply (Hact word); [left; reflexivity | | exact Hr].
      destruct (truthy_opt (action r)); [discriminate Ha | exact Ha]. }
    destruct (if truthy_opt (entity r) then None
              else tbl_truthy entityMappings word) as [e|] eqn:He.
    { apply Hrest. apply (Hent word); [left; reflexivity | | exact Hr].
      destruct (truthy_opt (entity r)); [discriminate He | exact He]. }
    assert (Hfilter :
      I match rest with
        | potentialOperator :: potentialValue :: rest2 =>
            match tbl_truthy operatorMappings potentialOperator with
            | Some op =>
                scan rest2 (set_filter word (FInfo op potentialValue) r)
            | None => scan rest r
            end
        | _ => scan rest r
        end).
    { destruct rest as [|o [|v rest2]]; try (apply Hrest; exact Hr).
      destruct (tbl_truthy operatorMappings o) as [op|] eqn:Hop;
        [|apply Hrest; exact Hr].
      apply IH.
      - simpl in Hlen |- *. lia.
      - intros w a r0 Hw. apply Hact. right. right. right. exact Hw.
      - intros w e r0 Hw. apply Hent. right. right. right. exact Hw.
      - intros w n r0 Hw. apply Hlim. right. right. right. exact Hw.
      - intros f w op' v' r0 Hf Hw Hv.
        apply Hfil; right; right; right; assumption.
      - apply (Hfil word o op v r); try exact Hop; try exact Hr.
        + left. reflexivity.
        + right. left. reflexivity.
        + right. right. left. reflexivity. }
    destruct rest as [|nextWord rest1]; [exact Hfilter|].
    destruct (includes limitWords word); [|exact Hfilter].
    destruct (parseInt nextWord) as [limitValue|] eqn:Hnum; [|exact Hfilter].
    destruct (Z.gtb_spec limitValue 0) as [Hpos|Hnpos]; [|exact Hfilter].
    apply IH.
    + simpl in Hlen |- *. lia.
    + intros w a r0 Hw. apply Hact. right. right. exact Hw.
    + intros w e r0 Hw. apply Hent. right. right. exact Hw.
    + intros w n r0 Hw. apply Hlim. right. right. exact Hw.
    + intros f w op v r0 Hf Hw Hv. apply Hfil; right; right; assumption.
    + apply (Hlim nextWord); [right; left; reflexivity | exact Hnum | lia
                             | exact Hr].
Qed.

(** The filters of a parse are those that the scan of the tokens leaves. *)
Lemma parseQuery_filters query :
  filters (parseQuery query) = filters (scan (tokenize query) emptyResult).
Proof.
  unfold parseQuery. cbv zeta.
  destruct (truthy_opt (action (scan (tokenize query) emptyResult)));
    destruct (regex_match re_campos query) as [m|]; try reflexivity;
    destruct (truthy (capture 1 m)); reflexivity.
Qed.

Lemma parseQuery_limit query :
  limit (parseQuery query) = limit (scan (tokenize query) emptyResult).
Proof.
  unfold parseQuery. cbv zeta.
  destruct (truthy_opt (action (scan (tokenize query) emptyResult)));
    destruct (regex_match re_campos query) as [m|]; try reflexivity;
    destruct (truthy (capture 1 m)); reflexivity.
Qed.

Lemma parseQuery_entity query :
  entity (parseQuery query) = entity (scan (tokenize query) emptyResult).
Proof.
  unfold parseQuery. cbv zeta.
  destruct (truthy_opt (action (scan (tokenize query) emptyResult)));
    destruct (regex_match re_campos query) as [m|]; try reflexivity;
    destruct (truthy (capture 1 m)); reflexivity.
Qed.

(** ** Assignments to a filter object *)

Lemma has_key_In k (o : Filters.t) :
  Filters.has_key k o = true <-> In k (map fst o).
Proof.
  induction o as [|[k' v'] o IH]; cbn [Filters.has_key map fst In].
  - split; [discriminate | tauto].
  - rewrite orb_true_iff, IH. unfold Js.eqb.
    rewrite bool_decide_eq_true. split; intros [H|H]; auto.
Qed.

Lemma replace_keys k v (o : Filters.t) :
  map fst (Filters.replace k v o) = map fst o.
Proof.
  induction o as [|[k' v'] o IH]; [reflexivity|].
  cbn [Filters.replace]. destruct (Js.eqb k k'); cbn [map fst];
    [reflexivity | rewrite IH; reflexivity].
Qed.

Lemma replace_values (Q : FilterValue -> Prop) k v (o : Filters.t) :
  Q v -> Forall (fun entry => Q entry.2) o ->
  Forall (fun entry => Q entry.2) (Filters.replace k v o).
Proof.
  intros Hv. induction 1 as [|[k' v'] o Hx Ho IH]; [constructor|].
  cbn [Filters.replace]. destruct (Js.eqb k k'); constructor;
    assumption.
Qed.

(** A new array index is put somewhere among the properties. *)
Lemma insert_index_splits n k v (o : Filters.t) :
  exists before after,
    o = before ++ after
    /\ Filters.insert_index n k v o = before ++ (k, v) :: after.
Proof.
  induction o as [|[k' v'] o [before [after [Ho Hi]]]]; cbn [Filters.insert_index].
  - exists [], []. split; reflexivity.
  - destruct (Filters.array_index k') as [n'|].
    + destruct (n' <? n)%Z.
      * exists ((k', v') :: before), after. rewrite Ho at 1. rewrite Hi.
        split; reflexivity.
      * exists [], ((k', v') :: o). split; reflexivity.
    + exists [], ((k', v') :: o). split; reflexivity.
Qed.

(** [o[k] = v] leaves every other value as it is. *)
Lemma set_values (Q : FilterValue -> Prop) k v (o : Filters.t) :
  Q v -> Forall (fun entry => Q entry.2) o ->
  Forall (fun entry => Q entry.2) (Filters.set k v o).
Proof.
  intros Hv Ho. unfold Filters.set.
  destruct (Js.eqb k (js "__proto__")); [exact Ho|].
  destruct (Filters.has_key k o); [apply replace_values; assumption|].
  destruct (Filters.array_index k) as [n|].
  - destruct (insert_index_splits n k v o) as [before [after [-> ->]]].
    apply Forall_app in Ho as [Hb Ha].
    apply Forall_app. split; [exact Hb|]. constructor; assumption.
  - apply Forall_app. split; [exact Ho|]. constructor; [exact Hv|constructor].
Qed.

(** [o[k] = v] keeps the property names distinct. *)
Lemma set_keys_NoDup k v (o : Filters.t) :
  NoDup (map fst o) -> NoDup (map fst (Filters.set k v o)).
Proof.
  intros Ho. unfold Filters.set.
  destruct (Js.eqb k (js "__proto__")); [exact Ho|].
  destruct (Filters.has_key k o) eqn:Hk.
  { rewrite replace_keys. exact Ho. }
  assert (Hnew : ~ In k (map fst o)).
  { intros H. apply has_key_In in H. congruence. }
  destruct (Filters.array_index k) as [n|].
  - destruct (insert_index_splits n k v o) as [before [after [-> ->]]].
    rewrite map_app in *. cbn [map fst].
    apply NoDup_app in Ho as [Hb [Hdisj Ha]].
    apply NoDup_app. split; [exact Hb|]. split.
    + intros x Hx Hin. apply list_elem_of_In in Hin. destruct Hin as [<-|Hin].
      * apply Hnew. apply in_or_app. left. apply list_elem_of_In. exact Hx.
      * apply (Hdisj x Hx). apply list_elem_of_In. exact Hin.
    + apply NoDup_cons. split; [|exact Ha].
      intros Hin. apply Hnew. apply in_or_app. right.
      apply list_elem_of_In. exact Hin.
  - rewrite map_app. cbn [map fst].
    apply NoDup_app. split; [exact Ho|]. split.
    + intros x Hx Hin. apply list_elem_of_In in Hin. destruct Hin as [<-|[]].
      apply Hnew. apply list_elem_of_In. exact Hx.
    + apply NoDup_singleton.
Qed.

(** ** The operators that a token can name *)

Lemma own_get_In {V : Type} (t : list (jsstring * V)) k v :
  own_get t k = Some v -> In (k, v) t.
Proof.
  induction t as [|[k' v'] t IH]; cbn [own_get]; [discriminate|].
  unfold Js.eqb. destruct (decide (k = k')) as [->|Hne].
  - rewrite bool_decide_eq_true_2 by reflexivity. intros [= ->].
    left. reflexivity.
  - rewrite bool_decide_eq_false_2 by assumption. intros H.
    right. apply IH, H.
Qed.

Lemma no_space_forallb (w : jsstring) :
  Forall (fun c => is_space c = false) w ->
  forallb (fun c => negb (is_space c)) w = true.
Proof.
  induction 1 as [|c w Hc Hw IH]; [reflexivity|].
  cbn [forallb]. rewrite Hc, IH. reflexivity.
Qed.

(** The operator that the table gives for a token without white space is
    one of seven, or the token names a member of [Object.prototype]: the
    keys of two words, and with them [startswith] and [endswith], are out
    of reach. *)
Lemma operator_of_token w op :
  Forall (fun c => is_space c = false) w ->
  tbl_truthy operatorMappings w = Some op ->
  In op (map js ["eq"; "ne"; "gt"; "lt"; "ge"; "le"; "contains"]%string)
  \/ inherited w = Some op.
Proof.
  intros Hplain. apply no_space_forallb in Hplain.
  unfold tbl_truthy, tbl_get.
  destruct (own_get operatorMappings w) as [v|] eqn:Hown.
  - apply own_get_In in Hown. intros H.
    assert (Hv : op = v) by (destruct (truthy v); congruence).
    subst v. clear H. left.
    unfold operatorMappings in Hown. cbn [In] in Hown.
    repeat (destruct Hown as [Hown|Hown];
            [ injection Hown as <- <-;
              first [ discriminate Hplain
                    | vm_compute;
                      repeat (first [left; reflexivity | right]) ]
            | ]).
    destruct Hown.
  - intros H. right.
    destruct (inherited w) as [v|]; [|discriminate H].
    destruct (truthy v); congruence.
Qed.

Lemma tokenize_no_space query w :
  In w (tokenize query) -> Forall (fun c => is_space c = false) w.
Proof.
  unfold tokenize. intros Hin. apply filter_In in Hin as [Hin _].
  pose proof (split_plus_pieces is_space query) as Hpieces.
  rewrite Forall_forall in Hpieces. apply Hpieces.
  apply list_elem_of_In. exact Hin.
Qed.

(** X11: every filter that [parseQuery] extracts is an [{operator, value}]
    pair whose operator is one of eq, ne, gt, lt, ge, le and contains, or
    (for a token such as [constructor]) a member of [Object.prototype]; it
    is never [startswith] or [endswith], whose keys in the operator table
    are made of two words while a token is one word. *)
Theorem parseQuery_never_startswith_endswith (query : jsstring) :
  Forall (fun entry =>
            exists op value,
              entry.2 = FInfo op value
              /\ (In op (map js ["eq"; "ne"; "gt"; "lt"; "ge"; "le";
                                 "contains"]%string)
                  \/ exists w, inherited w = Some op)
              /\ op <> js "startswith" /\ op <> js "endswith")
    (filters (parseQuery query)).
Proof.
  rewrite parseQuery_filters.
  apply (scan_invariant
           (fun r =>
              Forall (fun entry =>
                        exists op value,
                          entry.2 = FInfo op value
                          /\ (In op (map js ["eq"; "ne"; "gt"; "lt"; "ge";
                                             "le"; "contains"]%string)
                              \/ exists w, inherited w = Some op)
                          /\ op <> js "startswith" /\ op <> js "endswith")
                (filters r))
           (length (tokenize query)));
    try (intros; assumption); [lia | | constructor].
  intros field w op value r _ Hw _ Hop Hr.
  cbn [set_filter filters].
  apply (set_values
           (fun v =>
              exists op value,
                v = FInfo op value
                /\ (In op (map js ["eq"; "ne"; "gt"; "lt"; "ge"; "le";
                                   "contains"]%string)
                    \/ exists w, inherited w = Some op)
                /\ op <> js "startswith" /\ op <> js "endswith"));
    [|exact Hr].
  exists op, value. split; [reflexivity|].
  destruct (operator_of_token w op (tokenize_no_space query w Hw) Hop)
    as [Hin | Hinh].
  - split; [left; exact Hin|].
    cbn [map In] in Hin.
    repeat (destruct Hin as [<-|Hin]; [split; discriminate|]).
    destruct Hin.
  - split; [right; exists w; exact Hinh|].
    unfold inherited in Hinh.
    repeat match type of Hinh with
           | (if ?b then _ else _) = _ => destruct b
           end;
      try discriminate Hinh; injection Hinh as <-; split; discriminate.
Qed.

(** X12: [parseQuery] keeps one filter for a field: the names of the
    filter object are distinct, a second triple on a field having replaced
    the first. *)
Theorem parseQuery_one_filter_per_field (query : jsstring) :
  NoDup (map fst (filters (parseQuery query)))
  /\ filters (parseQuery (js "nome = x nome = y"))
     = [(js "nome", FInfo (js "eq") (js "y"))].
Proof.
  split; [|vm_compute; reflexivity].
  rewrite parseQuery_filters.
  apply (scan_invariant (fun r => NoDup (map fst (filters r)))
           (length (tokenize query)));
    try (intros; assumption); [lia | | constructor].
  intros field w op value r _ _ _ _ Hr.
  cbn [set_filter filters]. apply set_keys_NoDup. exact Hr.
Qed.

(** A limit that the scan sets is positive. *)
Lemma parseQuery_limit_positive query l :
  limit (parseQuery query) = Some l -> (l > 0)%Z.
Proof.
  rewrite parseQuery_limit. revert l.
  apply (scan_invariant
           (fun r => forall l, limit r = Some l -> (l > 0)%Z)
           (length (tokenize query))).
  - lia.
  - intros w a r _ _ Hr. exact Hr.
  - intros w e r _ _ Hr. exact Hr.
  - intros w n r _ _ Hpos _ l [= <-]. exact Hpos.
  - intros field w op value r _ _ _ _ Hr. exact Hr.
  - discriminate.
Qed.

(** ** The traffic of [processQuery] *)

(** A handler that returns leaves the state as the body left it. *)
Lemma try_catch_state {S A : Type} (m : Eff S A) (h : jsstring -> A) st :
  (try_catch m (fun e => mret (h e)) st).2 = (m st).2.
Proof. unfold try_catch. destruct (m st) as [[a|e] st']; reflexivity. Qed.

Lemma executeListQuery_run conn e f fs l log :
  executeListQuery conn e f fs l log
  = let request :=
      {| Connector.filter := truthy_or_undefined (buildODataFilter e f);
         Connector.select := mapFields e fs;
         Connector.top :=
           Some (match l with
                 | Some n => if (n =? 0)%Z then 50%Z else n
                 | None => 50%Z
                 end);
         Connector.orderBy := Some (js "createdon desc") |} in
    (match Connector.queryEntities conn e request with
     | Ok results =>
         Ok (ListResult e (length results) results (buildODataFilter e f)
               (mapFields e fs))
     | Throw m => Throw m
     end,
     log ++ [Connector.CallQueryEntities e request]).
Proof.
  unfold executeListQuery, mbind, Eff_bind, call_queryEntities. cbv zeta.
  destruct (Connector.queryEntities conn e _); reflexivity.
Qed.

Lemma executeGetQuery_run conn e f log :
  executeGetQuery conn e f log
  = match f with
    | [] =>
        (Throw (js "Para obter detalhes de um registro, é necessário especificar um ID ou um filtro único."),
         log)
    | _ =>
        let request :=
          {| Connector.filter := Some (buildODataFilter e f);
             Connector.select := None;
             Connector.top := Some 1%Z;
             Connector.orderBy := None |} in
        (match Connector.queryEntities conn e request with
         | Ok [] =>
             Ok (GetNotFound e
                   (js "Nenhum registro encontrado com os filtros especificados.")
                   (buildODataFilter e f))
         | Ok (first :: _) => Ok (GetResult e first (buildODataFilter e f))
         | Throw m => Throw m
         end,
         log ++ [Connector.CallQueryEntities e request])
    end.
Proof.
  unfold executeGetQuery. destruct f as [|entry f]; [reflexivity|].
  unfold mbind, Eff_bind, call_queryEntities. cbv zeta.
  destruct (Connector.queryEntities conn e _) as [[|first rest]|m];
    reflexivity.
Qed.

(** X13: [processQuery] calls the connector at most once, with
    [queryEntities] on the entity of the parse, and the request is bounded:
    its [top] is a positive number (the limit of the query or 50 for a
    listing, which is also ordered by [createdon desc]; 1 for a detail
    query). *)
Theorem processQuery_asks_once_with_a_bound
    (conn : Connector.t) (query : jsstring) (log : list Connector.Call) :
  let run := processQuery conn query log in
  run.2 = log
  \/ exists e request n,
       run.2 = log ++ [Connector.CallQueryEntities e request]
       /\ entity (parseQuery (normalizeText query)) = Some e
       /\ Connector.top request = Some n /\ (n > 0)%Z
       /\ (n = 1%Z \/ Connector.orderBy request = Some (js "createdon desc")).
Proof.
  cbv zeta. unfold processQuery.
  rewrite (try_catch_state _ (fun message =>
             Failure (js "Erro ao processar consulta: " ++ message) query)).
  cbv zeta.
  destruct (entity (parseQuery (normalizeText query))) as [e|];
    [|left; reflexivity].
  assert (Hlist :
    forall f fs,
      exists request n,
        (executeListQuery conn e f fs
           (limit (parseQuery (normalizeText query))) log).2
        = log ++ [Connector.CallQueryEntities e request]
        /\ Connector.top request = Some n /\ (n > 0)%Z
        /\ Connector.orderBy request = Some (js "createdon desc")).
  { intros f fs. rewrite executeListQuery_run. cbv zeta.
    cbn [snd]. eexists _, _. split; [reflexivity|].
    cbn [Connector.top Connector.orderBy].
    split; [reflexivity|]. split; [|reflexivity].
    destruct (limit (parseQuery (normalizeText query))) as [l|] eqn:Hl;
      [|reflexivity].
    apply parseQuery_limit_positive in Hl.
    destruct (Z.eqb_spec l 0); [reflexivity | exact Hl]. }
  destruct (Js.eqb (default [] (action (parseQuery (normalizeText query))))
              (js "list")).
  { right. exists e.
    destruct (Hlist (filters (parseQuery (normalizeText query)))
                (fields (parseQuery (normalizeText query))))
      as [request [n [H1 [H2 [H3 H4]]]]].
    exists request, n. repeat split; try assumption. right. exact H4. }
  destruct (Js.eqb (default [] (action (parseQuery (normalizeText query))))
              (js "get")).
  { rewrite executeGetQuery_run.
    destruct (filters (parseQuery (normalizeText query))) as [|entry f];
      [left; reflexivity|].
    right. cbv zeta. eexists e, _, 1%Z. cbn [snd].
    split; [reflexivity|].
    split; [reflexivity|]. split; [reflexivity|].
    split; [lia | left; reflexivity]. }
  destruct (Js.eqb (default [] (action (parseQuery (normalizeText query))))
              (js "create")); [left; reflexivity|].
  destruct (Js.eqb (default [] (action (parseQuery (normalizeText query))))
              (js "update")); [left; reflexivity|].
  destruct (Js.eqb (default [] (action (parseQuery (normalizeText query))))
              (js "delete")); [left; reflexivity|].
  right. exists e.
  destruct (Hlist (filters (parseQuery (normalizeText query)))
              (fields (parseQuery (normalizeText query))))
    as [request [n [H1 [H2 [H3 H4]]]]].
  exists request, n. repeat split; try assumption. right. exact H4.
Qed.

(** X14: a detail query (action [get]) without a filter is answered with
    [success: false] and the message that an ID or a filter is needed,
    behind [Erro ao processar consulta:]; the connector is not called, and
    the response carries the query as it was written, not its normalised
    form. *)
Theorem processQuery_get_needs_a_filter
    (conn : Connector.t) (query : jsstring) (log : list Connector.Call)
    (e : jsstring) :
  entity (parseQuery (normalizeText query)) = Some e ->
  action (parseQuery (normalizeText query)) = Some (js "get") ->
  filters (parseQuery (normalizeText query)) = [] ->
  processQuery conn query log
  = (Ok (Failure
           (js "Erro ao processar consulta: "
            ++ js "Para obter detalhes de um registro, é necessário especificar um ID ou um filtro único.")
           query),
     log).
Proof.
  intros He Ha Hf. unfold processQuery, try_catch. cbv zeta.
  rewrite He, Ha, Hf. cbn [default from_option Datatypes.id].
  decide_tests. reflexivity.
Qed.

Lemma processQuery_get_needs_a_filter_witness :
  processQuery Sample.connector (js "Detalhar Contas") []
  = (Ok (Failure
           (js "Erro ao processar consulta: "
            ++ js "Para obter detalhes de um registro, é necessário especificar um ID ou um filtro único.")
           (js "Detalhar Contas")),
     []).
Proof.
  apply (processQuery_get_needs_a_filter Sample.connector
           (js "Detalhar Contas") [] (js "accounts"));
    vm_compute; reflexivity.
Defined.

(** ** Normalisation of the query *)

(** A check of every code unit of Basic Latin and Latin-1 Supplement: its
    normal form is in the same range, is left alone by a second
    normalisation, and is no capital and no letter with a decomposition. *)
Lemma latin1_units_checked :
  forallb
    (fun n =>
       let c := N.of_nat n in
       let d := lower_unit (base_letter c) in
       negb (in_range 768 879 c) && (d <? 256)%N
       && (lower_unit (base_letter d) =? d)%N
       && negb (is_upper_ascii d) && negb (is_upper_latin1 d)
       && (base_letter d =? d)%N)
    (seq 0 256) = true.
Proof. vm_compute. reflexivity. Qed.

Lemma latin1_unit c :
  (c < 256)%N ->
  let d := lower_unit (base_letter c) in
  strip_diacritics c = [base_letter c]
  /\ (d < 256)%N
  /\ lower_unit (base_letter d) = d
  /\ is_upper_ascii d = false /\ is_upper_latin1 d = false
  /\ base_letter d = d.
Proof.
  intros Hc. cbv zeta.
  pose proof latin1_units_checked as H.
  rewrite forallb_forall in H.
  specialize (H (N.to_nat c)). rewrite N2Nat.id in H.
  assert (Hin : In (N.to_nat c) (seq 0 256)) by (apply in_seq; lia).
  specialize (H Hin). cbv zeta in H.
  repeat (apply andb_true_iff in H as [H ?]).
  repeat match goal with
         | Hb : negb _ = true |- _ => apply negb_true_iff in Hb
         | Hb : (_ =? _)%N = true |- _ => apply N.eqb_eq in Hb
         | Hb : (_ <? _)%N = true |- _ => apply N.ltb_lt in Hb
         end.
  unfold strip_diacritics. rewrite H. repeat split; assumption.
Qed.

Lemma normalizeText_latin1 text :
  Forall (fun c => (c < 256)%N) text ->
  normalizeText text = map (fun c => lower_unit (base_letter c)) text.
Proof.
  unfold normalizeText, toLowerCase.
  induction 1 as [|c text Hc Htext IH]; [reflexivity|].
  cbn [map concat]. destruct (latin1_unit c Hc) as [-> _].
  cbn [app map]. rewrite IH. reflexivity.
Qed.

(** The normal form of such a text is in the same range and holds no
    letter with a decomposition. *)
Lemma normalizeText_idempotent_latin1_aux text :
  Forall (fun c => (c < 256)%N) text ->
  Forall (fun c => (c < 256)%N) (normalizeText text)
  /\ Forall (fun c => base_letter c = c) (normalizeText text).
Proof.
  intros Htext. rewrite normalizeText_latin1 by exact Htext.
  split; apply Forall_map; (eapply Forall_impl; [exact Htext|]);
    intros c Hc; apply (latin1_unit c Hc).
Qed.

(** X15: on a text of Basic Latin and Latin-1 code units, [normalizeText]
    keeps the length, leaves no capital letter and no letter that carries a
    diacritic, and is idempotent. *)
Theorem normalizeText_idempotent_on_latin1 (text : jsstring) :
  Forall (fun c => (c < 256)%N) text ->
  normalizeText (normalizeText text) = normalizeText text
  /\ length (normalizeText text) = length text
  /\ Forall (fun c => is_upper_ascii c = false /\ is_upper_latin1 c = false
                      /\ base_letter c = c)
       (normalizeText text).
Proof.
  intros Htext.
  assert (Hnorm : Forall (fun c => (c < 256)%N) (normalizeText text)).
  { rewrite normalizeText_latin1 by exact Htext.
    apply Forall_map. eapply Forall_impl; [exact Htext|].
    intros c Hc. apply (latin1_unit c Hc). }
  split; [|split].
  - rewrite (normalizeText_latin1 _ Hnorm).
    rewrite normalizeText_latin1 by exact Htext.
    rewrite map_map. apply map_ext_in. intros c Hin.
    rewrite Forall_forall in Htext.
    apply (latin1_unit c). apply Htext, list_elem_of_In, Hin.
  - rewrite normalizeText_latin1 by exact Htext. apply length_map.
  - rewrite normalizeText_latin1 by exact Htext.
    apply Forall_map. eapply Forall_impl; [exact Htext|].
    intros c Hc. cbv beta.
    destruct (latin1_unit c Hc) as [_ [_ [_ [H1 [H2 H3]]]]].
    repeat split; assumption.
Qed.

Lemma normalizeText_idempotent_on_latin1_witness :
  normalizeText (js "Listar Reuniões em São Paulo")
  = js "listar reunioes em sao paulo"
  /\ normalizeText (normalizeText (js "Listar Reuniões em São Paulo"))
     = normalizeText (js "Listar Reuniões em São Paulo").
Proof.
  split; [vm_compute; reflexivity|].
  apply normalizeText_idempotent_on_latin1.
  vm_compute. repeat constructor.
Defined.

(** The entity of a parse is what the entity table gives for a token. *)
Lemma parseQuery_entity_token query e :
  entity (parseQuery query) = Some e ->
  exists w, In w (tokenize query) /\ tbl_truthy entityMappings w = Some e.
Proof.
  rewrite parseQuery_entity. revert e.
  apply (scan_invariant
           (fun r =>
              forall e, entity r = Some e ->
                        exists w, In w (tokenize query)
                                  /\ tbl_truthy entityMappings w = Some e)
           (length (tokenize query))).
  - lia.
  - intros w a r _ _ Hr. exact Hr.
  - intros w e r Hw He _ e' [= <-]. exists w. split; assumption.
  - intros w n r _ _ _ Hr. exact Hr.
  - intros field w op value r _ _ _ _ Hr. exact Hr.
  - discriminate.
Qed.

(** X16: [processQuery] looks its tables up with the tokens of the
    normalised query, in which (for a query of Basic Latin and Latin-1 code
    units) no letter carries a diacritic.  The keys that are spelled with
    one are therefore out of reach: no token is [reunião] or [reuniões],
    and the entity [appointments] is found through [appointment] or
    [appointments] only. *)
Theorem accented_keys_are_out_of_reach (text : jsstring) :
  Forall (fun c => (c < 256)%N) text ->
  let words := tokenize (normalizeText text) in
  Forall (Forall (fun c => base_letter c = c)) words
  /\ ~ In (js "reunião") words
  /\ ~ In (js "reuniões") words
  /\ (entity (parseQuery (normalizeText text)) = Some (js "appointments") ->
      In (js "appointment") words \/ In (js "appointments") words).
Proof.
  intros Htext. cbv zeta.
  assert (Hwords : Forall (Forall (fun c => base_letter c = c))
                     (tokenize (normalizeText text))).
  { unfold tokenize. apply Forall_forall. intros w Hw.
    apply list_elem_of_In, filter_In in Hw as [Hw _].
    assert (Hplain : Forall (fun c => base_letter c = c) (normalizeText text)).
    { destruct (normalizeText_idempotent_latin1_aux text Htext) as [_ H].
      exact H. }
    pose proof (split_units _ re_spaces _ Hplain) as Hpieces.
    rewrite Forall_forall in Hpieces.
    apply Hpieces, list_elem_of_In, Hw. }
  assert (H1 : ~ In (js "reunião") (tokenize (normalizeText text))).
  { intros Hin. rewrite Forall_forall in Hwords.
    specialize (Hwords _ (proj2 (list_elem_of_In _ _) Hin)).
    rewrite Forall_forall in Hwords.
    specialize (Hwords 227%N). 
    assert (Hc : 227%N ∈ js "reunião") by (vm_compute; set_solver).
    specialize (Hwords Hc). vm_compute in Hwords. discriminate Hwords. }
  assert (H2 : ~ In (js "reuniões") (tokenize (normalizeText text))).
  { intros Hin. rewrite Forall_forall in Hwords.
    specialize (Hwords _ (proj2 (list_elem_of_In _ _) Hin)).
    rewrite Forall_forall in Hwords.
    specialize (Hwords 245%N).
    assert (Hc : 245%N ∈ js "reuniões") by (vm_compute; set_solver).
    specialize (Hwords Hc). vm_compute in Hwords. discriminate Hwords. }
  split; [exact Hwords|]. split; [exact H1|]. split; [exact H2|].
  intros He. apply parseQuery_entity_token in He as [w [Hw He]].
  unfold tbl_truthy, tbl_get in He.
  destruct (own_get entityMappings w) as [v|] eqn:Hown.
  - assert (Hv : v = js "appointments") by (destruct (truthy v); congruence).
    subst v. apply own_get_In in Hown.
    unfold entityMappings in Hown. cbn [In] in Hown.
    repeat (destruct Hown as [Hown|Hown];
            [ first [ discriminate Hown
                    | injection Hown as <-;
                      first [ contradiction
                            | left; exact Hw
                            | right; exact Hw ] ]
            | ]).
    destruct Hown.
  - exfalso. unfold inherited in He.
    repeat match type of He with
           | match (if ?b then _ else _) with _ => _ end = _ => destruct b
           end;
      cbn [truthy] in He; try discriminate He;
      vm_compute in He; try discriminate He.
Qed.

Lemma accented_keys_are_out_of_reach_witness :
  ~ In (js "reuniões") (tokenize (normalizeText (js "Listar Reuniões")))
  /\ tokenize (normalizeText (js "Listar Reuniões"))
     = [js "listar"; js "reunioes"]
  /\ entity (parseQuery (normalizeText (js "Listar Reuniões"))) = None.
Proof.
  assert (H : Forall (fun c => (c < 256)%N) (js "Listar Reuniões")).
  { vm_compute. repeat constructor. }
  split; [exact (proj1 (proj2 (proj2 (accented_keys_are_out_of_reach _ H))))|].
  split; vm_compute; reflexivity.
Defined.

End NLQueryCoverage.

(* ===================================================================== *)
(** * The request of a query *)
(* ===================================================================== *)

Section DynamicsCoverage.
Import Dynamics.

(** The pattern [/[?&]$/] finds the separator at the end of a text, and
    the replacement takes it away. *)
Lemma replace_from_trailing whole (q : jsstring) (c : N) :
  (c =? 63)%N || (c =? 38)%N = true ->
  replace_from re_trailing [] whole (q ++ [c]) = q.
Proof.
  intros Hc. induction q as [|x q IH]; cbn [app replace_from].
  - unfold match_here, re_trailing. cbn [rmatch]. rewrite Hc. reflexivity.
  - assert (Hnone : match_here re_trailing whole (x :: q ++ [c]) = None).
    { unfold match_here, re_trailing. cbn [rmatch].
      destruct ((x =? 63)%N || (x =? 38)%N); [|reflexivity].
      destruct q; reflexivity. }
    rewrite Hnone, IH. reflexivity.
Qed.

Lemma strip_ampersand (q : jsstring) :
  replace_first re_trailing [] (q ++ js "&") = q.
Proof. apply replace_from_trailing. reflexivity. Qed.

Lemma strip_question_mark (q : jsstring) :
  replace_first re_trailing [] (q ++ js "?") = q.
Proof. apply replace_from_trailing. reflexivity. Qed.

(** X17: the path of a query is the entity name, and after it, when there
    are parameters, a question mark and the parameters with an ampersand
    between them, in the order [$select], [$filter], [$orderby], [$top],
    [$expand].  A parameter is present when its option is: an empty list
    of fields or links, an empty filter or ordering and a [top] of zero
    give none.  The texts of the options are put in as they are. *)
Theorem queryPath_joins_the_parameters
    (entityName : jsstring) (options : QueryOptions) :
  queryPath entityName options
  = let parameters :=
      match select options with
      | Some ((_ :: _) as fields) => [js "$select=" ++ join (js ",") fields]
      | _ => []
      end
      ++ match filter options with
         | Some f => if truthy f then [js "$filter=" ++ f] else []
         | None => []
         end
      ++ match orderBy options with
         | Some o => if truthy o then [js "$orderby=" ++ o] else []
         | None => []
         end
      ++ match top options with
         | Some n =>
             if (n =? 0)%Z then [] else [js "$top=" ++ number_to_string n]
         | None => []
         end
      ++ match expand options with
         | Some ((_ :: _) as links) => [js "$expand=" ++ join (js ",") links]
         | _ => []
         end in
    match parameters with
    | [] => entityName
    | _ :: _ => entityName ++ js "?" ++ join (js "&") parameters
    end.
Proof.
  unfold queryPath. cbv zeta.
  destruct (select options) as [[|field fields]|];
    destruct (filter options) as [f|]; try destruct (truthy f);
    destruct (orderBy options) as [o|]; try destruct (truthy o);
    destruct (top options) as [n|]; try destruct (n =? 0)%Z;
    destruct (expand options) as [[|link links]|];
    try set (selected := join (js ",") (field :: fields));
    try set (expanded := join (js ",") (link :: links));
    cbn [app join];
    first
      [ apply strip_question_mark
      | match goal with
        | |- replace_first _ _ ?q = ?r =>
            replace q with (r ++ js "&")
              by (rewrite <- ?app_assoc; reflexivity)
        end;
        apply strip_ampersand ].
Qed.

End DynamicsCoverage.

(* ===================================================================== *)
(** * More of the query assistant *)
(* ===================================================================== *)

Section QueryAssistantCoverage.
Import Filters QueryAssistant.

(** ** What each step does to the session and to the call log *)

(** Opens the monadic operations of a step handler. *)
Ltac open_eff :=
  unfold mbind, Eff_bind, mret, Eff_ret, session, mutate, modify, try_catch;
  cbn [fst snd].

Lemma processEntityStep_run conn input s log :
  exists m,
    processEntityStep conn input (s, log)
    = (Ok (pending m),
       (match Connector.getEntityMetadata conn (entityOfInput input)
                validationRequest with
        | Ok _ =>
            set_currentStep (js "action")
              (set_entity (Some (entityOfInput input)) s)
        | Throw _ => s
        end,
        log ++ [Connector.CallGetEntityMetadata (entityOfInput input)
                  validationRequest])).
Proof.
  unfold processEntityStep, call_getEntityMetadata. open_eff.
  destruct (Connector.getEntityMetadata conn (entityOfInput input)
              validationRequest); eexists; reflexivity.
Qed.

Lemma processActionStep_run input s (log : list Connector.Call) :
  exists m,
    processActionStep input (s, log)
    = (Ok (pending m),
       (match actionOfInput (toLowerCase (trim input)) with
        | Some a => set_currentStep (js "filter") (set_action (Some a) s)
        | None => s
        end,
        log)).
Proof.
  unfold processActionStep. cbv zeta.
  destruct (actionOfInput (toLowerCase (trim input))) as [a|];
    [|eexists; reflexivity].
  open_eff. destruct (Js.eqb a (js "get")); eexists; reflexivity.
Qed.

Lemma processFilterStep_run input s (log : list Connector.Call) :
  exists m,
    processFilterStep input (s, log)
    = (Ok (pending m),
       (match
          (if includes (map js ["não"; "nao"; "sem filtro"; "sem"; "n"; "no";
                                "none"]%string) (toLowerCase (trim input))
           then Some []
           else if Js.eqb (default [] (action s)) (js "get")
           then Some [(js "id", FRaw (trim input))]
           else match parseFilterInput (toLowerCase (trim input)) with
                | Ok f => Some f
                | Throw _ => None
                end)
        with
        | Some f => set_currentStep (js "fields") (set_filter (Some f) s)
        | None => s
        end,
        log)).
Proof.
  unfold processFilterStep. cbv zeta. open_eff.
  destruct (includes _ (toLowerCase (trim input))); [eexists; reflexivity|].
  destruct (Js.eqb (default [] (action s)) (js "get"));
    [eexists; reflexivity|].
  destruct (parseFilterInput (toLowerCase (trim input)));
    eexists; reflexivity.
Qed.

Lemma processFieldsStep_run input s (log : list Connector.Call) :
  exists m,
    processFieldsStep input (s, log)
    = (Ok (pending m),
       (set_currentStep
          (if Js.eqb (default [] (action s)) (js "get")
              || Js.eqb (default [] (action s)) (js "count")
           then js "confirm" else js "orderBy")
          (set_fields
             (if includes (map js ["todos"; "all"; "tudo"; "*"]%string)
                   (toLowerCase (trim input))
              then None
              else Some (List.filter truthy
                           (map trim
                              (split comma (toLowerCase (trim input))))))
             s),
        log)).
Proof.
  unfold processFieldsStep. cbv zeta. open_eff.
  destruct (includes _ (toLowerCase (trim input)));
    open_eff; cbn [set_fields action];
    destruct (Js.eqb (default [] (action s)) (js "get"));
    try (eexists; reflexivity);
    destruct (Js.eqb (default [] (action s)) (js "count"));
    eexists; reflexivity.
Qed.

Lemma processOrderByStep_run input s (log : list Connector.Call) :
  exists m,
    processOrderByStep input (s, log)
    = (Ok (pending m),
       (match
          (if includes defaultWords (toLowerCase (trim input))
           then Some (js "createdon desc")
           else match parseOrderByInput (toLowerCase (trim input)) with
                | Ok o => Some o
                | Throw _ => None
                end)
        with
        | Some o => set_currentStep (js "limit") (set_orderBy (Some o) s)
        | None => s
        end,
        log)).
Proof.
  unfold processOrderByStep. cbv zeta.
  destruct (includes defaultWords (toLowerCase (trim input)));
    [open_eff; eexists; reflexivity|].
  destruct (parseOrderByInput (toLowerCase (trim input)));
    open_eff; eexists; reflexivity.
Qed.

Lemma processLimitStep_run input s (log : list Connector.Call) :
  exists m,
    processLimitStep input (s, log)
    = (Ok (pending m),
       (match
          (if includes defaultWords (toLowerCase (trim input))
           then Some 50%Z
           else match parseInt (toLowerCase (trim input)) with
                | Some n => if (n <=? 0)%Z then None else Some n
                | None => None
                end)
        with
        | Some n => set_currentStep (js "confirm") (set_limit (Some n) s)
        | None => s
        end,
        log)).
Proof.
  unfold processLimitStep. cbv zeta.
  destruct (includes defaultWords (toLowerCase (trim input)));
    [open_eff; eexists; reflexivity|].
  destruct (parseInt (toLowerCase (trim input))) as [n|];
    [|eexists; reflexivity].
  destruct (n <=? 0)%Z; open_eff; eexists; reflexivity.
Qed.

(** [executeQuery] on the session [s0]: the request that it sends and what
    it makes of the answer.  The session object is not written to. *)
Lemma executeQuery_run conn s0 s log :
  executeQuery conn s0 (s, log)
  = if negb (truthy_opt (entity s0)) || negb (truthy_opt (action s0)) then
      (Throw (js "Parâmetros de consulta incompletos"), (s, log))
    else
      let e := default [] (entity s0) in
      let a := default [] (action s0) in
      let filter := buildODataFilter e (default [] (filter s0)) in
      if Js.eqb a (js "list") then
        let request :=
          {| Connector.filter := truthy_or_undefined filter;
             Connector.select := fields s0;
             Connector.orderBy := orderBy s0;
             Connector.top := limit s0 |} in
        (match Connector.queryEntities conn e request with
         | Ok results => Ok (Records results)
         | Throw m => Throw m
         end,
         (s, log ++ [Connector.CallQueryEntities e request]))
      else if Js.eqb a (js "get") then
        let request :=
          {| Connector.filter := truthy_or_undefined filter;
             Connector.select := fields s0;
             Connector.orderBy := None;
             Connector.top := Some 1%Z |} in
        (match Connector.queryEntities conn e request with
         | Ok [] =>
             Throw (js "Nenhum registro encontrado com os filtros especificados.")
         | Ok (first :: _) => Ok (OneRecord first)
         | Throw m => Throw m
         end,
         (s, log ++ [Connector.CallQueryEntities e request]))
      else if Js.eqb a (js "count") then
        let request :=
          {| Connector.filter := truthy_or_undefined filter;
             Connector.select := Some [js "createdon"];
             Connector.orderBy := None;
             Connector.top := Some 1000%Z |} in
        (match Connector.queryEntities conn e request with
         | Ok countResults => Ok (Count (length countResults) e filter)
         | Throw m => Throw m
         end,
         (s, log ++ [Connector.CallQueryEntities e request]))
      else (Throw (js "Ação '" ++ a ++ js "' não suportada."), (s, log)).
Proof.
  unfold executeQuery.
  destruct (negb (truthy_opt (entity s0)) || negb (truthy_opt (action s0)));
    [reflexivity|].
  cbv zeta. unfold mbind, Eff_bind, call_queryEntities. cbn [fst snd].
  destruct (Js.eqb (default [] (action s0)) (js "list")).
  { destruct (Connector.queryEntities conn _ _); reflexivity. }
  destruct (Js.eqb (default [] (action s0)) (js "get")).
  { destruct (Connector.queryEntities conn _ _) as [[|first rest]|m];
      reflexivity. }
  destruct (Js.eqb (default [] (action s0)) (js "count")); [|reflexivity].
  destruct (Connector.queryEntities conn _ _); reflexivity.
Qed.

Lemma processConfirmStep_run conn input s log :
  exists m,
    processConfirmStep conn input (s, log)
    = if includes affirmative (toLowerCase (trim input)) then
        match executeQuery conn s (s, log) with
        | (Ok result, (s', log')) =>
            (Ok {| message := js "Consulta executada com sucesso!";
                   reply_completed := true;
                   result := Some result |},
             (set_completed true s', log'))
        | (Throw error, st') => (Ok (queryFailed error), st')
        end
      else if includes negative (toLowerCase (trim input)) then
        (Ok (pending m),
         ({| id := id s; startTime := startTime s;
             lastActivity := lastActivity s;
             currentStep := js "entity"; entity := None; action := None;
             filter := None; fields := None; orderBy := None; limit := None;
             expand := expand s; completed := completed s |},
          log))
      else (Ok (pending m), (s, log)).
Proof.
  unfold processConfirmStep. cbv zeta.
  destruct (includes affirmative (toLowerCase (trim input))).
  { exists []. open_eff.
    destruct (executeQuery conn s (s, log)) as [[result|error] [s' log']];
      reflexivity. }
  destruct (includes negative (toLowerCase (trim input)));
    open_eff; eexists; reflexivity.
Qed.

Lemma eqb_true (a b : jsstring) : Js.eqb a b = true -> a = b.
Proof. unfold Js.eqb. apply bool_decide_eq_true_1. Qed.

Lemma eqb_false (a b : jsstring) : Js.eqb a b = false -> a <> b.
Proof. unfold Js.eqb. apply bool_decide_eq_false_1. Qed.


(** The turns of the assistant as a transition system: what the handler of
    the current step can make of a session [s] and a call log [log], and
    whether the reply says [completed]. *)
Lemma dispatch_effect conn input s log :
  exists reply s' log',
    dispatch conn input (s, log) = (Ok reply, (s', log'))
    /\ ((currentStep s = js "entity" /\ reply_completed reply = false
         /\ log' = log ++ [Connector.CallGetEntityMetadata (entityOfInput input)
                             validationRequest]
         /\ (s' = s
             \/ s' = set_currentStep (js "action")
                       (set_entity (Some (entityOfInput input)) s)))
        \/ (currentStep s = js "action" /\ reply_completed reply = false
            /\ log' = log
            /\ (s' = s
                \/ exists a,
                     In a (map js ["list"; "get"; "count"]%string)
                     /\ s' = set_currentStep (js "filter")
                               (set_action (Some a) s)))
        \/ (currentStep s = js "filter" /\ reply_completed reply = false
            /\ log' = log
            /\ (s' = s
                \/ exists f,
                     (f = []
                      \/ (Js.eqb (default [] (action s)) (js "get") = true
                          /\ f = [(js "id", FRaw (trim input))])
                      \/ (Js.eqb (default [] (action s)) (js "get") = false
                          /\ parseFilterInput (toLowerCase (trim input))
                             = Ok f))
                     /\ s' = set_currentStep (js "fields")
                               (set_filter (Some f) s)))
        \/ (currentStep s = js "fields" /\ reply_completed reply = false
            /\ log' = log
            /\ exists fs,
                 (fs = None
                  \/ fs = Some (List.filter truthy
                                  (map trim
                                     (split comma (toLowerCase (trim input))))))
                 /\ s' = set_currentStep
                           (if Js.eqb (default [] (action s)) (js "get")
                               || Js.eqb (default [] (action s)) (js "count")
                            then js "confirm" else js "orderBy")
                           (set_fields fs s))
        \/ (currentStep s = js "orderBy" /\ reply_completed reply = false
            /\ log' = log
            /\ (s' = s
                \/ exists o,
                     (o = js "createdon desc"
                      \/ parseOrderByInput (toLowerCase (trim input)) = Ok o)
                     /\ s' = set_currentStep (js "limit")
                               (set_orderBy (Some o) s)))
        \/ (currentStep s = js "limit" /\ reply_completed reply = false
            /\ log' = log
            /\ (s' = s
                \/ exists n, (n > 0)%Z
                             /\ s' = set_currentStep (js "confirm")
                                       (set_limit (Some n) s)))
        \/ (currentStep s = js "confirm"
            /\ ((reply_completed reply = false /\ s' = s
                 /\ (log' = log
                     \/ (includes affirmative (toLowerCase (trim input)) = true
                         /\ exists e request,
                              entity s = Some e
                              /\ log' = log
                                        ++ [Connector.CallQueryEntities e
                                              request])))
                \/ (reply_completed reply = true
                    /\ s' = set_completed true s
                    /\ includes affirmative (toLowerCase (trim input)) = true
                    /\ exists e request records,
                         entity s = Some e
                         /\ log' = log ++ [Connector.CallQueryEntities e request]
                         /\ Connector.queryEntities conn e request = Ok records)
                \/ (reply_completed reply = false /\ log' = log
                    /\ s' = {| id := id s; startTime := startTime s;
                               lastActivity := lastActivity s;
                               currentStep := js "entity"; entity := None;
                               action := None; filter := None; fields := None;
                               orderBy := None; limit := None;
                               expand := expand s;
                               completed := completed s |})))
        \/ (~ In (currentStep s)
                 (map js ["entity"; "action"; "filter"; "fields"; "orderBy";
                          "limit"; "confirm"]%string)
            /\ reply_completed reply = false /\ s' = s /\ log' = log)).
Proof.
  rewrite dispatch_step. cbn [fst].
  destruct (Js.eqb (currentStep s) (js "entity")) eqn:H1.
  { apply eqb_true in H1.
    destruct (processEntityStep_run conn input s log) as [m ->].
    eexists _, _, _. split; [reflexivity|]. left.
    split; [exact H1|]. split; [reflexivity|]. split; [reflexivity|].
    destruct (Connector.getEntityMetadata conn _ _); [right | left];
      reflexivity. }
  destruct (Js.eqb (currentStep s) (js "action")) eqn:H2.
  { apply eqb_true in H2.
    destruct (processActionStep_run input s log) as [m ->].
    eexists _, _, _. split; [reflexivity|]. right. left.
    split; [exact H2|]. split; [reflexivity|]. split; [reflexivity|].
    unfold actionOfInput.
    destruct (includes _ (toLowerCase (trim input))).
    { right. eexists. split; [|reflexivity]. left. reflexivity. }
    destruct (includes _ (toLowerCase (trim input))).
    { right. eexists. split; [|reflexivity]. right. left. reflexivity. }
    destruct (includes _ (toLowerCase (trim input))).
    { right. eexists. split; [|reflexivity]. right. right. left.
      reflexivity. }
    left. reflexivity. }
  destruct (Js.eqb (currentStep s) (js "filter")) eqn:H3.
  { apply eqb_true in H3.
    destruct (processFilterStep_run input s log) as [m ->].
    eexists _, _, _. split; [reflexivity|]. do 2 right. left.
    split; [exact H3|]. split; [reflexivity|]. split; [reflexivity|].
    destruct (includes _ (toLowerCase (trim input))).
    { right. eexists. split; [|reflexivity]. left. reflexivity. }
    destruct (Js.eqb (default [] (action s)) (js "get")).
    { right. eexists. split; [|reflexivity]. right. left.
      split; reflexivity. }
    destruct (parseFilterInput (toLowerCase (trim input))) as [f|error];
      [|left; reflexivity].
    right. exists f. split; [|reflexivity]. right. right.
    split; reflexivity. }
  destruct (Js.eqb (currentStep s) (js "fields")) eqn:H4.
  { apply eqb_true in H4.
    destruct (processFieldsStep_run input s log) as [m ->].
    eexists _, _, _. split; [reflexivity|]. do 3 right. left.
    split; [exact H4|]. split; [reflexivity|]. split; [reflexivity|].
    eexists. split; [|reflexivity].
    destruct (includes _ (toLowerCase (trim input)));
      [left | right]; reflexivity. }
  destruct (Js.eqb (currentStep s) (js "orderBy")) eqn:H5.
  { apply eqb_true in H5.
    destruct (processOrderByStep_run input s log) as [m ->].
    eexists _, _, _. split; [reflexivity|]. do 4 right. left.
    split; [exact H5|]. split; [reflexivity|]. split; [reflexivity|].
    destruct (includes defaultWords (toLowerCase (trim input))).
    { right. eexists. split; [|reflexivity]. left. reflexivity. }
    destruct (parseOrderByInput (toLowerCase (trim input))) as [o|error];
      [|left; reflexivity].
    right. exists o. split; [|reflexivity]. right. reflexivity. }
  destruct (Js.eqb (currentStep s) (js "limit")) eqn:H6.
  { apply eqb_true in H6.
    destruct (processLimitStep_run input s log) as [m ->].
    eexists _, _, _. split; [reflexivity|]. do 5 right. left.
    split; [exact H6|]. split; [reflexivity|]. split; [reflexivity|].
    destruct (includes defaultWords (toLowerCase (trim input))).
    { right. exists 50%Z. split; [lia | reflexivity]. }
    destruct (parseInt (toLowerCase (trim input))) as [n|]; [|left; reflexivity].
    destruct (Z.leb_spec n 0); [left; reflexivity|].
    right. exists n. split; [lia | reflexivity]. }
  destruct (Js.eqb (currentStep s) (js "confirm")) eqn:H7.
  { apply eqb_true in H7.
    destruct (processConfirmStep_run conn input s log) as [m ->].
    destruct (includes affirmative (toLowerCase (trim input))) eqn:Hyes.
    - rewrite executeQuery_run.
      destruct (negb (truthy_opt (entity s)) || negb (truthy_opt (action s)))
        eqn:Hmissing.
      { eexists _, _, _. split; [reflexivity|]. do 6 right. left.
        split; [exact H7|]. left. split; [reflexivity|].
        split; [reflexivity|]. left. reflexivity. }
      assert (He : entity s = Some (default [] (entity s))).
      { destruct (entity s); [reflexivity | discriminate Hmissing]. }
      cbv zeta.
      destruct (Js.eqb (default [] (action s)) (js "list")).
      { destruct (Connector.queryEntities conn _ _) as [records|error] eqn:Hq;
          eexists _, _, _; (split; [reflexivity|]); do 6 right; left;
          (split; [exact H7|]).
        - right. left. split; [reflexivity|]. split; [reflexivity|].
          split; [reflexivity|]. eexists _, _, _.
          split; [exact He|]. split; [reflexivity | exact Hq].
        - left. split; [reflexivity|]. split; [reflexivity|]. right.
          split; [reflexivity|]. eexists _, _.
          split; [exact He | reflexivity]. }
      destruct (Js.eqb (default [] (action s)) (js "get")).
      { destruct (Connector.queryEntities conn _ _)
          as [[|first rest]|error] eqn:Hq;
          eexists _, _, _; (split; [reflexivity|]); do 6 right; left;
          (split; [exact H7|]).
        - left. split; [reflexivity|]. split; [reflexivity|]. right.
          split; [reflexivity|]. eexists _, _.
          split; [exact He | reflexivity].
        - right. left. split; [reflexivity|]. split; [reflexivity|].
          split; [reflexivity|]. eexists _, _, _.
          split; [exact He|]. split; [reflexivity | exact Hq].
        - left. split; [reflexivity|]. split; [reflexivity|]. right.
          split; [reflexivity|]. eexists _, _.
          split; [exact He | reflexivity]. }
      destruct (Js.eqb (default [] (action s)) (js "count")).
      { destruct (Connector.queryEntities conn _ _) as [records|error] eqn:Hq;
          eexists _, _, _; (split; [reflexivity|]); do 6 right; left;
          (split; [exact H7|]).
        - right. left. split; [reflexivity|]. split; [reflexivity|].
          split; [reflexivity|]. eexists _, _, _.
          split; [exact He|]. split; [reflexivity | exact Hq].
        - left. split; [reflexivity|]. split; [reflexivity|]. right.
          split; [reflexivity|]. eexists _, _.
          split; [exact He | reflexivity]. }
      eexists _, _, _. split; [reflexivity|]. do 6 right. left.
      split; [exact H7|]. left. split; [reflexivity|].
      split; [reflexivity|]. left. reflexivity.
    - destruct (includes negative (toLowerCase (trim input))).
      + eexists _, _, _. split; [reflexivity|]. do 6 right. left.
        split; [exact H7|]. right. right. split; [reflexivity|].
        split; reflexivity.
      + eexists _, _, _. split; [reflexivity|]. do 6 right. left.
        split; [exact H7|]. left. split; [reflexivity|].
        split; [reflexivity|]. left. reflexivity. }
  eexists _, _, _. split; [reflexivity|]. do 7 right.
  split; [|split; [reflexivity | split; reflexivity]].
  apply eqb_false in H1, H2, H3, H4, H5, H6, H7.
  cbn [map In]. intros [H|[H|[H|[H|[H|[H|[H|[]]]]]]]]; congruence.
Qed.

(** The two tests of the fields step on the action, as a decision. *)
Lemma get_or_count (s : QuerySession) :
  Js.eqb (default [] (action s)) (js "get")
  || Js.eqb (default [] (action s)) (js "count")
  = bool_decide (action s = Some (js "get") \/ action s = Some (js "count")).
Proof.
  unfold Js.eqb.
  destruct (action s) as [a|]; cbn [default from_option Datatypes.id];
    repeat case_bool_decide; cbn [orb]; try reflexivity; exfalso.
  all: try match goal with
           | H : [] = js _ |- _ => vm_compute in H; discriminate H
           end.
  all: try match goal with
           | H : ~ (_ \/ _), E : _ = js _ |- _ =>
               apply H; rewrite E;
               first [left; reflexivity | right; reflexivity]
           end.
  all: match goal with
       | H : _ \/ _ |- _ => destruct H as [[= H]|[= H]]; congruence
       end.
Qed.

(** X18: the assistant moves along its steps and never skips one.  After
    a turn the session is at the same step or at the next: [entity] to
    [action], [action] to [filter], [filter] to [fields], [orderBy] to
    [limit], [limit] to [confirm], and [confirm] stays or goes back to
    [entity]; the [fields] step accepts every input and goes to [confirm]
    for the actions get and count and to [orderBy] otherwise.  A step of
    another name is left as it is. *)
Theorem processInput_follows_the_steps
    (conn : Connector.t) (now : Z) (sessionId input : jsstring) (st : State)
    (s : QuerySession) :
  sessions st !! sessionId = Some s ->
  exists s',
    sessions (processInput conn now sessionId input st).2 !! sessionId
    = Some s'
    /\ (currentStep s = js "entity" ->
        currentStep s' = js "entity" \/ currentStep s' = js "action")
    /\ (currentStep s = js "action" ->
        currentStep s' = js "action" \/ currentStep s' = js "filter")
    /\ (currentStep s = js "filter" ->
        currentStep s' = js "filter" \/ currentStep s' = js "fields")
    /\ (currentStep s = js "fields" ->
        currentStep s'
        = if bool_decide (action s = Some (js "get")
                          \/ action s = Some (js "count"))
          then js "confirm" else js "orderBy")
    /\ (currentStep s = js "orderBy" ->
        currentStep s' = js "orderBy" \/ currentStep s' = js "limit")
    /\ (currentStep s = js "limit" ->
        currentStep s' = js "limit" \/ currentStep s' = js "confirm")
    /\ (currentStep s = js "confirm" ->
        currentStep s' = js "confirm" \/ currentStep s' = js "entity")
    /\ (~ In (currentStep s)
             (map js ["entity"; "action"; "filter"; "fields"; "orderBy";
                      "limit"; "confirm"]%string) ->
        currentStep s' = currentStep s).
Proof.
  intros Hs.
  destruct (dispatch_effect conn input (set_lastActivity now s) (calls st))
    as [reply [s' [log' [Hd Hcases]]]].
  rewrite (processInput_turn _ _ _ _ _ _ _ _ _ Hs Hd).
  cbn [snd sessions]. rewrite lookup_insert_eq. exists s'.
  split; [reflexivity|].
  cbn [currentStep set_lastActivity action] in Hcases.
  pose proof (get_or_count s) as Hfields.
  destruct Hcases as
    [[Hstep [_ [_ Hs']]]
    |[[Hstep [_ [_ Hs']]]
    |[[Hstep [_ [_ Hs']]]
    |[[Hstep [_ [_ [fs [_ Hs']]]]]
    |[[Hstep [_ [_ Hs']]]
    |[[Hstep [_ [_ Hs']]]
    |[[Hstep Hs']
    |[Hstep [_ [Hs' _]]]]]]]]]];
    repeat split; intros Hnow;
    try (rewrite Hstep in Hnow; vm_compute in Hnow; discriminate Hnow);
    try (exfalso; apply Hnow; rewrite Hstep; vm_compute; tauto);
    try (exfalso; apply Hstep; rewrite Hnow; vm_compute; tauto).
  - destruct Hs' as [->| ->]; [left; exact Hstep | right; reflexivity].
  - destruct Hs' as [->|[a [_ ->]]]; [left; exact Hstep | right; reflexivity].
  - destruct Hs' as [->|[f [_ ->]]]; [left; exact Hstep | right; reflexivity].
  - rewrite Hs', <- Hfields. reflexivity.
  - destruct Hs' as [->|[o [_ ->]]]; [left; exact Hstep | right; reflexivity].
  - destruct Hs' as [->|[n [_ ->]]]; [left; exact Hstep | right; reflexivity].
  - destruct Hs' as [[_ [-> _]]|[[_ [-> _]]|[_ [_ ->]]]];
      [left; exact Hstep | left; exact Hstep | right; reflexivity].
  - subst s'. reflexivity.
Qed.

Lemma processInput_follows_the_steps_witness :
  exists s',
    sessions
      (processInput Sample.connector 1000 (js "query-17-abc1234")
         (js "nome = Contoso") Sample.awaitingFilter).2
    !! js "query-17-abc1234" = Some s'
    /\ (currentStep s' = js "filter" \/ currentStep s' = js "fields").
Proof.
  assert (Hs : sessions Sample.awaitingFilter !! js "query-17-abc1234"
               = Some Sample.filtering) by reflexivity.
  destruct (processInput_follows_the_steps Sample.connector 1000
              (js "query-17-abc1234") (js "nome = Contoso")
              Sample.awaitingFilter Sample.filtering Hs)
    as [s' [Hs' [_ [_ [Hfilter _]]]]].
  exists s'. split; [exact Hs'|]. apply Hfilter. reflexivity.
Defined.

(** X19: a turn touches the session it addresses and no other.  The
    session stays in the store with its id, its start time and its
    [expand] as they were and with the time of the turn as its last
    activity, whatever the input; every other session of the store is
    left as it is. *)
Theorem processInput_touches_one_session
    (conn : Connector.t) (now : Z) (sessionId input : jsstring) (st : State)
    (s : QuerySession) :
  sessions st !! sessionId = Some s ->
  (exists s',
     sessions (processInput conn now sessionId input st).2 !! sessionId
     = Some s'
     /\ id s' = id s /\ startTime s' = startTime s
     /\ lastActivity s' = now /\ expand s' = expand s)
  /\ (forall other,
        other <> sessionId ->
        sessions (processInput conn now sessionId input st).2 !! other
        = sessions st !! other).
Proof.
  intros Hs.
  destruct (dispatch_effect conn input (set_lastActivity now s) (calls st))
    as [reply [s' [log' [Hd Hcases]]]].
  rewrite (processInput_turn _ _ _ _ _ _ _ _ _ Hs Hd).
  cbn [snd sessions]. split.
  - exists s'. rewrite lookup_insert_eq. split; [reflexivity|].
    destruct Hcases as
      [[_ [_ [_ [->| ->]]]]
      |[[_ [_ [_ [->|[a [_ ->]]]]]]
      |[[_ [_ [_ [->|[f [_ ->]]]]]]
      |[[_ [_ [_ [fs [_ ->]]]]]
      |[[_ [_ [_ [->|[o [_ ->]]]]]]
      |[[_ [_ [_ [->|[n [_ ->]]]]]]
      |[[_ [[_ [-> _]]|[[_ [-> _]]|[_ [_ ->]]]]]
      |[_ [_ [-> _]]]]]]]]]];
      repeat split; reflexivity.
  - intros other Hother. apply lookup_insert_ne. congruence.
Qed.

Lemma processInput_touches_one_session_witness :
  (exists s',
     sessions
       (processInput Sample.connector 1000 (js "query-17-abc1234")
          (js "nome = Contoso") Sample.awaitingFilter).2
     !! js "query-17-abc1234" = Some s'
     /\ id s' = js "query-17-abc1234" /\ startTime s' = 17%Z
     /\ lastActivity s' = 1000%Z /\ expand s' = None)
  /\ sessions
       (processInput Sample.connector 1000 (js "query-17-abc1234")
          (js "nome = Contoso") Sample.awaitingFilter).2
     !! js "query-18-xyz" = None.
Proof.
  assert (Hs : sessions Sample.awaitingFilter !! js "query-17-abc1234"
               = Some Sample.filtering) by reflexivity.
  destruct (processInput_touches_one_session Sample.connector 1000
              (js "query-17-abc1234") (js "nome = Contoso")
              Sample.awaitingFilter Sample.filtering Hs)
    as [Hsame Hothers].
  split; [exact Hsame|].
  rewrite Hothers; [reflexivity|].
  intros H. vm_compute in H. discriminate H.
Defined.

(** X20: what a turn asks of the connector.  At the [entity] step every
    input, an empty one too, costs one schema request for the name read
    from the input, without its attributes.  At every other step the turn
    asks nothing, but for an affirmative answer at the [confirm] step,
    which sends one query for the entity of the session. *)
Theorem processInput_connector_use
    (conn : Connector.t) (now : Z) (sessionId input : jsstring) (st : State)
    (s : QuerySession) :
  sessions st !! sessionId = Some s ->
  (currentStep s = js "entity" ->
   calls (processInput conn now sessionId input st).2
   = calls st ++ [Connector.CallGetEntityMetadata (entityOfInput input)
                    validationRequest])
  /\ (currentStep s <> js "entity" ->
      calls (processInput conn now sessionId input st).2 = calls st
      \/ (currentStep s = js "confirm"
          /\ includes affirmative (toLowerCase (trim input)) = true
          /\ exists e request,
               entity s = Some e
               /\ calls (processInput conn now sessionId input st).2
                  = calls st ++ [Connector.CallQueryEntities e request])).
Proof.
  intros Hs.
  destruct (dispatch_effect conn input (set_lastActivity now s) (calls st))
    as [reply [s' [log' [Hd Hcases]]]].
  rewrite (processInput_turn _ _ _ _ _ _ _ _ _ Hs Hd).
  cbn [snd calls].
  cbn [currentStep set_lastActivity entity] in Hcases.
  destruct Hcases as
    [[Hstep [_ [Hlog _]]]
    |[[Hstep [_ [Hlog _]]]
    |[[Hstep [_ [Hlog _]]]
    |[[Hstep [_ [Hlog _]]]
    |[[Hstep [_ [Hlog _]]]
    |[[Hstep [_ [Hlog _]]]
    |[[Hstep Hconfirm]
    |[Hstep [_ [_ Hlog]]]]]]]]]];
    (split; intros Hnow;
     [try (exact Hlog);
      try (rewrite Hstep in Hnow; vm_compute in Hnow; discriminate Hnow);
      try (exfalso; apply Hstep; rewrite Hnow; vm_compute; tauto)
     |try (left; exact Hlog); try (exfalso; exact (Hnow Hstep))]).
  destruct Hconfirm as
    [[_ [_ [Hlog|[Hyes Hcall]]]]
    |[[_ [_ [Hyes [e [request [records [He [Hlog _]]]]]]]]
     |[_ [Hlog _]]]].
  - left. exact Hlog.
  - right. split; [exact Hstep|]. split; [exact Hyes | exact Hcall].
  - right. split; [exact Hstep|]. split; [exact Hyes|].
    exists e, request. split; [exact He | exact Hlog].
  - left. exact Hlog.
Qed.

Lemma processInput_connector_use_witness :
  calls
    (processInput Sample.connector 1000 (js "query-17-abc1234")
       (js "nome = Contoso") Sample.awaitingFilter).2
  = [].
Proof.
  assert (Hs : sessions Sample.awaitingFilter !! js "query-17-abc1234"
               = Some Sample.filtering) by reflexivity.
  destruct (processInput_connector_use Sample.connector 1000
              (js "query-17-abc1234") (js "nome = Contoso")
              Sample.awaitingFilter Sample.filtering Hs)
    as [_ Hother].
  destruct Hother as [Hlog|[Hstep _]].
  - intros H. vm_compute in H. discriminate H.
  - exact Hlog.
  - vm_compute in Hstep. discriminate Hstep.
Defined.

(** ** Conversations *)

(** What a turn keeps of a session: its id, start time and [expand], a
    step of the assistant, a positive limit and an action of the three. *)
Lemma turn_keeps_well_formed conn now sessionId input st s :
  sessions st !! sessionId = Some s ->
  In (currentStep s)
     (map js ["entity"; "action"; "filter"; "fields"; "orderBy"; "limit";
              "confirm"]%string) ->
  (forall n, limit s = Some n -> (n > 0)%Z) ->
  (forall a, action s = Some a ->
             In a (map js ["list"; "get"; "count"]%string)) ->
  exists s',
    sessions (processInput conn now sessionId input st).2 !! sessionId
    = Some s'
    /\ id s' = id s /\ startTime s' = startTime s /\ expand s' = expand s
    /\ In (currentStep s')
          (map js ["entity"; "action"; "filter"; "fields"; "orderBy"; "limit";
                   "confirm"]%string)
    /\ (forall n, limit s' = Some n -> (n > 0)%Z)
    /\ (forall a, action s' = Some a ->
                  In a (map js ["list"; "get"; "count"]%string)).
Proof.
  intros Hs Hstep Hlimit Haction.
  destruct (dispatch_effect conn input (set_lastActivity now s) (calls st))
    as [reply [s' [log' [Hd Hcases]]]].
  rewrite (processInput_turn _ _ _ _ _ _ _ _ _ Hs Hd).
  cbn [snd sessions]. rewrite lookup_insert_eq. exists s'.
  split; [reflexivity|].
  destruct Hcases as
    [[_ [_ [_ [->| ->]]]]
    |[[_ [_ [_ [->|[a [Ha ->]]]]]]
    |[[_ [_ [_ [->|[f [_ ->]]]]]]
    |[[_ [_ [_ [fs [_ ->]]]]]
    |[[_ [_ [_ [->|[o [_ ->]]]]]]
    |[[_ [_ [_ [->|[n [Hn ->]]]]]]
    |[[_ [[_ [-> _]]|[[_ [-> _]]|[_ [_ ->]]]]]
    |[_ [_ [-> _]]]]]]]]]];
    cbn [id startTime expand currentStep limit action set_lastActivity
         set_currentStep set_entity set_action set_filter set_fields
         set_orderBy set_limit set_completed];
    (split; [reflexivity|]); (split; [reflexivity|]);
    (split; [reflexivity|]);
    (split;
     [first [exact Hstep
            | match goal with
              | |- context [if ?b then _ else _] => destruct b
              end;
              cbn [map In]; auto 10
            | cbn [map In]; auto 10]
     |split;
      [first [exact Hlimit | intros n0 [= <-]; exact Hn | intros n0 [=]]
      |first [exact Haction | intros a0 [= <-]; exact Ha | intros a0 [=]]]]).
Qed.

Lemma converse_keeps_well_formed conn sessionId turns :
  forall st s,
    sessions st !! sessionId = Some s ->
    In (currentStep s)
       (map js ["entity"; "action"; "filter"; "fields"; "orderBy"; "limit";
                "confirm"]%string) ->
    (forall n, limit s = Some n -> (n > 0)%Z) ->
    (forall a, action s = Some a ->
               In a (map js ["list"; "get"; "count"]%string)) ->
    exists s',
      sessions (converse conn sessionId turns st).2 !! sessionId = Some s'
      /\ id s' = id s /\ startTime s' = startTime s /\ expand s' = expand s
      /\ In (currentStep s')
            (map js ["entity"; "action"; "filter"; "fields"; "orderBy";
                     "limit"; "confirm"]%string)
      /\ (forall n, limit s' = Some n -> (n > 0)%Z)
      /\ (forall a, action s' = Some a ->
                    In a (map js ["list"; "get"; "count"]%string)).
Proof.
  induction turns as [|[now input] turns IH]; intros st s Hs Hstep Hlimit Hact.
  - exists s. cbn [converse snd]. repeat split; assumption.
  - destruct (turn_keeps_well_formed conn now sessionId input st s Hs Hstep
                Hlimit Hact)
      as [s1 [Hs1 [Hid [Hstart [Hexpand [Hstep1 [Hlimit1 Hact1]]]]]]].
    cbn [converse].
    destruct (processInput conn now sessionId input st) as [out st1].
    cbn [snd] in Hs1.
    destruct (IH st1 s1 Hs1 Hstep1 Hlimit1 Hact1)
      as [s2 [Hs2 [Hid2 [Hstart2 [Hexpand2 Hrest]]]]].
    destruct (converse conn sessionId turns st1) as [outs st2].
    cbn [snd] in Hs2 |- *. exists s2.
    split; [exact Hs2|]. split; [congruence|]. split; [congruence|].
    split; [congruence | exact Hrest].
Qed.

Lemma converse_answers conn sessionId turns :
  forall st,
    length (converse conn sessionId turns st).1 = length turns
    /\ Forall (fun out => exists reply, out = Ok reply)
         (converse conn sessionId turns st).1.
Proof.
  induction turns as [|[now input] turns IH]; intros st.
  - split; [reflexivity | constructor].
  - cbn [converse].
    destruct (processInput_never_throws conn now sessionId input st)
      as [reply Hreply].
    destruct (processInput conn now sessionId input st) as [out st1].
    cbn [fst] in Hreply. subst out.
    destruct (IH st1) as [Hlen Hall].
    destruct (converse conn sessionId turns st1) as [outs st2].
    cbn [fst length] in *. split; [congruence|].
    constructor; [exists reply; reflexivity | exact Hall].
Qed.

(** X21: a conversation cannot break its session.  For a session that
    [startSession] opened, after any inputs at any times: every input was
    answered by a reply and none by an error; the session is still in the
    store under its id, with its start time and without [expand]; it is at
    one of the seven steps; the limit, when there is one, is positive; and
    the action, when there is one, is [list], [get] or [count]. *)
Theorem conversation_keeps_session_well_formed
    (conn : Connector.t) (now : Z) (random : jsstring)
    (turns : list (Z * jsstring)) (st : State) :
  let sessionId := (startSession now random st).1.1 in
  let run := converse conn sessionId turns (startSession now random st).2 in
  length run.1 = length turns
  /\ Forall (fun out => exists reply, out = Ok reply) run.1
  /\ exists s,
       sessions run.2 !! sessionId = Some s
       /\ id s = sessionId /\ startTime s = now /\ expand s = None
       /\ In (currentStep s)
             (map js ["entity"; "action"; "filter"; "fields"; "orderBy";
                      "limit"; "confirm"]%string)
       /\ (forall n, limit s = Some n -> (n > 0)%Z)
       /\ (forall a, action s = Some a ->
                     In a (map js ["list"; "get"; "count"]%string)).
Proof.
  intros sessionId run.
  destruct (converse_answers conn sessionId turns
              (startSession now random st).2) as [Hlen Hall].
  split; [exact Hlen|]. split; [exact Hall|].
  pose (s0 :=
    {| id := sessionId; startTime := now; lastActivity := now;
       currentStep := js "entity"; entity := None; action := None;
       filter := None; fields := None; orderBy := None; limit := None;
       expand := None; completed := false |}).
  assert (Hs0 : sessions (startSession now random st).2 !! sessionId
                = Some s0).
  { unfold startSession. cbn [snd sessions]. apply lookup_insert_eq. }
  destruct (converse_keeps_well_formed conn sessionId turns
              (startSession now random st).2 s0 Hs0)
    as [s [Hs [Hid [Hstart [Hexpand Hrest]]]]].
  - left. reflexivity.
  - intros n [=].
  - intros a [=].
  - exists s. split; [exact Hs|]. split; [exact Hid|].
    split; [exact Hstart|]. split; [exact Hexpand | exact Hrest].
Qed.

(** X22: [completed] is set by a query that succeeded and by nothing
    else, and is never taken back.  After a turn the flag of the session
    is its flag before or that of the reply; and a reply says
    [completed: true] only at the [confirm] step, for an affirmative
    answer, after the one query of the turn gave records.  The session
    then stays at [confirm]. *)
Theorem processInput_completes_on_success
    (conn : Connector.t) (now : Z) (sessionId input : jsstring) (st : State)
    (s : QuerySession) :
  sessions st !! sessionId = Some s ->
  exists reply s',
    (processInput conn now sessionId input st).1 = Ok reply
    /\ sessions (processInput conn now sessionId input st).2 !! sessionId
       = Some s'
    /\ completed s' = completed s || reply_completed reply
    /\ (reply_completed reply = true ->
        currentStep s = js "confirm" /\ currentStep s' = js "confirm"
        /\ includes affirmative (toLowerCase (trim input)) = true
        /\ exists e request records,
             entity s = Some e
             /\ Connector.queryEntities conn e request = Ok records
             /\ calls (processInput conn now sessionId input st).2
                = calls st ++ [Connector.CallQueryEntities e request]).
Proof.
  intros Hs.
  destruct (dispatch_effect conn input (set_lastActivity now s) (calls st))
    as [reply [s' [log' [Hd Hcases]]]].
  rewrite (processInput_turn _ _ _ _ _ _ _ _ _ Hs Hd).
  cbn [fst snd sessions calls]. rewrite lookup_insert_eq.
  exists reply, s'. split; [reflexivity|]. split; [reflexivity|].
  cbn [currentStep set_lastActivity entity] in Hcases.
  destruct Hcases as
    [[_ [Hr [_ [->| ->]]]]
    |[[_ [Hr [_ [->|[a [_ ->]]]]]]
    |[[_ [Hr [_ [->|[f [_ ->]]]]]]
    |[[_ [Hr [_ [fs [_ ->]]]]]
    |[[_ [Hr [_ [->|[o [_ ->]]]]]]
    |[[_ [Hr [_ [->|[n [_ ->]]]]]]
    |[[Hstep [[Hr [-> _]]|[[Hr [-> Hdone]]|[Hr [_ ->]]]]]
    |[_ [Hr [-> _]]]]]]]]]];
    rewrite Hr;
    try (split; [symmetry; apply orb_false_r | discriminate]).
  split; [symmetry; apply orb_true_r|]. intros _.
  destruct Hdone as [Hyes [e [request [records [He [Hlog Hq]]]]]].
  split; [exact Hstep|]. split; [exact Hstep|]. split; [exact Hyes|].
  exists e, request, records.
  split; [exact He|]. split; [exact Hq | exact Hlog].
Qed.

Lemma processInput_completes_on_success_witness :
  exists reply s',
    (processInput Sample.connector 1000 (js "query-17-abc1234") (js "sim")
       Sample.awaitingConfirmation).1 = Ok reply
    /\ sessions
         (processInput Sample.connector 1000 (js "query-17-abc1234")
            (js "sim") Sample.awaitingConfirmation).2
       !! js "query-17-abc1234" = Some s'
    /\ completed s' = reply_completed reply.
Proof.
  assert (Hs : sessions Sample.awaitingConfirmation !! js "query-17-abc1234"
               = Some Sample.confirming) by reflexivity.
  destruct (processInput_completes_on_success Sample.connector 1000
              (js "query-17-abc1234") (js "sim")
              Sample.awaitingConfirmation Sample.confirming Hs)
    as [reply [s' [Hreply [Hs' [Hflag _]]]]].
  exists reply, s'. split; [exact Hreply|]. split; [exact Hs' | exact Hflag].
Defined.

(** One turn at the confirm step with an affirmative answer. *)
Lemma turn_confirm_runs conn now sessionId input st s :
  sessions st !! sessionId = Some s ->
  currentStep s = js "confirm" ->
  includes affirmative (toLowerCase (trim input)) = true ->
  processInput conn now sessionId input st
  = match executeQuery conn (set_lastActivity now s)
            (set_lastActivity now s, calls st) with
    | (Ok result, (s', log')) =>
        (Ok {| message := js "Consulta executada com sucesso!";
               reply_completed := true;
               result := Some result |},
         {| sessions := <[sessionId := set_completed true s']> (sessions st);
            calls := log' |})
    | (Throw error, (s', log')) =>
        (Ok (queryFailed error),
         {| sessions := <[sessionId := s']> (sessions st); calls := log' |})
    end.
Proof.
  intros Hs Hstep Hyes.
  destruct (processConfirmStep_run conn input (set_lastActivity now s)
              (calls st)) as [m Hrun].
  rewrite Hyes in Hrun.
  assert (Hd : dispatch conn input (set_lastActivity now s, calls st)
               = processConfirmStep conn input
                   (set_lastActivity now s, calls st)).
  { apply dispatch_confirm. exact Hstep. }
  rewrite Hrun in Hd.
  destruct (executeQuery conn (set_lastActivity now s)
              (set_lastActivity now s, calls st))
    as [[result|error] [s' log']];
    exact (processInput_turn _ _ _ _ _ _ _ _ _ Hs Hd).
Qed.

(** C6: at the confirm step, when the answer is affirmative and the call
    that the turn sends to the connector throws, [processInput] returns
    normally with [completed: false] and the message that reports the
    error of the connector and asks whether to go on; the session stays in
    the store, and nothing of it has changed but [lastActivity]: the step
    is still [confirm], [completed] and the entity, action, filter, fields,
    ordering and limit are as before. *)
Theorem C6_failed_query_keeps_session
    (conn : Connector.t) (now : Z) (st : State) (sessionId input : jsstring)
    (s : QuerySession) (e : jsstring) (request : Connector.QueryOptions)
    (m : jsstring) :
  sessions st !! sessionId = Some s ->
  currentStep s = js "confirm" ->
  In (toLowerCase (trim input))
     (map js ["sim"; "yes"; "s"; "y"; "confirmar"; "executar"; "ok"]%string) ->
  calls (processInput conn now sessionId input st).2
  = calls st ++ [Connector.CallQueryEntities e request] ->
  Connector.queryEntities conn e request = Throw m ->
  let run := processInput conn now sessionId input st in
  run.1
  = Ok {| message :=
            jsn "Erro ao executar a consulta: " ++ m
            ++ jsn "\n\nDeseja modificar sua consulta? (sim/não)";
          reply_completed := false;
          result := None |}
  /\ sessions run.2 = <[sessionId := set_lastActivity now s]> (sessions st)
  /\ exists s',
       sessions run.2 !! sessionId = Some s'
       /\ lastActivity s' = now
       /\ currentStep s' = js "confirm"
       /\ completed s' = completed s
       /\ entity s' = entity s /\ action s' = action s
       /\ filter s' = filter s /\ fields s' = fields s
       /\ orderBy s' = orderBy s /\ limit s' = limit s.
Proof.
  intros Hs Hstep Hyes Hcall Hthrow run.
  assert (Hinc : includes affirmative (toLowerCase (trim input)) = true).
  { rewrite includes_decide. apply bool_decide_eq_true_2.
    apply list_elem_of_In. exact Hyes. }
  assert (Hsilent : calls st <> calls st ++ [Connector.CallQueryEntities e request]).
  { intros H. apply (f_equal length) in H. rewrite length_app in H.
    cbn [length] in H. lia. }
  assert (Hrun : run
    = (Ok (queryFailed m),
       {| sessions := <[sessionId := set_lastActivity now s]> (sessions st);
          calls := calls st ++ [Connector.CallQueryEntities e request] |})).
  { subst run. revert Hcall.
    rewrite (turn_confirm_runs _ _ _ _ _ _ Hs Hstep Hinc), executeQuery_run.
    destruct (negb (truthy_opt (entity (set_lastActivity now s)))
              || negb (truthy_opt (action (set_lastActivity now s)))).
    { cbn [snd calls]. intros Hcall. contradiction. }
    cbv zeta.
    destruct (Js.eqb (default [] (action (set_lastActivity now s)))
                (js "list")).
    { match goal with
      | |- context [Connector.queryEntities conn ?e0 ?r0] =>
          destruct (Connector.queryEntities conn e0 r0)
            as [records|error] eqn:Hq
      end;
        cbn [snd calls]; intros Hcall; apply app_inv_head in Hcall;
        injection Hcall as He Hrequest; subst e request;
        pose proof (eq_trans (eq_sym Hq) Hthrow) as Hsame;
        [discriminate Hsame|].
      injection Hsame as ->. reflexivity. }
    destruct (Js.eqb (default [] (action (set_lastActivity now s)))
                (js "get")).
    { match goal with
      | |- context [Connector.queryEntities conn ?e0 ?r0] =>
          destruct (Connector.queryEntities conn e0 r0)
            as [[|first rest]|error] eqn:Hq
      end;
        cbn [snd calls]; intros Hcall; apply app_inv_head in Hcall;
        injection Hcall as He Hrequest; subst e request;
        pose proof (eq_trans (eq_sym Hq) Hthrow) as Hsame;
        [discriminate Hsame | discriminate Hsame|].
      injection Hsame as ->. reflexivity. }
    destruct (Js.eqb (default [] (action (set_lastActivity now s)))
                (js "count")).
    { match goal with
      | |- context [Connector.queryEntities conn ?e0 ?r0] =>
          destruct (Connector.queryEntities conn e0 r0)
            as [records|error] eqn:Hq
      end;
        cbn [snd calls]; intros Hcall; apply app_inv_head in Hcall;
        injection Hcall as He Hrequest; subst e request;
        pose proof (eq_trans (eq_sym Hq) Hthrow) as Hsame;
        [discriminate Hsame|].
      injection Hsame as ->. reflexivity. }
    cbn [snd calls]. intros Hcall. contradiction. }
  rewrite Hrun. cbn [fst snd sessions].
  split; [reflexivity|]. split; [reflexivity|].
  exists (set_lastActivity now s). rewrite lookup_insert_eq.
  repeat split; try reflexivity. exact Hstep.
Qed.

Lemma C6_witness :
  let run :=
    processInput Sample.flaky 1000 (js "query-17-abc1234") (js " Sim ")
      Sample.awaitingConfirmation in
  run.1
  = Ok {| message :=
            jsn "Erro ao executar a consulta: " ++ js "Network Error"
            ++ jsn "\n\nDeseja modificar sua consulta? (sim/não)";
          reply_completed := false;
          result := None |}
  /\ sessions run.2
     = <[js "query-17-abc1234" := set_lastActivity 1000 Sample.confirming]>
         (sessions Sample.awaitingConfirmation).
Proof.
  assert (Hs : sessions Sample.awaitingConfirmation !! js "query-17-abc1234"
               = Some Sample.confirming) by reflexivity.
  assert (Hstep : currentStep Sample.confirming = js "confirm")
    by reflexivity.
  assert (Hyes : In (toLowerCase (trim (js " Sim ")))
                   (map js ["sim"; "yes"; "s"; "y"; "confirmar"; "executar";
                            "ok"]%string)).
  { left. vm_compute. reflexivity. }
  assert (Hcall :
    calls (processInput Sample.flaky 1000 (js "query-17-abc1234")
             (js " Sim ") Sample.awaitingConfirmation).2
    = calls Sample.awaitingConfirmation
      ++ [Connector.CallQueryEntities (js "accounts")
            {| Connector.select := None; Connector.filter := None;
               Connector.orderBy := Some (js "createdon desc");
               Connector.top := Some 50%Z |}]).
  { vm_compute. reflexivity. }
  assert (Hthrow :
    Connector.queryEntities Sample.flaky (js "accounts")
      {| Connector.select := None; Connector.filter := None;
         Connector.orderBy := Some (js "createdon desc");
         Connector.top := Some 50%Z |}
    = Throw (js "Network Error")).
  { vm_compute. reflexivity. }
  pose proof (C6_failed_query_keeps_session Sample.flaky 1000
                Sample.awaitingConfirmation (js "query-17-abc1234")
                (js " Sim ") Sample.confirming (js "accounts") _
                (js "Network Error") Hs Hstep Hyes Hcall Hthrow)
    as [Hreply [Hstore _]].
  split; [exact Hreply | exact Hstore].
Defined.

(** X23: a count is the size of one page.  At the [confirm] step of a
    [count] an affirmative answer sends one query, for the field
    [createdon] of at most 1000 records without an ordering, and the
    count that the reply reports is the number of records that came
    back; the limit of the session is not used. *)
Theorem confirm_count_reads_one_page
    (conn : Connector.t) (now : Z) (sessionId input : jsstring) (st : State)
    (s : QuerySession) (e : jsstring) (records : list Connector.CrmRecord) :
  sessions st !! sessionId = Some s ->
  currentStep s = js "confirm" ->
  includes affirmative (toLowerCase (trim input)) = true ->
  entity s = Some e ->
  truthy e = true ->
  action s = Some (js "count") ->
  Connector.queryEntities conn e
    {| Connector.select := Some [js "createdon"];
       Connector.filter :=
         truthy_or_undefined (buildODataFilter e (default [] (filter s)));
       Connector.orderBy := None;
       Connector.top := Some 1000%Z |}
  = Ok records ->
  processInput conn now sessionId input st
  = (Ok {| message := js "Consulta executada com sucesso!";
           reply_completed := true;
           result :=
             Some (Count (length records) e
                     (buildODataFilter e (default [] (filter s)))) |},
     {| sessions :=
          <[sessionId := set_completed true (set_lastActivity now s)]>
            (sessions st);
        calls :=
          calls st
          ++ [Connector.CallQueryEntities e
                {| Connector.select := Some [js "createdon"];
                   Connector.filter :=
                     truthy_or_undefined
                       (buildODataFilter e (default [] (filter s)));
                   Connector.orderBy := None;
                   Connector.top := Some 1000%Z |}] |}).
Proof.
  intros Hs Hstep Hyes He Htruthy Hact Hq.
  rewrite (turn_confirm_runs _ _ _ _ _ _ Hs Hstep Hyes), executeQuery_run.
  cbn [set_lastActivity entity action filter fields orderBy limit].
  rewrite He, Hact.
  cbn [truthy_opt default from_option Datatypes.id]. rewrite Htruthy.
  change (truthy (js "count")) with true. cbn [negb orb]. decide_tests.
  cbv zeta. rewrite Hq. reflexivity.
Qed.

(** X24: a [get] that finds nothing does not complete the session.  At
    the [confirm] step of a [get] an affirmative answer sends one query
    for a single record, without an ordering; when no record comes back
    the reply reports that none was found, with [completed: false], and
    the session is as it was but for its last activity. *)
Theorem confirm_get_without_record
    (conn : Connector.t) (now : Z) (sessionId input : jsstring) (st : State)
    (s : QuerySession) (e : jsstring) :
  sessions st !! sessionId = Some s ->
  currentStep s = js "confirm" ->
  includes affirmative (toLowerCase (trim input)) = true ->
  entity s = Some e ->
  truthy e = true ->
  action s = Some (js "get") ->
  Connector.queryEntities conn e
    {| Connector.select := fields s;
       Connector.filter :=
         truthy_or_undefined (buildODataFilter e (default [] (filter s)));
       Connector.orderBy := None;
       Connector.top := Some 1%Z |}
  = Ok [] ->
  processInput conn now sessionId input st
  = (Ok (queryFailed
           (js "Nenhum registro encontrado com os filtros especificados.")),
     {| sessions := <[sessionId := set_lastActivity now s]> (sessions st);
        calls :=
          calls st
          ++ [Connector.CallQueryEntities e
                {| Connector.select := fields s;
                   Connector.filter :=
                     truthy_or_undefined
                       (buildODataFilter e (default [] (filter s)));
                   Connector.orderBy := None;
                   Connector.top := Some 1%Z |}] |}).
Proof.
  intros Hs Hstep Hyes He Htruthy Hact Hq.
  rewrite (turn_confirm_runs _ _ _ _ _ _ Hs Hstep Hyes), executeQuery_run.
  cbn [set_lastActivity entity action filter fields orderBy limit].
  rewrite He, Hact.
  cbn [truthy_opt default from_option Datatypes.id]. rewrite Htruthy.
  change (truthy (js "get")) with true. cbn [negb orb]. decide_tests.
  cbv zeta. rewrite Hq. reflexivity.
Qed.

Lemma confirm_count_reads_one_page_witness :
  (processInput Sample.connector 1000 (js "query-17-abc1234") (js "ok")
     {| sessions :=
          {[ js "query-17-abc1234"
             := set_action (Some (js "count")) Sample.confirming ]};
        calls := [] |}).1
  = Ok {| message := js "Consulta executada com sucesso!";
          reply_completed := true;
          result := Some (Count 2 (js "accounts") []) |}.
Proof.
  assert (Hs : sessions
                 {| sessions :=
                      {[ js "query-17-abc1234"
                         := set_action (Some (js "count"))
                              Sample.confirming ]};
                    calls := [] |}
               !! js "query-17-abc1234"
               = Some (set_action (Some (js "count")) Sample.confirming))
    by reflexivity.
  assert (Hyes : includes affirmative (toLowerCase (trim (js "ok"))) = true)
    by (vm_compute; reflexivity).
  rewrite (confirm_count_reads_one_page Sample.connector 1000
             (js "query-17-abc1234") (js "ok") _ _ (js "accounts")
             Sample.accounts Hs eq_refl Hyes eq_refl eq_refl eq_refl
             eq_refl).
  reflexivity.
Defined.

Lemma confirm_get_without_record_witness :
  (processInput Sample.connector 1000 (js "query-17-abc1234") (js "sim")
     {| sessions :=
          {[ js "query-17-abc1234"
             := set_entity (Some (js "contacts"))
                  (set_action (Some (js "get")) Sample.confirming) ]};
        calls := [] |}).1
  = Ok (queryFailed
          (js "Nenhum registro encontrado com os filtros especificados.")).
Proof.
  assert (Hs : sessions
                 {| sessions :=
                      {[ js "query-17-abc1234"
                         := set_entity (Some (js "contacts"))
                              (set_action (Some (js "get"))
                                 Sample.confirming) ]};
                    calls := [] |}
               !! js "query-17-abc1234"
               = Some (set_entity (Some (js "contacts"))
                         (set_action (Some (js "get")) Sample.confirming)))
    by reflexivity.
  assert (Hyes : includes affirmative (toLowerCase (trim (js "sim"))) = true)
    by (vm_compute; reflexivity).
  rewrite (confirm_get_without_record Sample.connector 1000
             (js "query-17-abc1234") (js "sim") _ _ (js "contacts")
             Hs eq_refl Hyes eq_refl eq_refl eq_refl eq_refl).
  reflexivity.
Defined.

(** ** The life of a session *)

(** X25: the life of a session.  [startSession] stores a fresh session
    under the id it returns, at the [entity] step, with nothing chosen
    and not completed, and leaves every other id of the store as it was;
    [endSession] of that id answers [true] and removes it, so that
    [getSession] finds nothing and [processInput] answers that the
    session was not found; and [endSession] of an id that the store does
    not hold answers [false]. *)
Theorem session_round_trip
    (conn : Connector.t) (now later : Z) (random input : jsstring)
    (st : State) :
  let sessionId := (startSession now random st).1.1 in
  let st1 := (startSession now random st).2 in
  let st2 := (endSession sessionId st1).2 in
  sessionId = js "query-" ++ number_to_string now ++ js "-" ++ random
  /\ getSession sessionId st1
     = Some {| id := sessionId; startTime := now; lastActivity := now;
               currentStep := js "entity"; entity := None; action := None;
               filter := None; fields := None; orderBy := None;
               limit := None; expand := None; completed := false |}
  /\ (forall other, other <> sessionId ->
                    getSession other st1 = getSession other st)
  /\ (endSession sessionId st1).1 = true
  /\ getSession sessionId st2 = None
  /\ (forall other, other <> sessionId ->
                    getSession other st2 = getSession other st)
  /\ processInput conn later sessionId input st2 = (Ok sessionNotFound, st2)
  /\ (endSession sessionId st2).1 = false.
Proof.
  intros sessionId st1 st2.
  assert (H1 : sessions st1 !! sessionId
               = Some {| id := sessionId; startTime := now;
                         lastActivity := now; currentStep := js "entity";
                         entity := None; action := None; filter := None;
                         fields := None; orderBy := None; limit := None;
                         expand := None; completed := false |}).
  { unfold st1, startSession. cbn [snd sessions]. apply lookup_insert_eq. }
  assert (H2 : sessions st2 !! sessionId = None).
  { unfold st2, endSession. cbn [snd sessions]. apply lookup_delete_eq. }
  split; [reflexivity|]. split; [exact H1|]. split.
  { intros other Hother. unfold getSession, st1, startSession.
    cbn [snd sessions]. apply lookup_insert_ne. intros H. apply Hother. symmetry. exact H. }
  split.
  { unfold endSession. cbn [fst]. rewrite H1.
    apply bool_decide_eq_true_2. eexists. reflexivity. }
  split; [exact H2|]. split.
  { intros other Hother. unfold getSession, st2, endSession.
    cbn [snd sessions]. rewrite lookup_delete_ne
      by (intros H; apply Hother; symmetry; exact H).
    unfold st1, startSession. cbn [snd sessions].
    apply lookup_insert_ne. intros H. apply Hother. symmetry. exact H. }
  split.
  { unfold processInput. rewrite H2. reflexivity. }
  unfold endSession. cbn [fst]. rewrite H2.
  apply bool_decide_eq_false_2. intros [x Hx]. discriminate Hx.
Qed.

(** X26: every input renews the lease of its session.  After a turn at
    time [now], whatever the input and the step, the sweep at a later time
    drops the session exactly when more than thirty minutes have passed
    since that turn, however old the session was before it. *)
Theorem processInput_renews_the_lease
    (conn : Connector.t) (now later : Z) (sessionId input : jsstring)
    (st : State) (s : QuerySession) :
  sessions st !! sessionId = Some s ->
  sessions
    (cleanupExpiredSessions later
       (processInput conn now sessionId input st).2) !! sessionId
  = if bool_decide (later - now > 30 * 60 * 1000)%Z then None
    else sessions (processInput conn now sessionId input st).2 !! sessionId.
Proof.
  intros Hs. rewrite cleanup_lookup.
  destruct (dispatch_effect conn input (set_lastActivity now s) (calls st))
    as [reply [s' [log' [Hd Hcases]]]].
  rewrite (processInput_turn _ _ _ _ _ _ _ _ _ Hs Hd).
  cbn [snd sessions]. rewrite lookup_insert_eq.
  assert (Hlast : lastActivity s' = now).
  { destruct Hcases as
      [[_ [_ [_ [->| ->]]]]
      |[[_ [_ [_ [->|[a [_ ->]]]]]]
      |[[_ [_ [_ [->|[f [_ ->]]]]]]
      |[[_ [_ [_ [fs [_ ->]]]]]
      |[[_ [_ [_ [->|[o [_ ->]]]]]]
      |[[_ [_ [_ [->|[n [_ ->]]]]]]
      |[[_ [[_ [-> _]]|[[_ [-> _]]|[_ [_ ->]]]]]
      |[_ [_ [-> _]]]]]]]]]]; reflexivity. }
  repeat case_bool_decide; try reflexivity;
    unfold expired in *; rewrite Hlast in *; lia.
Qed.

Lemma processInput_renews_the_lease_witness :
  sessions
    (cleanupExpiredSessions 1801000
       (processInput Sample.connector 1000 (js "query-17-abc1234")
          (js "sem filtro") Sample.awaitingFilter).2)
  !! js "query-17-abc1234"
  = sessions
      (processInput Sample.connector 1000 (js "query-17-abc1234")
         (js "sem filtro") Sample.awaitingFilter).2
    !! js "query-17-abc1234".
Proof.
  assert (Hs : sessions Sample.awaitingFilter !! js "query-17-abc1234"
               = Some Sample.filtering) by reflexivity.
  rewrite (processInput_renews_the_lease Sample.connector 1000 1801000
             (js "query-17-abc1234") (js "sem filtro")
             Sample.awaitingFilter Sample.filtering Hs).
  reflexivity.
Defined.

(** ** What the patterns capture *)

Lemma rstar_captured whole p cs (A : Type) (k : jsstring -> option A) s x :
  rstar p k s = Some x ->
  exists s', captured whole (RStar p) s cs s' cs /\ k s' = Some x.
Proof.
  induction s as [|c s IH]; cbn [rstar]; intros H.
  - exists []. split; [constructor | exact H].
  - destruct (p c) eqn:Hc.
    + destruct (rstar p k s) as [y|] eqn:Hs.
      * injection H as ->. destruct (IH eq_refl) as [s' [Hm Hk]].
        exists s'. split; [constructor; assumption | exact Hk].
      * exists (c :: s). split; [constructor | exact H].
    + exists (c :: s). split; [constructor | exact H].
Qed.

(** A match that the matcher finds, with the captures it leaves. *)
Lemma rmatch_captured whole r :
  forall (A : Type) s cs (k : jsstring -> captures -> option A) x,
    rmatch r whole s cs k = Some x ->
    exists s' cs', captured whole r s cs s' cs' /\ k s' cs' = Some x.
Proof.
  induction r as [|p|r1 IH1 r2 IH2|r1 IH1 r2 IH2|p|i r IH| |];
    intros A s cs k x H; cbn [rmatch] in H.
  - exists s, cs. split; [constructor | exact H].
  - destruct s as [|c s]; [discriminate|].
    destruct (p c) eqn:Hc; [|discriminate].
    exists s, cs. split; [constructor; assumption | exact H].
  - apply IH1 in H as [s1 [cs1 [H1 H]]].
    apply IH2 in H as [s2 [cs2 [H2 H]]].
    exists s2, cs2. split; [econstructor; eassumption | exact H].
  - destruct (rmatch r1 whole s cs k) as [y|] eqn:Hl.
    + injection H as ->. apply IH1 in Hl as [s' [cs' [Hm Hk]]].
      exists s', cs'. split; [apply captured_alt_l; assumption | exact Hk].
    + apply IH2 in H as [s' [cs' [Hm Hk]]].
      exists s', cs'. split; [apply captured_alt_r; assumption | exact Hk].
  - apply (rstar_captured whole p cs) in H as [s' [Hm Hk]].
    exists s', cs. split; assumption.
  - apply IH in H as [s' [cs' [Hm Hk]]].
    eexists s', _. split; [constructor; eassumption | exact Hk].
  - destruct (Nat.eqb (length s) (length whole)) eqn:Hlen; [|discriminate].
    exists s, cs. split; [constructor; apply Nat.eqb_eq, Hlen | exact H].
  - destruct s; [|discriminate].
    exists [], cs. split; [constructor | exact H].
Qed.

Lemma captured_matches whole r s cs s' cs' :
  captured whole r s cs s' cs' -> matches whole r s s'.
Proof. induction 1; econstructor; eassumption. Qed.

Lemma suffix_units (P : N -> Prop) (t s : jsstring) :
  t `suffix_of` s -> Forall P s -> Forall P t.
Proof. intros [pre ->] H. apply Forall_app in H as [_ H]. exact H. Qed.

(** The captures are pieces of the input. *)
Lemma captured_units (P : N -> Prop) whole r s cs s' cs' :
  captured whole r s cs s' cs' ->
  Forall P s ->
  Forall (fun entry => Forall P entry.2) cs ->
  Forall (fun entry => Forall P entry.2) cs'.
Proof.
  induction 1 as
    [s cs|p c s cs Hc|r1 r2 s cs s1 cs1 s2 cs2 H1 IH1 H2 IH2
    |r1 r2 s cs s' cs' H IH|r1 r2 s cs s' cs' H IH|p s cs
    |p c s cs s' Hc H IH|i r s cs s' cs' H IH|s cs Hlen|cs];
    intros Hs Hcs; try assumption.
  - apply IH2; [|apply IH1; assumption].
    apply (suffix_units P s1 s);
      [exact (matches_suffix _ _ _ _ (captured_matches _ _ _ _ _ _ H1))
      | exact Hs].
  - apply IH; assumption.
  - apply IH; assumption.
  - constructor; [|apply IH; assumption].
    cbn [snd]. unfold consumed. apply Forall_take. exact Hs.
Qed.

(** A group that a pattern does not hold keeps its value. *)
Lemma captured_other_group whole r s cs s' cs' (i : nat) :
  captured whole r s cs s' cs' ->
  ~ In i (groups r) ->
  capture i cs' = capture i cs.
Proof.
  induction 1 as
    [s cs|p c s cs Hc|r1 r2 s cs s1 cs1 s2 cs2 H1 IH1 H2 IH2
    |r1 r2 s cs s' cs' H IH|r1 r2 s cs s' cs' H IH|p s cs
    |p c s cs s' Hc H IH|j r s cs s' cs' H IH|s cs Hlen|cs];
    cbn [groups]; intros Hi; try reflexivity.
  - rewrite IH2, IH1; [reflexivity| |]; intros Hin; apply Hi, in_or_app;
      [left | right]; exact Hin.
  - apply IH. intros Hin. apply Hi, in_or_app. left. exact Hin.
  - apply IH. intros Hin. apply Hi, in_or_app. right. exact Hin.
  - cbn [capture]. destruct (Nat.eqb_spec i j) as [->|Hne].
    + exfalso. apply Hi. left. reflexivity.
    + apply IH. intros Hin. apply Hi. right. exact Hin.
Qed.

Lemma capture_units (P : N -> Prop) (i : nat) (cs : captures) :
  Forall (fun entry => Forall P entry.2) cs -> Forall P (capture i cs).
Proof.
  induction 1 as [|[j v] cs Hv Hcs IH]; cbn [capture]; [constructor|].
  destruct (Nat.eqb i j); [exact Hv | exact IH].
Qed.

(** What a match finds: where it starts, and the captures that the
    pattern leaves from there. *)
Lemma regex_match_captured r input m :
  regex_match r input = Some m ->
  exists t rest,
    t `suffix_of` input /\ captured input r t [] rest m.
Proof.
  unfold regex_match. intros H.
  destruct (search_from r input input) as [[rest cs]|] eqn:Hsearch;
    [|discriminate].
  injection H as ->.
  apply search_sound in Hsearch as [t [Hsuf Ht]].
  unfold match_here in Ht.
  apply rmatch_captured in Ht as [s' [cs' [Hm Hk]]].
  injection Hk as -> ->.
  exists t, rest. split; assumption.
Qed.

Lemma regex_match_units (P : N -> Prop) r input m (i : nat) :
  regex_match r input = Some m -> Forall P input -> Forall P (capture i m).
Proof.
  intros Hm Hinput.
  apply regex_match_captured in Hm as [t [rest [Hsuf Hc]]].
  apply capture_units.
  apply (captured_units P _ _ _ _ _ _ Hc);
    [exact (suffix_units P t input Hsuf Hinput) | constructor].
Qed.

(** ** Trimming *)

Lemma trimStart_units (P : N -> Prop) (s : jsstring) :
  Forall P s -> Forall P (trimStart s).
Proof.
  induction 1 as [|c s Hc Hs IH]; cbn [trimStart]; [constructor|].
  destruct (is_space c); [exact IH | constructor; assumption].
Qed.

Lemma trim_units (P : N -> Prop) (s : jsstring) :
  Forall P s -> Forall P (trim s).
Proof.
  intros H. unfold trim, trimEnd.
  apply Forall_rev, trimStart_units, Forall_rev, trimStart_units. exact H.
Qed.

Lemma removelast_units (P : N -> Prop) (s : jsstring) :
  Forall P s -> Forall P (removelast s).
Proof.
  induction 1 as [|c s Hc Hs IH]; cbn [removelast]; [constructor|].
  destruct s; [constructor | constructor; assumption].
Qed.

Lemma unquote_units (P : N -> Prop) (s : jsstring) :
  Forall P s -> Forall P (unquote s).
Proof.
  intros H. unfold unquote.
  destruct (_ || _); [|exact H].
  unfold substring_1_m1. destruct s as [|c [|d s]]; try exact H.
  apply Forall_cons in H as [_ H]. apply removelast_units. exact H.
Qed.

(** The start of a trimmed text is no white space. *)
Lemma trimStart_head (s : jsstring) :
  match trimStart s with
  | [] => True
  | c :: _ => is_space c = false
  end.
Proof.
  induction s as [|c s IH]; cbn [trimStart]; [exact I|].
  destruct (is_space c) eqn:Hc; [exact IH | exact Hc].
Qed.

Lemma trimStart_fixed (s : jsstring) :
  match s with [] => True | c :: _ => is_space c = false end ->
  trimStart s = s.
Proof. destruct s as [|c s]; cbn [trimStart]; [|intros ->]; reflexivity. Qed.

Lemma trimStart_suffix (s : jsstring) : trimStart s `suffix_of` s.
Proof.
  induction s as [|c s IH]; cbn [trimStart]; [reflexivity|].
  destruct (is_space c); [apply suffix_cons_r; exact IH | reflexivity].
Qed.

(** [trim] leaves a trimmed text as it is. *)
Lemma trim_trim (s : jsstring) : trim (trim s) = trim s.
Proof.
  unfold trim, trimEnd.
  pose proof (trimStart_head s) as Hy.
  set (y := trimStart s) in *.
  pose proof (trimStart_head (rev y)) as Hz.
  pose proof (trimStart_suffix (rev y)) as [pre Hpre].
  set (z := trimStart (rev y)) in *.
  assert (Hstart : trimStart (rev z) = rev z).
  { apply trimStart_fixed.
    assert (Hy' : y = rev z ++ rev pre).
    { rewrite <- rev_app_distr, <- Hpre, rev_involutive. reflexivity. }
    destruct (rev z) as [|c t] eqn:Hrev; [exact I|].
    rewrite Hy' in Hy. exact Hy. }
  rewrite Hstart, rev_involutive.
  rewrite (trimStart_fixed z Hz). reflexivity.
Qed.

Lemma trim_fixed (w : jsstring) :
  Forall (fun c => is_space c = false) w -> trim w = w.
Proof.
  intros Hw. unfold trim, trimEnd.
  rewrite (trimStart_fixed w) by (destruct Hw; [exact I | assumption]).
  apply Forall_rev in Hw.
  rewrite (trimStart_fixed (rev w)) by (destruct Hw; [exact I | assumption]).
  apply rev_involutive.
Qed.

(** ** Case *)

Lemma lower_unit_is_lower (c : N) :
  is_upper_ascii (lower_unit c) || is_upper_latin1 (lower_unit c) = false.
Proof.
  unfold lower_unit.
  destruct (is_upper_ascii c || is_upper_latin1 c) eqn:Hc; [|exact Hc].
  apply not_true_is_false. intros H.
  unfold is_upper_ascii, is_upper_latin1, in_range in *.
  rewrite ?orb_true_iff, ?andb_true_iff, ?negb_true_iff, ?N.leb_le,
    ?N.eqb_neq in *.
  lia.
Qed.

Lemma toLowerCase_is_lower (s : jsstring) :
  Forall (fun c => is_upper_ascii c || is_upper_latin1 c = false)
    (toLowerCase s).
Proof.
  unfold toLowerCase. apply Forall_map.
  induction s; constructor; [apply lower_unit_is_lower | assumption].
Qed.

(** ** The filter step *)

Lemma firstMatch_shape ps input f :
  firstMatch ps input = Some f ->
  exists re operator m,
    In (re, operator) ps
    /\ regex_match re input = Some m
    /\ f = [(trim (capture 1 m),
             FInfo operator (unquote (trim (capture 2 m))))].
Proof.
  induction ps as [|[re operator] ps IH]; cbn [firstMatch]; [discriminate|].
  destruct (regex_match re input) as [m|] eqn:Hm.
  - intros [= <-]. exists re, operator, m.
    split; [left; reflexivity|]. split; [exact Hm | reflexivity].
  - intros H. destruct (IH H) as [re' [op' [m' [Hin Hrest]]]].
    exists re', op', m'. split; [right; exact Hin | exact Hrest].
Qed.

(** X27: the filter step stores what was typed in lower case, but the id
    of a [get].  At the [filter] step an input is refused, and the session
    stays as it is, or the session goes on to the [fields] step with no
    condition (an empty filter) or with a single condition.  For [list]
    and [count] the field and the value of that condition hold no
    upper-case letter of ASCII or Latin-1, whatever the case of the input,
    and the operator is one of the table; for [get] the condition is the
    trimmed input itself under the name [id]. *)
Theorem filter_step_stores_one_condition
    (conn : Connector.t) (now : Z) (sessionId input : jsstring) (st : State)
    (s : QuerySession) :
  sessions st !! sessionId = Some s ->
  currentStep s = js "filter" ->
  exists s',
    sessions (processInput conn now sessionId input st).2 !! sessionId
    = Some s'
    /\ ((currentStep s' = js "filter" /\ filter s' = filter s)
        \/ (currentStep s' = js "fields"
            /\ (filter s' = Some []
                \/ (action s = Some (js "get")
                    /\ filter s' = Some [(js "id", FRaw (trim input))])
                \/ (action s <> Some (js "get")
                    /\ exists field operator value,
                         filter s' = Some [(field, FInfo operator value)]
                         /\ In operator (map snd patterns)
                         /\ Forall (fun c => is_upper_ascii c
                                             || is_upper_latin1 c = false)
                              field
                         /\ Forall (fun c => is_upper_ascii c
                                             || is_upper_latin1 c = false)
                              value)))).
Proof.
  intros Hs Hstep.
  destruct (dispatch_effect conn input (set_lastActivity now s) (calls st))
    as [reply [s' [log' [Hd Hcases]]]].
  rewrite (processInput_turn _ _ _ _ _ _ _ _ _ Hs Hd).
  cbn [snd sessions]. rewrite lookup_insert_eq. exists s'.
  split; [reflexivity|].
  cbn [currentStep set_lastActivity action] in Hcases.
  destruct Hcases as
    [[Hnow _]|[[Hnow _]|[[_ [_ [_ Hs']]]|[[Hnow _]|[[Hnow _]|[[Hnow _]
    |[[Hnow _]|[Hnow _]]]]]]]];
    try (rewrite Hstep in Hnow; vm_compute in Hnow; discriminate Hnow);
    try (exfalso; apply Hnow; rewrite Hstep; vm_compute; tauto).
  destruct Hs' as [->|[f [Hf ->]]].
  { left. split; [exact Hstep | reflexivity]. }
  right. split; [reflexivity|].
  cbn [filter set_currentStep set_filter].
  destruct Hf as [->|[[Hget ->]|[Hget Hparse]]].
  - left. reflexivity.
  - right. left. split; [|reflexivity].
    apply eqb_true in Hget.
    destruct (action s) as [a|]; cbn [default from_option Datatypes.id] in Hget;
      [rewrite Hget; reflexivity | vm_compute in Hget; discriminate Hget].
  - right. right. split.
    { intros Ha. apply eqb_false in Hget. apply Hget. rewrite Ha.
      reflexivity. }
    unfold parseFilterInput in Hparse.
    destruct (firstMatch patterns (toLowerCase (trim input))) as [f'|] eqn:Hf;
      [|discriminate Hparse].
    injection Hparse as ->.
    apply firstMatch_shape in Hf as [re [operator [m [Hin [Hm ->]]]]].
    exists (trim (capture 1 m)), operator, (unquote (trim (capture 2 m))).
    split; [reflexivity|]. split.
    { apply (in_map snd) in Hin. exact Hin. }
    split.
    + apply trim_units.
      apply (regex_match_units _ _ _ _ _ Hm), toLowerCase_is_lower.
    + apply unquote_units, trim_units.
      apply (regex_match_units _ _ _ _ _ Hm), toLowerCase_is_lower.
Qed.

Lemma filter_step_stores_one_condition_witness :
  exists s',
    sessions
      (processInput Sample.connector 1000 (js "query-17-abc1234")
         (js "Nome = Contoso") Sample.awaitingFilter).2
    !! js "query-17-abc1234" = Some s'
    /\ ((currentStep s' = js "filter" /\ filter s' = None)
        \/ (currentStep s' = js "fields"
            /\ (filter s' = Some []
                \/ exists field operator value,
                     filter s' = Some [(field, FInfo operator value)]
                     /\ Forall (fun c => is_upper_ascii c
                                         || is_upper_latin1 c = false)
                          value))).
Proof.
  assert (Hs : sessions Sample.awaitingFilter !! js "query-17-abc1234"
               = Some Sample.filtering) by reflexivity.
  destruct (filter_step_stores_one_condition Sample.connector 1000
              (js "query-17-abc1234") (js "Nome = Contoso")
              Sample.awaitingFilter Sample.filtering Hs eq_refl)
    as [s' [Hs' Hcases]].
  exists s'. split; [exact Hs'|].
  destruct Hcases as [Hrefused|[Hstep Hstored]]; [left; exact Hrefused|].
  right. split; [exact Hstep|].
  destruct Hstored as [Hnone|[[Hget _]|[_ Hcond]]].
  - left. exact Hnone.
  - vm_compute in Hget. discriminate Hget.
  - right. destruct Hcond as [field [operator [value [Hf [_ [_ Hvalue]]]]]].
    exists field, operator, value. split; [exact Hf | exact Hvalue].
Defined.

(** ** The fields step *)

(** X28: the fields step stores the pieces of the input.  Every input is
    accepted at the [fields] step.  The session then holds no list of
    fields exactly when the trimmed input is, but for its case, one of
    [todos], [all], [tudo] and [*]; otherwise its list is made of the
    pieces of the lower-cased, trimmed input between its commas (pieces
    without a comma that give the input back when they are joined with
    commas), each trimmed, in their order and without the empty ones.
    Hence each field of the list is not empty, has no white space at its
    ends, and holds no comma and no upper-case letter of ASCII or
    Latin-1. *)
Theorem fields_step_stores_clean_names
    (conn : Connector.t) (now : Z) (sessionId input : jsstring) (st : State)
    (s : QuerySession) :
  sessions st !! sessionId = Some s ->
  currentStep s = js "fields" ->
  exists s',
    sessions (processInput conn now sessionId input st).2 !! sessionId
    = Some s'
    /\ (fields s' = None
        <-> In (toLowerCase (trim input))
              (map js ["todos"; "all"; "tudo"; "*"]%string))
    /\ (~ In (toLowerCase (trim input))
             (map js ["todos"; "all"; "tudo"; "*"]%string) ->
        exists pieces,
          join (js ",") pieces = toLowerCase (trim input)
          /\ Forall (Forall (fun c => c <> 44%N)) pieces
          /\ fields s'
             = Some (List.filter (fun name => negb (Js.eqb name []))
                       (map trim pieces)))
    /\ (forall names,
          fields s' = Some names ->
          Forall (fun name =>
                    name <> [] /\ trim name = name
                    /\ Forall (fun c => c <> 44%N
                                        /\ is_upper_ascii c
                                           || is_upper_latin1 c = false)
                         name)
            names).
Proof.
  intros Hs Hstep.
  assert (Hd : dispatch conn input (set_lastActivity now s, calls st)
               = processFieldsStep input (set_lastActivity now s, calls st)).
  { rewrite dispatch_step. cbn [fst set_lastActivity currentStep].
    rewrite Hstep. reflexivity. }
  destruct (processFieldsStep_run input (set_lastActivity now s) (calls st))
    as [m Hrun].
  rewrite Hrun in Hd.
  rewrite (processInput_turn _ _ _ _ _ _ _ _ _ Hs Hd).
  cbn [snd sessions]. rewrite lookup_insert_eq. eexists.
  split; [reflexivity|].
  cbn [fields set_currentStep set_fields]. rewrite includes_decide.
  pose proof (split_char_pieces (fun c => (c =? 44)%N)
                (toLowerCase (trim input))) as Hcomma.
  case_bool_decide as Hall.
  - split; [split; [intros _; apply list_elem_of_In; exact Hall
                   | reflexivity]|].
    split; [|intros names [=]].
    intros Hnot. exfalso. apply Hnot, list_elem_of_In. exact Hall.
  - split.
    { split; [discriminate|]. intros Hin. exfalso. apply Hall.
      apply list_elem_of_In. exact Hin. }
    split.
    { intros _. exists (split comma (toLowerCase (trim input))).
      split; [exact (split_char_join 44 (toLowerCase (trim input)))|].
      split.
      - eapply Forall_impl; [exact Hcomma|]. intros piece Hpiece.
        eapply Forall_impl; [exact Hpiece|]. intros c Hc.
        apply N.eqb_neq. exact Hc.
      - f_equal. apply filter_ext. intros name.
        destruct name; reflexivity. }
    intros names [= <-].
    apply Forall_forall. intros name Hname.
    apply list_elem_of_In, filter_In in Hname as [Hname Htruthy].
    apply in_map_iff in Hname as [piece [<- Hpiece]].
    split; [|split].
    + destruct (trim piece); [discriminate Htruthy | discriminate].
    + apply trim_trim.
    + apply trim_units.
      pose proof (split_units
                    (fun c => is_upper_ascii c || is_upper_latin1 c = false)
                    comma (toLowerCase (trim input))
                    (toLowerCase_is_lower (trim input))) as Hlower.
      rewrite Forall_forall in Hcomma, Hlower.
      apply list_elem_of_In in Hpiece.
      specialize (Hcomma piece Hpiece). specialize (Hlower piece Hpiece).
      rewrite Forall_forall in Hcomma, Hlower.
      apply Forall_forall. intros c Hc.
      split; [|exact (Hlower c Hc)].
      apply N.eqb_neq. exact (Hcomma c Hc).
Qed.

Lemma fields_step_stores_clean_names_witness :
  exists s',
    sessions
      (processInput Sample.connector 1000 (js "query-17-abc1234")
         (js " Name,, E-Mail , ")
         {| sessions :=
              {[ js "query-17-abc1234"
                 := set_currentStep (js "fields") Sample.filtering ]};
            calls := [] |}).2
    !! js "query-17-abc1234" = Some s'
    /\ exists pieces,
         join (js ",") pieces = toLowerCase (trim (js " Name,, E-Mail , "))
         /\ fields s'
            = Some (List.filter (fun name => negb (Js.eqb name []))
                      (map trim pieces)).
Proof.
  assert (Hs : sessions
                 {| sessions :=
                      {[ js "query-17-abc1234"
                         := set_currentStep (js "fields") Sample.filtering ]};
                    calls := [] |}
               !! js "query-17-abc1234"
               = Some (set_currentStep (js "fields") Sample.filtering))
    by reflexivity.
  assert (Hnot : ~ In (toLowerCase (trim (js " Name,, E-Mail , ")))
                      (map js ["todos"; "all"; "tudo"; "*"]%string)).
  { intros H. vm_compute in H.
    repeat (destruct H as [H|H]; [discriminate H|]). destruct H. }
  destruct (fields_step_stores_clean_names Sample.connector 1000
              (js "query-17-abc1234") (js " Name,, E-Mail , ") _ _ Hs
              eq_refl)
    as [s' [Hs' [_ [Hpieces _]]]].
  exists s'. split; [exact Hs'|].
  destruct (Hpieces Hnot) as [pieces [Hjoin [_ Hfields]]].
  exists pieces. split; [exact Hjoin | exact Hfields].
Defined.

(** ** The ordering step *)

Lemma star_consumed whole p s s' :
  matches whole (RStar p) s s' ->
  exists w, s = w ++ s' /\ Forall (fun c => p c = true) w.
Proof.
  intros H. remember (RStar p) as r eqn:Hr.
  induction H as
    [s|q c s Hc|r1 r2 s s1 s2 H1 IH1 H2 IH2|r1 r2 s s' H IH|r1 r2 s s' H IH
    |q s|q c s s' Hc H IH|i r s s' H IH|s Hlen|];
    try discriminate Hr.
  - exists []. split; [reflexivity | constructor].
  - injection Hr as ->. destruct (IH eq_refl) as [w [-> Hw]].
    exists (c :: w). split; [reflexivity | constructor; assumption].
Qed.

(** What [p+] consumes: at least one code unit, all of them in [p]. *)
Lemma plus_consumed whole p s s' :
  matches whole (rplus p) s s' ->
  consumed s s' <> [] /\ Forall (fun c => p c = true) (consumed s s').
Proof.
  unfold rplus. intros H.
  apply matches_seq_inv in H as [s1 [H1 H2]].
  apply matches_char_inv in H1 as [c [-> Hc]].
  apply star_consumed in H2 as [w [-> Hw]].
  assert (Hrun : consumed (c :: w ++ s') s' = c :: w).
  { unfold consumed.
    replace (length (c :: w ++ s') - length s')%nat with (length (c :: w))
      by (cbn [length]; rewrite length_app; lia).
    exact (take_app_length (c :: w) s'). }
  rewrite Hrun. split; [discriminate | constructor; assumption].
Qed.

Lemma word_is_no_space (c : N) : is_word c = true -> is_space c = false.
Proof.
  intros Hw. apply not_true_is_false. intros Hs.
  unfold is_word, is_space, is_white_space, is_line_terminator, is_digit,
    is_upper_ascii, is_lower_ascii, in_range in *.
  cbn [existsb] in Hs.
  rewrite ?orb_true_iff, ?andb_true_iff, ?N.leb_le, ?N.eqb_eq in *.
  lia.
Qed.

Lemma matches_bol_inv whole s s' :
  matches whole RBol s s' -> s' = s /\ length s = length whole.
Proof. inversion 1; subst. split; [reflexivity | assumption]. Qed.

Lemma matches_eol_inv whole s s' :
  matches whole REol s s' -> s = [] /\ s' = [].
Proof. inversion 1; subst. split; reflexivity. Qed.

(** The first group of a direction pattern is a word. *)
Lemma direction_pattern_column (words : regex) input m :
  groups words = [] ->
  regex_match (rseq [RGroup 1 (rplus is_word); sp; RGroup 2 words]) input
  = Some m ->
  capture 1 m <> [] /\ Forall (fun c => is_word c = true) (capture 1 m).
Proof.
  intros Hwords Hm.
  apply regex_match_captured in Hm as [t [rest [_ Hc]]].
  cbn [rseq] in Hc.
  inversion Hc as [| |r1 r2 s0 cs0 s1 cs1 s2 cs2 Hcolumn Htail| | | | | | |];
    subst.
  inversion Hcolumn as [| | | | | | |i r s0 cs0 s0' cs0' Hword| |]; subst.
  assert (Hkeep : capture 1 m = consumed t s1).
  { rewrite (captured_other_group _ _ _ _ _ _ 1 Htail).
    - cbn [capture Nat.eqb]. reflexivity.
    - cbn [groups sp rplus app]. rewrite Hwords. cbn [In].
      intros [H|[]]. discriminate H. }
  rewrite Hkeep.
  apply (plus_consumed input), (captured_matches _ _ _ _ _ _ Hword).
Qed.

(** An ordering that [parseOrderByInput] accepts is one word and a
    direction. *)
Lemma parseOrderByInput_shape input o :
  parseOrderByInput input = Ok o ->
  exists column direction,
    o = column ++ js " " ++ direction
    /\ column <> [] /\ Forall (fun c => is_word c = true) column
    /\ (direction = js "asc" \/ direction = js "desc").
Proof.
  unfold parseOrderByInput.
  destruct (regex_match ascPattern input) as [m|] eqn:Hasc.
  { intros [= <-].
    apply direction_pattern_column in Hasc as [Hne Hword];
      [|vm_compute; reflexivity].
    exists (capture 1 m), (js "asc").
    rewrite trim_fixed
      by (eapply Forall_impl; [exact Hword | exact word_is_no_space]).
    split; [reflexivity|]. split; [exact Hne|].
    split; [exact Hword | left; reflexivity]. }
  destruct (regex_match descPattern input) as [m|] eqn:Hdesc.
  { intros [= <-].
    apply direction_pattern_column in Hdesc as [Hne Hword];
      [|vm_compute; reflexivity].
    exists (capture 1 m), (js "desc").
    rewrite trim_fixed
      by (eapply Forall_impl; [exact Hword | exact word_is_no_space]).
    split; [reflexivity|]. split; [exact Hne|].
    split; [exact Hword | right; reflexivity]. }
  cbv zeta.
  destruct (truthy (trim input)) eqn:Htruthy; [|discriminate].
  cbn [andb]. unfold regex_test.
  destruct (search_from wordOnly (trim input) (trim input))
    as [[rest cs]|] eqn:Hsearch; [|discriminate].
  intros [= <-].
  apply search_sound in Hsearch as [t [Hsuf Ht]].
  unfold match_here in Ht.
  apply rmatch_sound in Ht as [s' [cs' [Hm _]]].
  unfold wordOnly in Hm. cbn [rseq] in Hm.
  apply matches_seq_inv in Hm as [s1 [Hbol Hm]].
  apply matches_seq_inv in Hm as [s2 [Hword Heol]].
  apply matches_bol_inv in Hbol as [-> Hlen].
  apply matches_eol_inv in Heol as [-> _].
  assert (Hwhole : t = trim input).
  { destruct Hsuf as [pre Hpre]. rewrite Hpre in Hlen.
    rewrite length_app in Hlen.
    destruct pre; [exact (eq_sym Hpre) | cbn [length] in Hlen; lia]. }
  rewrite Hwhole in Hword.
  apply plus_consumed in Hword as [Hne Hword].
  unfold consumed in Hne, Hword. cbn [length] in Hne, Hword.
  rewrite Nat.sub_0_r, firstn_all in Hne, Hword.
  exists (trim input), (js "asc").
  split; [reflexivity|]. split; [exact Hne|].
  split; [exact Hword | left; reflexivity].
Qed.

(** X29: an ordering is one column and a direction.  At the [orderBy]
    step an input is refused, and the session stays as it is, or the
    session goes on to the [limit] step with an ordering made of one
    word of letters, digits and underscores, a space, and [asc] or
    [desc]: of an input that names several columns one is kept. *)
Theorem orderBy_step_stores_one_column
    (conn : Connector.t) (now : Z) (sessionId input : jsstring) (st : State)
    (s : QuerySession) :
  sessions st !! sessionId = Some s ->
  currentStep s = js "orderBy" ->
  exists s',
    sessions (processInput conn now sessionId input st).2 !! sessionId
    = Some s'
    /\ ((currentStep s' = js "orderBy" /\ orderBy s' = orderBy s)
        \/ (currentStep s' = js "limit"
            /\ exists column direction,
                 orderBy s' = Some (column ++ js " " ++ direction)
                 /\ column <> []
                 /\ Forall (fun c => is_word c = true) column
                 /\ (direction = js "asc" \/ direction = js "desc"))).
Proof.
  intros Hs Hstep.
  destruct (dispatch_effect conn input (set_lastActivity now s) (calls st))
    as [reply [s' [log' [Hd Hcases]]]].
  rewrite (processInput_turn _ _ _ _ _ _ _ _ _ Hs Hd).
  cbn [snd sessions]. rewrite lookup_insert_eq. exists s'.
  split; [reflexivity|].
  cbn [currentStep set_lastActivity action] in Hcases.
  destruct Hcases as
    [[Hnow _]|[[Hnow _]|[[Hnow _]|[[Hnow _]|[[_ [_ [_ Hs']]]|[[Hnow _]
    |[[Hnow _]|[Hnow _]]]]]]]];
    try (rewrite Hstep in Hnow; vm_compute in Hnow; discriminate Hnow);
    try (exfalso; apply Hnow; rewrite Hstep; vm_compute; tauto).
  destruct Hs' as [->|[o [Ho ->]]].
  { left. split; [exact Hstep | reflexivity]. }
  right. split; [reflexivity|].
  cbn [orderBy set_currentStep set_orderBy].
  destruct Ho as [->|Hparse].
  - exists (js "createdon"), (js "desc").
    split; [reflexivity|]. split; [discriminate|].
    split; [|right; reflexivity].
    apply Forall_forall. intros c Hc. apply list_elem_of_In in Hc.
    vm_compute in Hc.
    repeat (destruct Hc as [<-|Hc]; [reflexivity|]). destruct Hc.
  - apply parseOrderByInput_shape in Hparse
      as [column [direction [-> Hrest]]].
    exists column, direction. split; [reflexivity | exact Hrest].
Qed.

Lemma orderBy_step_stores_one_column_witness :
  exists s',
    sessions
      (processInput Sample.connector 1000 (js "query-17-abc1234")
         (js "nome, cidade desc")
         {| sessions :=
              {[ js "query-17-abc1234"
                 := set_currentStep (js "orderBy") Sample.filtering ]};
            calls := [] |}).2
    !! js "query-17-abc1234" = Some s'
    /\ (orderBy s' = None
        \/ exists column direction,
             orderBy s' = Some (column ++ js " " ++ direction)
             /\ Forall (fun c => is_word c = true) column).
Proof.
  assert (Hs : sessions
                 {| sessions :=
                      {[ js "query-17-abc1234"
                         := set_currentStep (js "orderBy") Sample.filtering ]};
                    calls := [] |}
               !! js "query-17-abc1234"
               = Some (set_currentStep (js "orderBy") Sample.filtering))
    by reflexivity.
  destruct (orderBy_step_stores_one_column Sample.connector 1000
              (js "query-17-abc1234") (js "nome, cidade desc") _ _ Hs
              eq_refl)
    as [s' [Hs' Hcases]].
  exists s'. split; [exact Hs'|].
  destruct Hcases as [[_ Hsame]|[_ [column [direction [Ho [_ [Hword _]]]]]]].
  - left. exact Hsame.
  - right. exists column, direction. split; [exact Ho | exact Hword].
Defined.
End QueryAssistantCoverage.
